(** * SDH-AnimationChanger: a shallow embedding of [main.py]

    The plugin backend keeps its state in module globals ([config],
    [local_animations], [local_sets], [animation_cache]) and talks to the
    operating system through [os], [shutil], [json], [random] and [aiohttp].
    The embedding threads that state explicitly through a small
    state-and-exception monad: a statement maps the world to a value or a
    raised exception and the world it leaves, so that the effects made
    before an exception stay, as in Python.  The coroutines run one after
    the other and are embedded as plain functions.

    The library calls are the operations of a [Host] interface, so that
    the theorems hold for any behaviour of the file system, the random
    generator and the repository.  A concrete host, [Sim], runs the code
    on explicit inputs.

    Animation entries and sets are Python dictionaries and are embedded as
    finite maps from member names to values, so that a missing member
    raises [KeyError] and a member written under another name is another
    member.  Values are the JSON scalars; the lists of the configuration
    are lists of such dictionaries. *)

From stdpp Require Import gmap strings list fin_maps.
From Stdlib Require Import ZArith Ascii DecimalString.

Open Scope string_scope.

(** ** Python values *)

(** The scalar values that the JSON documents of the plugin carry in the
    fields the code reads ([id], [target], [enabled], [path], the slot file
    names). *)
Inductive pyval : Type :=
  | VNone
  | VBool (b : bool)
  | VInt (z : Z)
  | VStr (s : string).

#[global] Instance pyval_eq_dec : EqDecision pyval.
Proof. solve_decision. Defined.

(** Python's [==] on these values: [bool] is a subclass of [int]. *)
Definition py_eq (a b : pyval) : bool :=
  match a, b with
  | VNone, VNone => true
  | VBool x, VBool y => Bool.eqb x y
  | VBool x, VInt y => (Z.b2z x =? y)%Z
  | VInt x, VBool y => (x =? Z.b2z y)%Z
  | VInt x, VInt y => (x =? y)%Z
  | VStr x, VStr y => String.eqb x y
  | _, _ => false
  end.

(** Python's truth test, as used by [if filename:] and [if entry['enabled']]. *)
Definition truthy (v : pyval) : bool :=
  match v with
  | VNone => false
  | VBool b => b
  | VInt z => negb (z =? 0)%Z
  | VStr s => negb (String.eqb s "")
  end.

(** [str(v)], which is what an f-string placeholder [{v}] expands to. *)
Definition py_str (v : pyval) : string :=
  match v with
  | VNone => "None"
  | VBool true => "True"
  | VBool false => "False"
  | VInt z => NilZero.string_of_int (Z.to_int z)
  | VStr s => s
  end.

(** [v in l] for a Python list [l]. *)
Definition py_in (v : pyval) (l : list pyval) : bool :=
  existsb (py_eq v) l.

(** [str.capitalize]: first character upper case, the rest lower case. *)
Definition ascii_upper (c : ascii) : ascii :=
  let n := nat_of_ascii c in
  if ((97 <=? n) && (n <=? 122))%nat then ascii_of_nat (n - 32) else c.

Definition ascii_lower (c : ascii) : ascii :=
  let n := nat_of_ascii c in
  if ((65 <=? n) && (n <=? 90))%nat then ascii_of_nat (n + 32) else c.

Fixpoint string_map (f : ascii -> ascii) (s : string) : string :=
  match s with
  | EmptyString => EmptyString
  | String c r => String (f c) (string_map f r)
  end.

Definition capitalize (s : string) : string :=
  match s with
  | EmptyString => EmptyString
  | String c r => String (ascii_upper c) (string_map ascii_lower r)
  end.

(** A Python [dict] with string keys and scalar values: animation entries,
    animation sets and the per-directory [config.json]. *)
Abbreviation dict := (gmap string pyval).

(** ** Exceptions *)

Inductive exn : Type :=
  | Exception (msg : string)
  | KeyError (key : string)
  | TypeError (msg : string)
  | IndexError
  | StopIteration
  | ValueError (msg : string)
  | OSError (msg : string)
  | NotImplementedError
  | UnboundLocalError (name : string).

(** The handler [except (OSError, NotImplementedError)] of
    [apply_animation]. *)
Definition is_OSError_or_NotImplementedError (e : exn) : bool :=
  match e with
  | OSError _ | NotImplementedError => true
  | _ => false
  end.

(** ** The configuration document *)

(** [config], with the keys [load_config] initialises.  The three slot
    values and [current_set] are whatever the code stores there: an [id]
    taken from an entry, or a formatted string. *)
Record cfg : Type := Cfg {
  boot : pyval;
  suspend : pyval;
  throbber : pyval;
  randomize : pyval;
  current_set : pyval;
  downloads : list dict;
  custom_animations : list dict;
  custom_sets : list dict;
  shuffle_exclusions : list pyval;
  force_ipv4 : pyval
}.

(** The defaults of [load_config]. *)
Definition default_config : cfg :=
  {| boot := VStr ""; suspend := VStr ""; throbber := VStr "";
     randomize := VStr ""; current_set := VStr "";
     downloads := []; custom_animations := []; custom_sets := [];
     shuffle_exclusions := []; force_ipv4 := VBool false |}.

Definition set_current_set (v : pyval) (c : cfg) : cfg :=
  {| boot := boot c; suspend := suspend c; throbber := throbber c;
     randomize := randomize c; current_set := v;
     downloads := downloads c; custom_animations := custom_animations c;
     custom_sets := custom_sets c;
     shuffle_exclusions := shuffle_exclusions c; force_ipv4 := force_ipv4 c |}.

Definition set_custom_sets (l : list dict) (c : cfg) : cfg :=
  {| boot := boot c; suspend := suspend c; throbber := throbber c;
     randomize := randomize c; current_set := current_set c;
     downloads := downloads c; custom_animations := custom_animations c;
     custom_sets := l;
     shuffle_exclusions := shuffle_exclusions c; force_ipv4 := force_ipv4 c |}.

Definition set_custom_animations (l : list dict) (c : cfg) : cfg :=
  {| boot := boot c; suspend := suspend c; throbber := throbber c;
     randomize := randomize c; current_set := current_set c;
     downloads := downloads c; custom_animations := l;
     custom_sets := custom_sets c;
     shuffle_exclusions := shuffle_exclusions c; force_ipv4 := force_ipv4 c |}.

(** ** Platform constants *)

Inductive platform : Type := Linux | Windows | Darwin.

#[global] Instance platform_eq_dec : EqDecision platform.
Proof. solve_decision. Defined.

(** [platform.system()] as a string, for the log messages. *)
Definition platform_name (p : platform) : string :=
  match p with
  | Linux => "Linux"
  | Windows => "Windows"
  | Darwin => "Darwin"
  end.

(** The three animation roles; [VIDEO_TYPES[i]] names the role of index
    [i]. *)
Definition VIDEO_TYPES : list string := ["boot"; "suspend"; "throbber"].
Definition VIDEO_TARGETS : list string := ["boot"; "suspend"; "suspend"].

(** [get_video_names] *)
Definition get_video_names (system : platform) : list string :=
  match system with
  | Windows =>
      ["bigpicture_startup.webm"; "bigpicture_suspend.webm";
       "bigpicture_suspend_from_throbber.webm"]
  | _ =>
      ["deck_startup.webm"; "steam_os_suspend.webm";
       "steam_os_suspend_from_throbber.webm"]
  end.

(** [is_video_supported] *)
Definition is_video_supported (system : platform) (video_type : string) : bool :=
  match system with
  | Windows => String.eqb video_type "boot"
  | _ => true
  end.

Definition REQUEST_RETRIES : nat := 5.

(** The module constants that depend on the installation: the result of
    [get_steam_paths] (both paths are [None] on Windows when no Steam root
    is found) and the plugin directories handed over by the plugin loader. *)
Record environment : Type := Env {
  system : platform;
  OVERRIDE_PATH : option string;
  STEAMUI_MOVIES_PATH : option string;
  CONFIG_PATH : string;
  ANIMATIONS_PATH : string;
  DOWNLOADS_PATH : string
}.

Definition VIDEOS_NAMES (env : environment) : list string :=
  get_video_names (system env).

(** [config[VIDEO_TYPES[i]]] *)
Definition get_slot (i : nat) (c : cfg) : pyval :=
  match i with
  | O => boot c
  | S O => suspend c
  | _ => throbber c
  end.

(** [config[VIDEO_TYPES[i]] = v] *)
Definition set_slot (i : nat) (v : pyval) (c : cfg) : cfg :=
  {| boot := match i with O => v | _ => boot c end;
     suspend := match i with S O => v | _ => suspend c end;
     throbber := match i with O | S O => throbber c | _ => v end;
     randomize := randomize c; current_set := current_set c;
     downloads := downloads c; custom_animations := custom_animations c;
     custom_sets := custom_sets c;
     shuffle_exclusions := shuffle_exclusions c; force_ipv4 := force_ipv4 c |}.

(** ** The remote catalog *)

(** One element of the [posts] array of the repository's answer, with the
    members [get_steamdeckrepo] reads. *)
Record post : Type := Post {
  post_id : pyval;
  post_title : pyval;
  post_thumbnail : pyval;
  post_video : pyval;
  post_steam_name : pyval;
  post_content : pyval;
  post_updated_at : pyval;
  post_url : pyval;
  post_likes : pyval;
  post_downloads : pyval;
  post_type : pyval
}.

(** The outcome of one request: the status line and, for the body,
    either the decoded [posts] array or the exception that
    [(await res.json())['posts']] raises; or no answer at all. *)
Inductive response : Type :=
  | HttpResponse (status : Z) (body : exn + list post)
  | HttpFailure (e : exn).

(** What is written with [json.dump]. *)
Inductive document : Type :=
  | DocConfig (c : cfg)
  | DocDict (d : dict).

(** ** The host interface *)

(** The calls into [os], [os.path], [shutil], [json], [random] and
    [aiohttp], over a state [H] of the machine.  Queries leave the state
    alone; the others return the new state and the exception they raised,
    if any. *)
Class Host (H : Type) : Type := {
  (** [os.path.join(a, b)] *)
  path_join : string -> string -> string;
  (** [os.path.exists], on a path and on a file descriptor *)
  path_exists : string -> H -> bool;
  fd_exists : Z -> H -> bool;
  (** [os.path.islink] *)
  path_islink : string -> H -> bool;
  (** [os.remove(path)] *)
  os_remove : string -> H -> option exn * H;
  (** [os.symlink(src, dst)] *)
  os_symlink : string -> string -> H -> option exn * H;
  (** [shutil.copy2(src, dst)] *)
  shutil_copy2 : string -> string -> H -> option exn * H;
  (** [next(os.walk(root))[1]]; [None] when the walk yields nothing *)
  walk_dirs : string -> H -> option (list string);
  (** [with open(path) as f: json.load(f)]; a document that parses is a
      JSON object with scalar members *)
  json_load : string -> H -> exn + dict;
  (** [with open(path, 'w') as f: json.dump(doc, f)] *)
  json_dump : string -> document -> H -> option exn * H;
  (** [random.randint(a, b)] *)
  random_randint : Z -> Z -> H -> Z * H;
  random_randint_range :
    forall a b h, (a <= b)%Z -> (a <= fst (random_randint a b h) <= b)%Z;
  (** one [GET https://steamdeckrepo.com/api/posts/all], over IPv4 only
      when the flag is set *)
  http_get_posts : bool -> H -> response * H
}.

(** ** The state of the process and the monad of the embedding *)

Inductive level : Type := INFO | WARNING | ERROR.

(** One call of [decky_plugin.logger]: level, message and [exc_info]. *)
Record log_record : Type := LogRecord {
  log_level : level;
  log_msg : string;
  log_exc : option exn
}.

(** The module globals, the machine and the log written so far. *)
Record world (H : Type) : Type := World {
  config : cfg;
  local_animations : list dict;
  local_sets : list dict;
  animation_cache : list dict;
  host : H;
  logged : list log_record
}.

Arguments World {H}.
Arguments config {H}.
Arguments local_animations {H}.
Arguments local_sets {H}.
Arguments animation_cache {H}.
Arguments host {H}.
Arguments logged {H}.

(** A statement either completes with a value or raises; in both cases
    the effects it had so far stay. *)
Inductive result (A : Type) : Type :=
  | Ok (a : A)
  | Raise (e : exn).

Arguments Ok {A}.
Arguments Raise {A}.

Definition M (H A : Type) : Type := world H -> result A * world H.

Definition ret {H A} (a : A) : M H A := fun w => (Ok a, w).

Definition raise {H A} (e : exn) : M H A := fun w => (Raise e, w).

Definition bind {H A B} (m : M H A) (k : A -> M H B) : M H B :=
  fun w =>
    match m w with
    | (Ok a, w') => k a w'
    | (Raise e, w') => (Raise e, w')
    end.

(** [try: m  except Exception as e: handler e] *)
Definition try_except {H A} (m : M H A) (handler : exn -> M H A) : M H A :=
  fun w =>
    match m w with
    | (Ok a, w') => (Ok a, w')
    | (Raise e, w') => handler e w'
    end.

Declare Scope py_scope.
Delimit Scope py_scope with py.
Notation "x ← y ; z" := (bind y (fun x => z))
  (at level 20, y at level 100, z at level 200, only parsing) : py_scope.
Notation "' x ← y ; z" := (bind y (fun x => z))
  (at level 20, x pattern, y at level 100, z at level 200, only parsing)
  : py_scope.
Notation "y ;; z" := (bind y (fun _ => z))
  (at level 100, z at level 200, only parsing, right associativity) : py_scope.

(** [for x in l: body x] *)
Fixpoint for_each {H A} (l : list A) (body : A -> M H unit) : M H unit :=
  match l with
  | [] => ret tt
  | x :: r => bind (body x) (fun _ => for_each r body)
  end.

(** [d[k]], which raises [KeyError] on a missing key. *)
Definition getitem (d : dict) (k : string) : exn + pyval :=
  match d !! k with
  | Some v => inr v
  | None => inl (KeyError k)
  end.

Definition lift {H A} (r : exn + A) : M H A :=
  match r with
  | inr a => ret a
  | inl e => raise e
  end.

Section Globals.
Context {H : Type}.

Definition get_config : M H cfg := fun w => (Ok (config w), w).

Definition put_config (c : cfg) : M H unit :=
  fun w => (Ok tt, World c (local_animations w) (local_sets w)
                        (animation_cache w) (host w) (logged w)).

Definition put_host (h : H) : M H unit :=
  fun w => (Ok tt, World (config w) (local_animations w) (local_sets w)
                        (animation_cache w) h (logged w)).

Definition put_local_sets (l : list dict) : M H unit :=
  fun w => (Ok tt, World (config w) (local_animations w) l
                        (animation_cache w) (host w) (logged w)).

Definition put_local (anims sets : list dict) : M H unit :=
  fun w => (Ok tt, World (config w) anims sets
                        (animation_cache w) (host w) (logged w)).

Definition put_animation_cache (l : list dict) : M H unit :=
  fun w => (Ok tt, World (config w) (local_animations w) (local_sets w)
                        l (host w) (logged w)).

(** [decky_plugin.logger.<level>(msg, exc_info=ex)] *)
Definition logger (l : level) (msg : string) (ex : option exn) : M H unit :=
  fun w => (Ok tt, World (config w) (local_animations w) (local_sets w)
                        (animation_cache w) (host w)
                        (logged w ++ [LogRecord l msg ex])%list).

(** A query of the machine. *)
Definition ask {A} (q : H -> A) : M H A := fun w => (Ok (q (host w)), w).

(** A call that changes the machine and may raise. *)
Definition call (op : H -> option exn * H) : M H unit :=
  fun w =>
    let '(r, h) := op (host w) in
    let w' := World (config w) (local_animations w) (local_sets w)
                    (animation_cache w) h (logged w) in
    match r with
    | None => (Ok tt, w')
    | Some e => (Raise e, w')
    end.

(** [raise_and_log] *)
Definition raise_and_log {A} (msg : string) (ex : option exn) : M H A :=
  (logger ERROR msg ex ;;
   match ex with
   | None => raise (Exception msg)
   | Some e => raise e
   end)%py.
End Globals.

(** Evaluation of a list comprehension [[x for x in l if p x]] whose
    condition may raise: the elements are tested in order and the first
    exception ends the comprehension. *)
Fixpoint filter_e {A} (p : A -> exn + bool) (l : list A) : exn + list A :=
  match l with
  | [] => inr []
  | x :: r =>
      match p x with
      | inl e => inl e
      | inr b =>
          match filter_e p r with
          | inl e => inl e
          | inr r' => inr (if b then x :: r' else r')
          end
      end
  end.

(** [for k, entry in enumerate(l): if entry['id'] == wanted: ... break]:
    the first entry whose [id] equals [wanted], with its position. *)
Fixpoint find_by_id (l : list dict) (wanted : pyval) (k : nat)
  : exn + option (nat * dict) :=
  match l with
  | [] => inr None
  | entry :: r =>
      match getitem entry "id" with
      | inl e => inl e
      | inr v =>
          if py_eq v wanted then inr (Some (k, entry))
          else find_by_id r wanted (S k)
      end
  end.

(** [l[k]] for a Python list and an integer index. *)
Definition py_index {A} (l : list A) (k : Z) : exn + A :=
  let n := Z.of_nat (length l) in
  let k' := if (k <? 0)%Z then (k + n)%Z else k in
  if (k' <? 0)%Z then inl IndexError
  else match l !! Z.to_nat k' with
       | Some x => inr x
       | None => inl IndexError
       end.

Definition str_of_Z (z : Z) : string := NilZero.string_of_int (Z.to_int z).

(** The truth value of a path constant that may be [None]. *)
Definition truthy_path (p : option string) : bool :=
  match p with
  | Some s => negb (String.eqb s "")
  | None => false
  end.

(** ** The plugin *)

Section Plugin.
Context {H : Type} `{!Host H} (env : environment).
Local Open Scope py_scope.

(** [os.path.join(a, b, c)] *)
Definition path_join3 (a b c : string) : string :=
  path_join (path_join a b) c.

(** [save_config] *)
Definition save_config : M H unit :=
  c ← get_config;
  try_except
    (call (json_dump (CONFIG_PATH env) (DocConfig c)))
    (fun e => raise_and_log "Failed to save config" (Some e)).

(** *** [get_steamdeckrepo] *)

(** The dictionary built for one catalog entry.  Only the string
    concatenation for [download_url] can raise. *)
Definition translate_post (entry : post) : exn + dict :=
  match post_id entry with
  | VStr id =>
      inr (<["id" := post_id entry]>
          (<["name" := post_title entry]>
          (<["preview_image" := post_thumbnail entry]>
          (<["preview_video" := post_video entry]>
          (<["author" := post_steam_name entry]>
          (<["description" := post_content entry]>
          (<["last_changed" := post_updated_at entry]>
          (<["source" := post_url entry]>
          (<["download_url" :=
               VStr ("https://steamdeckrepo.com/post/download/" +:+ id)]>
          (<["likes" := post_likes entry]>
          (<["downloads" := post_downloads entry]>
          (<["version" := VStr ""]>
          (<["target" :=
               if py_eq (post_type entry) (VStr "suspend_video")
               then VStr "suspend" else VStr "boot"]>
          (<["manifest_version" := VInt 1]> ∅))))))))))))))
  | _ => inl (TypeError "can only concatenate str to str")
  end.

(** The comprehension of lines 137-152. *)
Fixpoint translate_posts (data : list post) : exn + list dict :=
  match data with
  | [] => inr []
  | entry :: r =>
      if py_in (post_type entry) [VStr "suspend_video"; VStr "boot_video"]
      then match translate_post entry with
           | inl e => inl e
           | inr d => match translate_posts r with
                      | inl e => inl e
                      | inr r' => inr (d :: r')
                      end
           end
      else translate_posts r
  end.

(** One request of the loop. *)
Definition request : M H response :=
  fun w =>
    let '(r, h) := http_get_posts (truthy (force_ipv4 (config w))) (host w) in
    (Ok r, World (config w) (local_animations w) (local_sets w)
                 (animation_cache w) h (logged w)).

(** The loop [for _ in range(n): ... else: raise ...] of lines 121-136;
    [status] is the local variable of that name, unbound before the
    first answer. *)
Fixpoint fetch_loop (n : nat) (status : option Z) : M H (list post) :=
  match n with
  | O =>
      match status with
      | Some st =>
          raise (Exception ("Retry attempts exceeded, status code: "
                            +:+ str_of_Z st))
      | None => raise (UnboundLocalError "status")
      end
  | S n' =>
      r ← request;
      match r with
      | HttpFailure e => raise e
      | HttpResponse st body =>
          if (st =? 200)%Z then lift body
          else if (st =? 429)%Z then
            raise (Exception "Rate limit exceeded, try again in a minute")
          else
            logger WARNING
              ("steamdeckrepo fetch failed, status=" +:+ str_of_Z st) None ;;
            fetch_loop n' (Some st)
      end
  end.

Definition get_steamdeckrepo : M H (list dict) :=
  try_except
    (data ← fetch_loop REQUEST_RETRIES None;
     lift (translate_posts data))
    (fun e => logger ERROR "Failed to fetch steamdeckrepo" (Some e) ;;
              raise e).

(** [update_cache] *)
Definition update_cache : M H unit :=
  l ← get_steamdeckrepo;
  put_animation_cache l.

(** *** [load_local_animations] *)

(** The [else:] loop of lines 251-254: does one of the three default
    files exist in the directory? *)
Definition has_default_video (directory : string) (h : H) : bool :=
  existsb
    (fun video =>
       path_exists (path_join3 (ANIMATIONS_PATH env) directory video) h)
    (VIDEOS_NAMES env).

(** [process_animation], the closure of lines 263-273, on the
    [local_set] under construction and the [animations] list. *)
Definition process_animation (directory : string) (anim_config : dict)
    (h : H) (default anim_type target : string)
    (acc : dict * list dict) : dict * list dict :=
  let '(local_set, animations) := acc in
  let filename :=
    match anim_config !! anim_type with
    | None => VStr default
    | Some v => v
    end in
  let filename :=
    if bool_decide (anim_config !! anim_type = None)
       && negb (path_exists
                  (path_join3 (ANIMATIONS_PATH env) directory default) h)
    then VStr "" else filename in
  let local_set := <[anim_type := filename]> local_set in
  if negb (py_eq filename (VStr "")) && negb (bool_decide (filename = VNone))
  then
    (local_set,
     (animations ++
       [ <["id" := VStr (directory +:+ "/" +:+ py_str filename)]>
         (<["name" :=
              VStr (if String.eqb anim_type "boot" then directory
                    else directory +:+ " - " +:+ capitalize anim_type)]>
         (<["target" := VStr target]> ∅)) ])%list)
  else (local_set, animations).

(** The body of the loop over [directories], lines 240-278. *)
Definition scan_directory (directory : string)
    (acc : list dict * list dict) : M H (list dict * list dict) :=
  let '(animations, sets) := acc in
  let config_path :=
    path_join3 (ANIMATIONS_PATH env) directory "config.json" in
  has_config ← ask (path_exists config_path);
  '(anim_config, is_set) ←
    (if has_config : bool then
       try_except
         (d ← (fun w => lift (json_load config_path (host w)) w);
          ret (d, true))
         (fun e =>
            logger WARNING
              ("Failed to parse config.json for: " +:+ directory) (Some e) ;;
            ret (∅, false))
     else
       found ← ask (has_default_video directory);
       ret (∅, found));
  if negb is_set then ret (animations, sets)
  else
    h ← ask id;
    let local_set : dict :=
      <["enabled" := match anim_config !! "enabled" with
                     | Some v => v
                     | None => VBool true
                     end]>
      (<["id" := VStr directory]> ∅) in
    let '(local_set, animations) :=
      foldl
        (fun acc i =>
           process_animation directory anim_config h
             (nth i (VIDEOS_NAMES env) "") (nth i VIDEO_TYPES "")
             (nth i VIDEO_TARGETS "") acc)
        (local_set, animations) (seq 0 3) in
    ret (animations, (sets ++ [local_set])%list).

Fixpoint scan_directories (directories : list string)
    (acc : list dict * list dict) : M H (list dict * list dict) :=
  match directories with
  | [] => ret acc
  | directory :: r =>
      acc' ← scan_directory directory acc;
      scan_directories r acc'
  end.

Definition load_local_animations : M H unit :=
  directories ←
    (fun w =>
       match walk_dirs (ANIMATIONS_PATH env) (host w) with
       | Some l => (Ok l, w)
       | None => (Raise StopIteration, w)
       end);
  '(animations, sets) ← scan_directories directories ([], []);
  put_local animations sets.

(** *** [apply_animation] *)

(** Lines 293-297: the type of the video with that file name. *)
Fixpoint find_video_type (names types : list string) (video : string)
  : option string :=
  match names, types with
  | vname :: names', t :: types' =>
      if String.eqb vname video then Some t
      else find_video_type names' types' video
  | _, _ => None
  end.

(** Lines 305-320: the target path, whether it is the [steamui] one,
    and the backup made there the first time. *)
Definition select_target (video : string) : M H (string * bool) :=
  if bool_decide (system env = Windows)
     && truthy_path (STEAMUI_MOVIES_PATH env)
  then
    let target_path :=
      path_join (default "" (STEAMUI_MOVIES_PATH env)) video in
    let backup_path := target_path +:+ ".backup" in
    has_backup ← ask (path_exists backup_path);
    has_target ← ask (path_exists target_path);
    (if negb has_backup && has_target then
       try_except
         (call (shutil_copy2 target_path backup_path) ;;
          logger INFO ("Created backup: " +:+ backup_path) None)
         (fun e =>
            logger WARNING
              ("Failed to create backup: " +:+ backup_path) (Some e))
     else ret tt) ;;
    ret (target_path, true)
  else
    match OVERRIDE_PATH env with
    | Some override => ret (path_join override video, false)
    | None => raise (TypeError "expected str, bytes or os.PathLike object")
    end.

(** Lines 322-327. *)
Definition remove_existing (target_path : string) : M H unit :=
  is_link ← ask (path_islink target_path);
  present ← ask (path_exists target_path);
  if is_link || present then
    try_except
      (call (os_remove target_path))
      (fun e =>
         logger WARNING
           ("Failed to remove existing file: " +:+ target_path) (Some e))
  else ret tt.

(** Lines 330-339: the branch for the empty identifier. *)
Definition restore_default (target_path : string) (use_steamui : bool)
  : M H unit :=
  if use_steamui then
    let backup_path := target_path +:+ ".backup" in
    has_backup ← ask (path_exists backup_path);
    if has_backup : bool then
      try_except
        (call (shutil_copy2 backup_path target_path) ;;
         logger INFO ("Restored from backup: " +:+ target_path) None)
        (fun e =>
           logger ERROR
             ("Failed to restore backup: " +:+ backup_path) (Some e))
    else ret tt
  else ret tt.

(** Lines 341-355: the three nested [for ... else] loops.  The result
    is the value of [path], [None] when no loop assigned it. *)
Definition find_path (anim_id : pyval) : M H pyval :=
  c ← get_config;
  in_downloads ← lift (find_by_id (downloads c) anim_id 0);
  match in_downloads with
  | Some _ =>
      ret (VStr (path_join (DOWNLOADS_PATH env)
                           (py_str anim_id +:+ ".webm")))
  | None =>
      in_custom ← lift (find_by_id (custom_animations c) anim_id 0);
      match in_custom with
      | Some (_, anim) => lift (getitem anim "path")
      | None =>
          locals ← (fun w => (Ok (local_animations w), w));
          in_local ← lift (find_by_id locals anim_id 0);
          match in_local with
          | Some _ =>
              match anim_id with
              | VStr s => ret (VStr (path_join (ANIMATIONS_PATH env) s))
              | _ =>
                  raise (TypeError "expected str, bytes or os.PathLike object")
              end
          | None => ret VNone
          end
      end
  end.

(** [path is not None and os.path.exists(path)]; an integer is taken
    by [os.path.exists] as a file descriptor. *)
Definition path_on_disk (path : pyval) (h : H) : bool :=
  match path with
  | VNone => false
  | VStr s => path_exists s h
  | VInt z => fd_exists z h
  | VBool b => fd_exists (Z.b2z b) h
  end.

(** [os.symlink] and [shutil.copy2] refuse a source that is no path. *)
Definition symlink (path : pyval) (target_path : string) : M H unit :=
  match path with
  | VStr s => call (os_symlink s target_path)
  | _ => raise (TypeError "symlink: src should be string, bytes or os.PathLike")
  end.

Definition copy2 (path : pyval) (target_path : string) : M H unit :=
  match path with
  | VStr s => call (shutil_copy2 s target_path)
  | _ => raise (TypeError "expected str, bytes or os.PathLike object")
  end.

(** Lines 360-374. *)
Definition link_or_copy (path : pyval) (target_path : string)
    (use_steamui : bool) : M H unit :=
  try_except
    (symlink path target_path ;;
     logger INFO
       ("Created symlink: " +:+ target_path +:+ " -> " +:+ py_str path)
       None)
    (fun e =>
       if is_OSError_or_NotImplementedError e then
         if bool_decide (system env = Windows) || use_steamui then
           try_except
             (logger INFO
                ("Symlink failed, copying file instead: " +:+ py_str path
                 +:+ " -> " +:+ target_path) None ;;
              copy2 path target_path)
             (fun copy_error =>
                raise_and_log
                  ("Failed to copy animation file: " +:+ py_str path
                   +:+ " -> " +:+ target_path) (Some copy_error))
         else
           raise_and_log
             ("Failed to create symlink: " +:+ py_str path
              +:+ " -> " +:+ target_path) (Some e)
       else raise e).

(** Lines 341-358: resolution of the identifier to the path of its
    file, which has to exist. *)
Definition resolve (anim_id : pyval) : M H pyval :=
  path ← find_path anim_id;
  on_disk ← ask (path_on_disk path);
  if negb on_disk then
    raise_and_log ("Failed to find animation for: " +:+ py_str anim_id) None
  else ret path.

Definition apply_animation (video : string) (anim_id : pyval) : M H unit :=
  let video_type := find_video_type (VIDEOS_NAMES env) VIDEO_TYPES video in
  if match video_type with
     | Some t =>
         negb (String.eqb t "") && negb (is_video_supported (system env) t)
     | None => false
     end
  then
    logger INFO
      ("Skipping " +:+ default "None" video_type +:+ " animation on "
       +:+ platform_name (system env) +:+ " (not supported)") None
  else
    '(target_path, use_steamui) ← select_target video;
    remove_existing target_path ;;
    if py_eq anim_id (VStr "") then restore_default target_path use_steamui
    else
      path ← resolve anim_id;
      link_or_copy path target_path use_steamui.

(** The body of the loop of [apply_animations]. *)
Definition apply_slot (i : nat) : M H unit :=
  c ← get_config;
  apply_animation (nth i (VIDEOS_NAMES env) "") (get_slot i c).

Definition apply_animations : M H unit :=
  for_each (seq 0 3) apply_slot.

(** *** Sets and the randomizer *)

(** The condition [entry['enabled']] of [get_active_sets]. *)
Definition is_enabled (entry : dict) : exn + bool :=
  match getitem entry "enabled" with
  | inl e => inl e
  | inr v => inr (truthy v)
  end.

Definition get_active_sets : M H (list dict) :=
  fun w =>
    lift (filter_e is_enabled
            (local_sets w ++ custom_sets (config w))%list) w.

(** The condition [entry['id'] != wanted] of the two removals. *)
Definition id_differs (wanted : pyval) (entry : dict) : exn + bool :=
  match getitem entry "id" with
  | inl e => inl e
  | inr v => inr (negb (py_eq v wanted))
  end.

Definition remove_custom_set (set_id : pyval) : M H unit :=
  c ← get_config;
  l ← lift (filter_e (id_differs set_id) (custom_sets c));
  put_config (set_custom_sets l c).

Definition remove_custom_animation (anim_id : pyval) : M H unit :=
  c ← get_config;
  l ← lift (filter_e (id_differs anim_id) (custom_animations c));
  put_config (set_custom_animations l c).

(** [random.randint(a, b)] *)
Definition randint (a b : Z) : M H Z :=
  fun w =>
    let '(k, h) := random_randint a b (host w) in
    (Ok k, World (config w) (local_animations w) (local_sets w)
                 (animation_cache w) h (logged w)).

Definition assign_slot (i : nat) (v : pyval) : M H unit :=
  c ← get_config;
  put_config (set_slot i v c).

(** Lines 398-406: the slots take the files of the chosen set. *)
Definition assign_set (new_set : dict) : M H unit :=
  set_id ← lift (getitem new_set "id");
  (c ← get_config; put_config (set_current_set set_id c)) ;;
  for_each (seq 0 3)
    (fun i =>
       filename ← lift (getitem new_set (nth i VIDEO_TYPES ""));
       if truthy filename then
         set_id ← lift (getitem new_set "id");
         assign_slot i (VStr (py_str set_id +:+ "/" +:+ py_str filename))
       else assign_slot i (VStr "")).

Definition randomize_current_set : M H unit :=
  active ← get_active_sets;
  if (0 <? length active)%nat then
    k ← randint 0 (Z.of_nat (length active) - 1);
    new_set ← lift (py_index active k);
    assign_set new_set
  else
    (c ← get_config; put_config (set_current_set (VStr "") c)) ;;
    for_each (seq 0 3) (fun i => assign_slot i (VStr "")).

(** The condition of the comprehension of [randomize_all]. *)
Definition eligible (target : string) (exclusions : list pyval)
    (anim : dict) : exn + bool :=
  match getitem anim "target" with
  | inl e => inl e
  | inr t =>
      if py_eq t (VStr target) then
        match getitem anim "id" with
        | inl e => inl e
        | inr v => inr (negb (py_in v exclusions))
        end
      else inr false
  end.

(** The comprehension of lines 416-419 for slot [i]. *)
Definition pool_of (i : nat) (w : world H) : exn + list dict :=
  filter_e
    (eligible (nth i VIDEO_TARGETS "") (shuffle_exclusions (config w)))
    (local_animations w ++ downloads (config w)
     ++ custom_animations (config w))%list.

Definition randomize_slot (i : nat) : M H unit :=
  pool ← (fun w => lift (pool_of i w) w);
  if (0 <? length pool)%nat then
    k ← randint 0 (Z.of_nat (length pool) - 1);
    anim ← lift (py_index pool k);
    v ← lift (getitem anim "id");
    assign_slot i v
  else ret tt.

Definition randomize_all : M H unit :=
  for_each (seq 0 3) randomize_slot ;;
  c ← get_config;
  put_config (set_current_set (VStr "") c).

(** *** The operations of [Plugin] *)

(** [try: m  except Exception as e: logger.error(msg, exc_info=e); raise e] *)
Definition logging_errors {A} (msg : string) (m : M H A) : M H A :=
  try_except m (fun e => logger ERROR msg (Some e) ;; raise e).

Definition saveCustomSet (set_entry : dict) : M H unit :=
  logging_errors "Failed to save custom set"
    (set_id ← lift (getitem set_entry "id");
     remove_custom_set set_id ;;
     (c ← get_config;
      put_config (set_custom_sets (custom_sets c ++ [set_entry])%list c)) ;;
     save_config).

Definition removeCustomSet (set_id : pyval) : M H unit :=
  logging_errors "Failed to remove custom set"
    (remove_custom_set set_id ;; save_config).

Definition saveCustomAnimation (anim_entry : dict) : M H unit :=
  logging_errors "Failed to save custom animation"
    (anim_id ← lift (getitem anim_entry "id");
     remove_custom_animation anim_id ;;
     (c ← get_config;
      put_config
        (set_custom_animations (custom_animations c ++ [anim_entry])%list c)) ;;
     save_config).

Definition removeCustomAnimation (anim_id : pyval) : M H unit :=
  logging_errors "Failed to remove custom animation"
    (remove_custom_animation anim_id ;; save_config).

(** [enableSet]: the first loop returns after writing the directory's
    [config.json]; the second loop is reached only when no local set
    has the identifier. *)
Definition enableSet (set_id enable : pyval) : M H unit :=
  logging_errors "Failed to enable set"
    (sets ← (fun w => (Ok (local_sets w), w));
     in_local ← lift (find_by_id sets set_id 0);
     match in_local with
     | Some (k, entry) =>
         let entry := <["enable" := enable]> entry in
         put_local_sets (<[k := entry]> sets) ;;
         entry_id ← lift (getitem entry "id");
         match entry_id with
         | VStr s =>
             call (json_dump
                     (path_join3 (ANIMATIONS_PATH env) s "config.json")
                     (DocDict entry))
         | _ => raise (TypeError "expected str, bytes or os.PathLike object")
         end
     | None =>
         c ← get_config;
         in_custom ← lift (find_by_id (custom_sets c) set_id 0);
         match in_custom with
         | Some (k, entry) =>
             let entry := <["enable" := enable]> entry in
             put_config (set_custom_sets (<[k := entry]> (custom_sets c)) c) ;;
             save_config
         | None => ret tt
         end
     end).

(** [randomize(shuffle)] *)
Definition randomize_op (shuffle : bool) : M H unit :=
  logging_errors "Failed to randomize animations"
    ((if shuffle then randomize_all else randomize_current_set) ;;
     save_config ;;
     apply_animations).
End Plugin.

(** ** The rest of the plugin *)

(** [get_steam_paths], lines 20-63, on what it asks of the machine: the
    platform, [os.path.expanduser], the [SteamPath] value of the registry
    (or the exception the lookup raises), and [os.path.exists] for the
    two usual installation directories. *)
Definition steam_dirs (join : string -> string -> string)
    (steam_root : string) : option string * option string * option string :=
  (Some (join (join (join steam_root "config") "uioverrides") "movies"),
   Some (join (join steam_root "steamui") "movies"),
   Some steam_root).

Definition slash_to_backslash (c : ascii) : ascii :=
  if Ascii.eqb c "/" then "\"%char else c.

Definition get_steam_paths (join : string -> string -> string)
    (system : platform) (expanduser : string -> string)
    (registry : exn + string) (exists_ : string -> bool)
  : option string * option string * option string :=
  match system with
  | Linux => steam_dirs join (expanduser "~/.steam/root")
  | Windows =>
      let steam_root :=
        match registry with
        | inr steam_path => Some (string_map slash_to_backslash steam_path)
        | inl _ =>
            List.find exists_
              ["C:\Program Files (x86)\Steam"; "C:\Program Files\Steam"]
        end in
      match steam_root with
      | Some root =>
          if negb (String.eqb root "") then steam_dirs join root
          else (None, None, None)
      | None => (None, None, None)
      end
  | Darwin =>
      steam_dirs join (expanduser "~/Library/Application Support/Steam")
  end.

(** A JSON object with some of the keys of [config]: what is read from
    the configuration file and what [saveSettings] receives. *)
Record settings : Type := Settings {
  new_boot : option pyval;
  new_suspend : option pyval;
  new_throbber : option pyval;
  new_randomize : option pyval;
  new_current_set : option pyval;
  new_downloads : option (list dict);
  new_custom_animations : option (list dict);
  new_custom_sets : option (list dict);
  new_shuffle_exclusions : option (list pyval);
  new_force_ipv4 : option pyval
}.

(** [config.update(doc)] *)
Definition config_update (doc : settings) (c : cfg) : cfg :=
  {| boot := default (boot c) (new_boot doc);
     suspend := default (suspend c) (new_suspend doc);
     throbber := default (throbber c) (new_throbber doc);
     randomize := default (randomize c) (new_randomize doc);
     current_set := default (current_set c) (new_current_set doc);
     downloads := default (downloads c) (new_downloads doc);
     custom_animations :=
       default (custom_animations c) (new_custom_animations doc);
     custom_sets := default (custom_sets c) (new_custom_sets doc);
     shuffle_exclusions :=
       default (shuffle_exclusions c) (new_shuffle_exclusions doc);
     force_ipv4 := default (force_ipv4 c) (new_force_ipv4 doc) |}.


Definition set_downloads (l : list dict) (c : cfg) : cfg :=
  {| boot := boot c; suspend := suspend c; throbber := throbber c;
     randomize := randomize c; current_set := current_set c;
     downloads := l; custom_animations := custom_animations c;
     custom_sets := custom_sets c;
     shuffle_exclusions := shuffle_exclusions c; force_ipv4 := force_ipv4 c |}.

(** The answer to the request for the file of an animation: the status
    and what [await response.read()] gives; or no answer at all. *)
Inductive file_response : Type :=
  | FileResponse (status : Z) (data : exn + string)
  | FileFailure (e : exn).

(** The library calls of the functions below, beside those of [Host]. *)
Class HostFiles (H : Type) : Type := {
  (** [os.listdir(path)] *)
  os_listdir : string -> H -> exn + list string;
  (** [with open(path) as f: json.load(f)], for the configuration file *)
  json_load_config : string -> H -> exn + settings;
  (** [with open(path, 'wb') as f: f.write(data)] *)
  write_bytes : string -> string -> H -> option exn * H;
  (** one [GET] of a download URL, over IPv4 only when the flag is set *)
  http_get_file : pyval -> bool -> H -> file_response * H
}.

(** [s.endswith(suffix)] *)
Fixpoint endswith (s suffix : string) : bool :=
  if String.eqb s suffix then true
  else match s with
       | EmptyString => false
       | String _ r => endswith r suffix
       end.

(** [s[:-n]] *)
Definition drop_last (n : nat) (s : string) : string :=
  String.substring 0 (String.length s - n) s.

Section PluginRest.
Context {H : Type} `{!Host H} `{!HostFiles H} (env : environment).
Local Open Scope py_scope.

(** [find_cached_animation]; [None] is [None]. *)
Definition find_cached_animation (anim_id : pyval) : M H (option dict) :=
  fun w =>
    match find_by_id (animation_cache w) anim_id 0 with
    | inl e => (Raise e, w)
    | inr r => (Ok (snd <$> r), w)
    end.

(** The body of the loop of [regenerate_downloads], lines 170-178, on
    the [downloads] list under construction. *)
Definition regenerate_file (file : string) (downloads : list dict)
  : M H (list dict) :=
  if negb (endswith file ".webm") then ret downloads
  else
    let anim_id := drop_last 5 file in
    found ← find_cached_animation (VStr anim_id);
    match found with
    | Some anim => ret (downloads ++ [anim])%list
    | None =>
        logger ERROR ("Failed to find cached entry for id: " +:+ anim_id)
          None ;;
        ret downloads
    end.

Fixpoint regenerate_files (files : list string) (downloads : list dict)
  : M H (list dict) :=
  match files with
  | [] => ret downloads
  | file :: r =>
      downloads' ← regenerate_file file downloads;
      regenerate_files r downloads'
  end.

Definition regenerate_downloads : M H unit :=
  cache ← (fun w => (Ok (animation_cache w), w));
  (if (length cache =? 0)%nat then update_cache else ret tt) ;;
  files ← (fun w => lift (os_listdir (DOWNLOADS_PATH env) (host w)) w);
  downloads ← regenerate_files files [];
  c ← get_config;
  put_config (set_downloads downloads c).



(** *** The other operations of [Plugin] *)

Definition updateAnimationCache : M H unit :=
  logging_errors "Failed to update animation cache" update_cache.

Definition getCachedAnimation (anim_id : pyval) : M H (option dict) :=
  logging_errors "Failed to get cached animations"
    (find_cached_animation anim_id).

(** One request for the file of an animation. *)
Definition request_file (url : pyval) : M H file_response :=
  fun w =>
    let '(r, h) :=
      http_get_file url (truthy (force_ipv4 (config w))) (host w) in
    (Ok r, World (config w) (local_animations w) (local_sets w)
                 (animation_cache w) h (logged w)).

Definition downloadAnimation (anim_id : pyval) : M H unit :=
  logging_errors "Failed to download animation"
    (c ← get_config;
     already ← lift (find_by_id (downloads c) anim_id 0);
     match already with
     | Some _ => ret tt
     | None =>
         cached ← find_cached_animation anim_id;
         anim ← match cached with
                | Some anim => ret anim
                | None =>
                    raise_and_log
                      ("Failed to find cached animation with id: "
                       +:+ py_str anim_id) None
                end;
         url ← lift (getitem anim "download_url");
         response ← request_file url;
         data ← match response with
                | FileFailure e => raise e
                | FileResponse status data =>
                    if negb (status =? 200)%Z then
                      raise_and_log
                        ("Invalid download request status: "
                         +:+ str_of_Z status) None
                    else lift data
                end;
         let download_file :=
           path_join (DOWNLOADS_PATH env) (py_str anim_id +:+ ".webm") in
         call (write_bytes download_file data) ;;
         (c ← get_config;
          put_config (set_downloads (downloads c ++ [anim])%list c)) ;;
         save_config env
     end).

Definition deleteAnimation (anim_id : pyval) : M H unit :=
  logging_errors "Failed to delete animation"
    (c ← get_config;
     l ← lift (filter_e (id_differs anim_id) (downloads c));
     put_config (set_downloads l c) ;;
     save_config env ;;
     let anim_file :=
       path_join (DOWNLOADS_PATH env) (py_str anim_id +:+ ".webm") in
     present ← ask (path_exists anim_file);
     if present : bool then call (os_remove anim_file) else ret tt).

Definition saveSettings (doc : settings) : M H unit :=
  logging_errors "Failed to save settings"
    ((c ← get_config; put_config (config_update doc c)) ;;
     save_config env ;;
     apply_animations env).


(** Lines 623-630 of [_main]: the randomization asked for by the
    configuration. *)
Definition startup_randomize : M H unit :=
  logging_errors "Failed to randomize animations"
    (c ← get_config;
     if py_eq (randomize c) (VStr "all") then randomize_all
     else if py_eq (randomize c) (VStr "set") then randomize_current_set
     else ret tt).
End PluginRest.

(** ** A concrete host *)

(** A small machine on which the plugin can be run: a flat table of
    files, links and directories by path, a switch for the privilege to
    create symbolic links, write-protected paths, the answers the
    repository will give and the numbers the random generator will draw. *)
Module Sim.
Inductive content : Type :=
  | Raw (data : string)
  | Json (doc : document).

Inductive node : Type :=
  | File (c : content)
  | Link (target : string)
  | Dir (subdirs : list string).

Record state : Type := State {
  nodes : list (string * node);
  symlinks_allowed : bool;
  read_only : list string;
  answers : list response;
  requests : nat;
  draws : list Z
}.

Definition with_nodes (m : list (string * node)) (s : state) : state :=
  State m (symlinks_allowed s) (read_only s) (answers s) (requests s)
        (draws s).

(** The table: what is at a path, and the table with that path taken out
    or given a node. *)
Fixpoint get (p : string) (m : list (string * node)) : option node :=
  match m with
  | [] => None
  | (q, n) :: r => if String.eqb p q then Some n else get p r
  end.

Definition del (p : string) (m : list (string * node))
  : list (string * node) :=
  List.filter (fun e => negb (String.eqb p (fst e))) m.

Definition put (p : string) (n : node) (m : list (string * node))
  : list (string * node) :=
  (p, n) :: del p m.

(** What is at a path of the machine. *)
Definition at_path (p : string) (s : state) : option node :=
  get p (nodes s).

(** Follow links, at most [fuel] of them. *)
Fixpoint resolve (fuel : nat) (m : list (string * node)) (p : string)
  : option node :=
  match get p m with
  | Some (Link t) =>
      match fuel with
      | O => None
      | S fuel' => resolve fuel' m t
      end
  | r => r
  end.

Definition is_read_only (p : string) (s : state) : bool :=
  existsb (String.eqb p) (read_only s).

Definition starts_with_slash (s : string) : bool :=
  match s with
  | String "/" _ => true
  | _ => false
  end.

Fixpoint ends_with_slash (s : string) : bool :=
  match s with
  | EmptyString => false
  | String c EmptyString => Ascii.eqb c "/"
  | String _ r => ends_with_slash r
  end.

(** [posixpath.join] for two components. *)
Definition join (a b : string) : string :=
  if starts_with_slash b then b
  else if String.eqb a "" || ends_with_slash a then a +:+ b
  else a +:+ "/" +:+ b.

Definition exists_ (p : string) (s : state) : bool :=
  match resolve 40 (nodes s) p with
  | Some _ => true
  | None => false
  end.

Definition islink (p : string) (s : state) : bool :=
  match get p (nodes s) with
  | Some (Link _) => true
  | _ => false
  end.

Definition remove (p : string) (s : state) : option exn * state :=
  if is_read_only p s then (Some (OSError "Permission denied"), s)
  else match get p (nodes s) with
       | None => (Some (OSError "No such file or directory"), s)
       | Some (Dir _) => (Some (OSError "Is a directory"), s)
       | Some _ => (None, with_nodes (del p (nodes s)) s)
       end.

Definition symlink (src dst : string) (s : state) : option exn * state :=
  if negb (symlinks_allowed s) then
    (Some (OSError "Operation not permitted"), s)
  else if is_read_only dst s then (Some (OSError "Permission denied"), s)
  else match get dst (nodes s) with
       | Some _ => (Some (OSError "File exists"), s)
       | None => (None, with_nodes (put dst (Link src) (nodes s)) s)
       end.

Definition copy2 (src dst : string) (s : state) : option exn * state :=
  match resolve 40 (nodes s) src with
  | Some (File c) =>
      if is_read_only dst s then (Some (OSError "Permission denied"), s)
      else
        let dst' := match get dst (nodes s) with
                    | Some (Link t) => t
                    | _ => dst
                    end in
        (None, with_nodes (put dst' (File c) (nodes s)) s)
  | Some _ => (Some (OSError "Is a directory"), s)
  | None => (Some (OSError "No such file or directory"), s)
  end.

Definition walk (root : string) (s : state) : option (list string) :=
  match resolve 40 (nodes s) root with
  | Some (Dir l) => Some l
  | _ => None
  end.

Definition load (p : string) (s : state) : exn + dict :=
  match resolve 40 (nodes s) p with
  | Some (File (Json (DocDict d))) => inr d
  | Some (File (Json (DocConfig _))) =>
      inl (ValueError "not the description of a set")
  | Some (File (Raw _)) => inl (ValueError "Expecting value")
  | Some _ => inl (OSError "Is a directory")
  | None => inl (OSError "No such file or directory")
  end.

Definition dump (p : string) (doc : document) (s : state)
  : option exn * state :=
  if is_read_only p s then (Some (OSError "Permission denied"), s)
  else (None, with_nodes (put p (File (Json doc)) (nodes s)) s).

Definition randint (a b : Z) (s : state) : Z * state :=
  match draws s with
  | [] => (a, s)
  | d :: r =>
      (if (a <=? d)%Z && (d <=? b)%Z then d else a,
       State (nodes s) (symlinks_allowed s) (read_only s) (answers s)
             (requests s) r)
  end.

Definition get_posts (ipv4 : bool) (s : state) : response * state :=
  match answers s with
  | [] =>
      (HttpFailure (OSError "Cannot connect to host"),
       State (nodes s) (symlinks_allowed s) (read_only s) []
             (S (requests s)) (draws s))
  | r :: rest =>
      (r, State (nodes s) (symlinks_allowed s) (read_only s) rest
                (S (requests s)) (draws s))
  end.

Lemma randint_range (a b : Z) (s : state) :
  (a <= b)%Z -> (a <= fst (randint a b s) <= b)%Z.
Proof.
  intros Hab. unfold randint.
  destruct (draws s) as [|d r]; simpl; [lia|].
  destruct (a <=? d)%Z eqn:E1; simpl; [|lia].
  destruct (d <=? b)%Z eqn:E2; simpl; lia.
Qed.

#[global] Instance sim_host : Host state := {|
  path_join := join;
  path_exists := exists_;
  fd_exists := fun z _ => (0 <=? z)%Z && (z <=? 2)%Z;
  path_islink := islink;
  os_remove := remove;
  os_symlink := symlink;
  shutil_copy2 := copy2;
  walk_dirs := walk;
  json_load := load;
  json_dump := dump;
  random_randint := randint;
  random_randint_range := randint_range;
  http_get_posts := get_posts
|}.

(** A SteamOS installation. *)
Definition deck : environment :=
  {| system := Linux;
     OVERRIDE_PATH := Some "/home/deck/.steam/root/config/uioverrides/movies";
     STEAMUI_MOVIES_PATH := Some "/home/deck/.steam/root/steamui/movies";
     CONFIG_PATH := "/home/deck/homebrew/settings/config.json";
     ANIMATIONS_PATH := "/home/deck/homebrew/data/animations";
     DOWNLOADS_PATH := "/home/deck/homebrew/data/downloads" |}.

(** A Windows installation of Steam. *)
Definition pc : environment :=
  {| system := Windows;
     OVERRIDE_PATH := Some "C:\Steam\config\uioverrides\movies";
     STEAMUI_MOVIES_PATH := Some "C:\Steam\steamui\movies";
     CONFIG_PATH := "C:\decky\settings\config.json";
     ANIMATIONS_PATH := "C:\decky\data\animations";
     DOWNLOADS_PATH := "C:\decky\data\downloads" |}.

(** [ntpath.join] for two components, the second one relative and
    without a drive (any other second component is returned as it is). *)
Definition is_separator (c : ascii) : bool :=
  Ascii.eqb c "/" || Ascii.eqb c "\".

Fixpoint ends_with_separator (s : string) : bool :=
  match s with
  | EmptyString => false
  | String c EmptyString => is_separator c
  | String _ r => ends_with_separator r
  end.

Definition is_rooted (s : string) : bool :=
  match s with
  | String c (String ":" _) => true
  | String c _ => is_separator c
  | _ => false
  end.

Definition join_nt (a b : string) : string :=
  if is_rooted b then b
  else if String.eqb a "" || ends_with_separator a then a +:+ b
  else a +:+ "\" +:+ b.

(** The same machine under Windows. *)
Definition nt_host : Host state := {|
  path_join := join_nt;
  path_exists := exists_;
  fd_exists := fun z _ => (0 <=? z)%Z && (z <=? 2)%Z;
  path_islink := islink;
  os_remove := remove;
  os_symlink := symlink;
  shutil_copy2 := copy2;
  walk_dirs := walk;
  json_load := load;
  json_dump := dump;
  random_randint := randint;
  random_randint_range := randint_range;
  http_get_posts := get_posts
|}.

Definition machine (m : list (string * node)) : state :=
  State m true [] [] 0 [].

(** A machine on which symbolic links cannot be created. *)
Definition without_links (m : list (string * node)) : state :=
  State m false [] [] 0 [].

(** A machine that will get the given answers from the repository. *)
Definition answering (l : list response) : state :=
  State [] true [] l 0 [].

(** A member of the JSON object stored at a path. *)
Definition member (p key : string) (s : state) : option pyval :=
  match load p s with
  | inr d => d !! key
  | inl _ => None
  end.

Definition start (c : cfg) (s : state) : world state :=
  World c [] [] [] s [].
End Sim.

(** The other library calls on the concrete host.  The files the
    repository serves are kept in the table under their URL. *)
Module SimFiles.
Fixpoint strip_prefix (prefix s : string) : option string :=
  match prefix, s with
  | EmptyString, _ => Some s
  | String c p, String d r =>
      if Ascii.eqb c d then strip_prefix p r else None
  | String _ _, EmptyString => None
  end.

Fixpoint has_slash (s : string) : bool :=
  match s with
  | EmptyString => false
  | String c r => Ascii.eqb c "/" || has_slash r
  end.

(** The name of an entry of the table, when it lies directly in the
    directory. *)
Definition child_of (dir : string) (e : string * Sim.node) : option string :=
  match strip_prefix (dir +:+ "/") (fst e) with
  | Some name =>
      if String.eqb name "" || has_slash name then None else Some name
  | None => None
  end.

Definition listdir (dir : string) (s : Sim.state) : exn + list string :=
  match Sim.resolve 40 (Sim.nodes s) dir with
  | Some (Sim.Dir _) => inr (omap (child_of dir) (Sim.nodes s))
  | Some _ => inl (OSError "Not a directory")
  | None => inl (OSError "No such file or directory")
  end.

Definition whole (c : cfg) : settings :=
  {| new_boot := Some (boot c); new_suspend := Some (suspend c);
     new_throbber := Some (throbber c); new_randomize := Some (randomize c);
     new_current_set := Some (current_set c);
     new_downloads := Some (downloads c);
     new_custom_animations := Some (custom_animations c);
     new_custom_sets := Some (custom_sets c);
     new_shuffle_exclusions := Some (shuffle_exclusions c);
     new_force_ipv4 := Some (force_ipv4 c) |}.

Definition load_config_file (p : string) (s : Sim.state) : exn + settings :=
  match Sim.resolve 40 (Sim.nodes s) p with
  | Some (Sim.File (Sim.Json (DocConfig c))) => inr (whole c)
  | Some (Sim.File _) => inl (ValueError "Expecting value")
  | Some _ => inl (OSError "Is a directory")
  | None => inl (OSError "No such file or directory")
  end.

Definition write (p data : string) (s : Sim.state) : option exn * Sim.state :=
  if Sim.is_read_only p s then (Some (OSError "Permission denied"), s)
  else (None,
        Sim.with_nodes (Sim.put p (Sim.File (Sim.Raw data)) (Sim.nodes s)) s).

Definition get_file (url : pyval) (ipv4 : bool) (s : Sim.state)
  : file_response * Sim.state :=
  let s' :=
    Sim.State (Sim.nodes s) (Sim.symlinks_allowed s) (Sim.read_only s)
      (Sim.answers s) (S (Sim.requests s)) (Sim.draws s) in
  match url with
  | VStr u =>
      match Sim.get u (Sim.nodes s) with
      | Some (Sim.File (Sim.Raw data)) => (FileResponse 200 (inr data), s')
      | _ => (FileResponse 404 (inr "Not Found"), s')
      end
  | _ => (FileFailure (TypeError "Constructor parameter should be str"), s')
  end.

#[global] Instance sim_files : HostFiles Sim.state := {|
  os_listdir := listdir;
  json_load_config := load_config_file;
  write_bytes := write;
  http_get_file := get_file
|}.
End SimFiles.

(** ** Observations used in the statements *)

Section Observations.
Context {H : Type} `{!Host H}.

(** The machine after the first [n] requests to the repository. *)
Fixpoint host_after (n : nat) (ipv4 : bool) (h : H) : H :=
  match n with
  | O => h
  | S n' => host_after n' ipv4 (snd (http_get_posts ipv4 h))
  end.

(** The answer to request number [n], counted from [0]. *)
Definition answer (n : nat) (ipv4 : bool) (h : H) : response :=
  fst (http_get_posts ipv4 (host_after n ipv4 h)).

(** An answer after which the loop goes round again: a status that is
    neither 200 nor 429. *)
Definition retried (r : response) (st : Z) : Prop :=
  exists body, r = HttpResponse st body /\ st <> 200%Z /\ st <> 429%Z.

Definition uses_ipv4 (w : world H) : bool := truthy (force_ipv4 (config w)).

(** The world with another machine. *)
Definition with_host (h : H) (w : world H) : world H :=
  World (config w) (local_animations w) (local_sets w) (animation_cache w)
        h (logged w).

(** The world with another configuration. *)
Definition with_config (c : cfg) (w : world H) : world H :=
  World c (local_animations w) (local_sets w) (animation_cache w)
        (host w) (logged w).

(** The record carries the identifier. *)
Definition has_id (v : pyval) (entry : dict) : bool :=
  match entry !! "id" with
  | Some x => py_eq x v
  | None => false
  end.

(** The first record of a pool that carries the identifier. *)
Definition first_with_id (l : list dict) (v : pyval) : option dict :=
  List.find (has_id v) l.

(** The number of records of a pool that carry the identifier. *)
Definition count_id (v : pyval) (l : list dict) : nat :=
  length (List.filter (has_id v) l).

(** The pool has a record for the identifier. *)
Definition contains (l : list dict) (v : pyval) : Prop :=
  is_Some (first_with_id l v).

(** Every record of the pool has the member [key]. *)
Definition all_have (key : string) (l : list dict) : Prop :=
  Forall (fun entry : dict => is_Some (entry !! key)) l.

(** The world with one more record in the log. *)
Definition with_log (r : log_record) (w : world H) : world H :=
  World (config w) (local_animations w) (local_sets w) (animation_cache w)
        (host w) (logged w ++ [r])%list.
End Observations.

(** ** Predicates of the statements *)

Section Statements.
Context {H : Type} `{!Host H} (env : environment).

(** [try: m  except Exception: pass], the isolation of one slot that the
    claim C1 speaks of. *)
Definition attempt (m : M H unit) : M H unit :=
  try_except m (fun _ => ret tt).

(** C1 as stated: when slot [i] is reached and its activation raises, the
    slots after it are attempted all the same, so that the machine ends in
    the state those attempts leave. *)
Definition slots_fault_isolated (w : world H) : Prop :=
  forall (i : nat) (w_i w' : world H) (e : exn),
    (i < 3)%nat ->
    for_each (seq 0 i) (apply_slot env) w = (Ok tt, w_i) ->
    apply_slot env i w_i = (Raise e, w') ->
    host (snd (apply_animations env w))
    = host (snd (for_each (seq (S i) (2 - i))
                   (fun j => attempt (apply_slot env j)) w')).

(** The exception of line 358. *)
Definition NotFoundError (anim_id : pyval) : exn :=
  Exception ("Failed to find animation for: " +:+ py_str anim_id).

(** The test of line 300: the slot is skipped on this platform. *)
Definition skipped (video : string) : bool :=
  match find_video_type (VIDEOS_NAMES env) VIDEO_TYPES video with
  | Some t =>
      negb (String.eqb t "") && negb (is_video_supported (system env) t)
  | None => false
  end.

(** The activation of [anim_id] for [video], started in [w], gets as far
    as line 360: the slot is supported, the target path is [target_path],
    what was there has been dealt with, the identifier is not empty and
    resolves to [path], and the world is then [w']. *)
Definition reaches_link (video : string) (anim_id : pyval) (w : world H)
    (target_path : string) (use_steamui : bool) (path : pyval)
    (w' : world H) : Prop :=
  skipped video = false
  /\ py_eq anim_id (VStr "") = false
  /\ exists w1 w2,
      select_target env video w = (Ok (target_path, use_steamui), w1)
      /\ remove_existing target_path w1 = (Ok tt, w2)
      /\ resolve env anim_id w2 = (Ok path, w').

(** C6 as stated: whenever the link cannot be created the source is
    copied, and the activation fails only when the copy does. *)
Definition copies_when_link_denied (video : string) (anim_id : pyval)
    (w : world H) : Prop :=
  forall target_path use_steamui src w' e h',
    reaches_link video anim_id w target_path use_steamui (VStr src) w' ->
    os_symlink src target_path (host w') = (Some e, h') ->
    is_OSError_or_NotImplementedError e = true ->
    let run := apply_animation env video anim_id w in
    match shutil_copy2 src target_path h' with
    | (None, h'') => fst run = Ok tt /\ host (snd run) = h''
    | (Some copy_error, h'') =>
        fst run = Raise copy_error /\ host (snd run) = h''
    end.

(** C5 as stated: a directory whose [config.json] does not parse is
    scanned by its default file names, so that it gives a set as soon as
    one of the three default files is there. *)
Definition falls_back_to_defaults (w : world H) : Prop :=
  forall (directories : list string) (directory : string) (e : exn),
    walk_dirs (ANIMATIONS_PATH env) (host w) = Some directories ->
    directory ∈ directories ->
    path_exists (path_join3 (ANIMATIONS_PATH env) directory "config.json")
                (host w) = true ->
    json_load (path_join3 (ANIMATIONS_PATH env) directory "config.json")
              (host w) = inl e ->
    has_default_video env directory (host w) = true ->
    exists local_set,
      local_set ∈ local_sets (snd (load_local_animations env w))
      /\ local_set !! "id" = Some (VStr directory).

(** An entry that the comprehension of [randomize_all] keeps. *)
Definition eligible_entry (i : nat) (w : world H) (anim : dict) (v : pyval)
  : Prop :=
  anim ∈ (local_animations w ++ downloads (config w)
          ++ custom_animations (config w))%list
  /\ anim !! "id" = Some v
  /\ (exists t, anim !! "target" = Some t
                /\ py_eq t (VStr (nth i VIDEO_TARGETS "")) = true)
  /\ py_in v (shuffle_exclusions (config w)) = false.

(** The lists the pools are built from are the same in both worlds. *)
Definition same_pools (w w' : world H) : Prop :=
  local_animations w' = local_animations w
  /\ downloads (config w') = downloads (config w)
  /\ custom_animations (config w') = custom_animations (config w)
  /\ shuffle_exclusions (config w') = shuffle_exclusions (config w).

(** Slot [i] of [w'] is what it was in [w], or the identifier of an entry
    that is eligible for the slot. *)
Definition slot_from_pool (w : world H) (i : nat) (w' : world H) : Prop :=
  get_slot i (config w') = get_slot i (config w)
  \/ exists anim, eligible_entry i w anim (get_slot i (config w')).

(** C3 as stated: a slot whose pool is empty is cleared. *)
Definition clears_slot_with_empty_pool (w : world H) : Prop :=
  forall i, (i < 3)%nat -> pool_of i w = inr [] ->
            get_slot i (config (snd (randomize_all w))) = VStr "".

(** C2 as stated: without an enabled set, [randomize_current_set] leaves
    the three slots and [current_set] as they were. *)
Definition keeps_selection_without_enabled_set (w : world H) : Prop :=
  get_active_sets w = (Ok [], w) ->
  let c' := config (snd (randomize_current_set w)) in
  boot c' = boot (config w) /\ suspend c' = suspend (config w)
  /\ throbber c' = throbber (config w)
  /\ current_set c' = current_set (config w).

(** The value a slot takes from the file name the chosen set has for it. *)
Definition slot_value (set_id filename : pyval) : pyval :=
  if truthy filename then VStr (py_str set_id +:+ "/" +:+ py_str filename)
  else VStr "".

(** Two records agree on the members [get_active_sets] and the
    randomizer read. *)
Definition same_flags (a b : dict) : Prop :=
  a !! "enabled" = b !! "enabled" /\ a !! "id" = b !! "id".
End Statements.

(** ** Worlds on the concrete host *)

Definition webm : Sim.node := Sim.File (Sim.Raw "webm").

(** A downloaded or custom record, with the members the code reads. *)
Definition record (id target : string) : dict :=
  <["id" := VStr id]> (<["target" := VStr target]> ∅).

Definition custom_record (id target path : string) : dict :=
  <["path" := VStr path]> (record id target).

(** A set, as [load_local_animations] builds it. *)
Definition set_record (id : string) (enabled : bool)
    (boot_file suspend_file throbber_file : string) : dict :=
  <["throbber" := VStr throbber_file]>
  (<["suspend" := VStr suspend_file]>
  (<["boot" := VStr boot_file]>
  (<["enabled" := VBool enabled]>
  (<["id" := VStr id]> ∅)))).

Definition selection (boot suspend throbber current_set : string)
    (c : cfg) : cfg :=
  {| boot := VStr boot; suspend := VStr suspend; throbber := VStr throbber;
     randomize := randomize c; current_set := VStr current_set;
     downloads := downloads c; custom_animations := custom_animations c;
     custom_sets := custom_sets c;
     shuffle_exclusions := shuffle_exclusions c; force_ipv4 := force_ipv4 c |}.

Definition with_downloads (l : list dict) (c : cfg) : cfg :=
  {| boot := boot c; suspend := suspend c; throbber := throbber c;
     randomize := randomize c; current_set := current_set c;
     downloads := l; custom_animations := custom_animations c;
     custom_sets := custom_sets c;
     shuffle_exclusions := shuffle_exclusions c; force_ipv4 := force_ipv4 c |}.

(** The members of the records of a list that the statements below look
    at. *)
Definition ids (l : list dict) : list (option pyval) :=
  (fun d : dict => d !! "id") <$> l.

Definition flags (l : list dict)
  : list (option pyval * option pyval * option pyval) :=
  (fun d : dict => (d !! "id", d !! "enabled", d !! "enable")) <$> l.

Definition files_of (l : list dict)
  : list (option pyval * option pyval * option pyval * option pyval) :=
  (fun d : dict => (d !! "id", d !! "boot", d !! "suspend", d !! "throbber"))
    <$> l.

Definition suspend_target : string :=
  "/home/deck/.steam/root/config/uioverrides/movies/steam_os_suspend.webm".

Definition boot_target : string :=
  "/home/deck/.steam/root/config/uioverrides/movies/deck_startup.webm".

Definition good_file : string :=
  "/home/deck/homebrew/data/downloads/good.webm".

(** The boot slot names an animation that is in no pool; the suspend
    slot names a download whose file is there. *)
Definition stale_boot : world Sim.state :=
  Sim.start
    (selection "missing" "good" "" ""
       (with_downloads [record "good" "suspend"] default_config))
    (Sim.machine [(good_file, webm)]).

(** The boot slot names a download whose file is there, on a machine
    that does not let the plugin create symbolic links. *)
Definition no_link_privilege : world Sim.state :=
  Sim.start
    (selection "good" "" "" ""
       (with_downloads [record "good" "boot"] default_config))
    (Sim.without_links [(good_file, webm)]).

Definition pc_boot_target : string :=
  "C:\Steam\steamui\movies\bigpicture_startup.webm".

Definition pc_good_file : string := "C:\decky\data\downloads\good.webm".

(** The same selection under Windows, without the privilege to create
    links; the vendor's boot video is in place. *)
Definition pc_no_link_privilege : world Sim.state :=
  Sim.start
    (selection "good" "" "" ""
       (with_downloads [record "good" "boot"] default_config))
    (Sim.without_links
       [(pc_good_file, webm); (pc_boot_target, Sim.File (Sim.Raw "vendor"))]).

(** The world of [pc_no_link_privilege] when line 360 is reached. *)
Definition pc_target_selected : world Sim.state :=
  snd (@select_target _ Sim.nt_host Sim.pc "bigpicture_startup.webm"
         pc_no_link_privilege).

Definition pc_target_removed : world Sim.state :=
  snd (@remove_existing _ Sim.nt_host pc_boot_target pc_target_selected).

Definition pc_before_link : world Sim.state :=
  snd (@resolve _ Sim.nt_host Sim.pc (VStr "good") pc_target_removed).

(** An identifier that is both a download and a custom record. *)
Definition in_two_pools : world Sim.state :=
  Sim.start
    {| boot := VStr "good"; suspend := VStr ""; throbber := VStr "";
       randomize := VStr ""; current_set := VStr "";
       downloads := [record "other" "boot"; record "good" "boot"];
       custom_animations :=
         [custom_record "good" "boot" "/home/deck/Videos/mine.webm"];
       custom_sets := []; shuffle_exclusions := [];
       force_ipv4 := VBool false |}
    (Sim.machine
       [(good_file, webm); ("/home/deck/Videos/mine.webm", webm)]).

Definition animations_dir : string := "/home/deck/homebrew/data/animations".

(** Two directories with the default boot video; the first one also has
    a [config.json] that is not JSON. *)
Definition broken_config : world Sim.state :=
  Sim.start default_config
    (Sim.machine
       [(animations_dir, Sim.Dir ["broken"; "plain"]);
        (animations_dir +:+ "/broken/config.json",
         Sim.File (Sim.Raw "{enabled: "));
        (animations_dir +:+ "/broken/deck_startup.webm", webm);
        (animations_dir +:+ "/plain/deck_startup.webm", webm)]).

(** A selection is in place and no set is enabled. *)
Definition nothing_enabled : world Sim.state :=
  World (selection "old/deck_startup.webm" "old/steam_os_suspend.webm" ""
           "old" default_config)
    [] [set_record "old" false "deck_startup.webm" "steam_os_suspend.webm" ""]
    [] (Sim.machine []) [].

(** Two local sets, the second one disabled, and an enabled custom set
    without a throbber file. *)
Definition three_sets : world Sim.state :=
  World
    {| boot := VStr ""; suspend := VStr ""; throbber := VStr "";
       randomize := VStr "set"; current_set := VStr "";
       downloads := []; custom_animations := [];
       custom_sets := [set_record "mine" true "a.webm" "b.webm" ""];
       shuffle_exclusions := []; force_ipv4 := VBool false |}
    []
    [set_record "neon" true "deck_startup.webm" "" "";
     set_record "retro" false "deck_startup.webm" "" ""]
    [] (Sim.State [] true [] [] 0 [1%Z]) [].

(** The boot slot holds a selection; the only entry targets the suspend
    slots. *)
Definition no_boot_entries : world Sim.state :=
  World
    (selection "kept" "" "" ""
       (with_downloads [record "wave" "suspend"] default_config))
    [] [] [] (Sim.machine []) [].

(** Entries of all three kinds, one of them excluded from shuffling. *)
Definition mixed_pools : world Sim.state :=
  World
    {| boot := VStr ""; suspend := VStr ""; throbber := VStr "";
       randomize := VStr "all"; current_set := VStr "neon";
       downloads := [record "wave" "suspend"; record "loud" "boot"];
       custom_animations := [custom_record "mine" "boot" "/tmp/mine.webm"];
       custom_sets := [];
       shuffle_exclusions := [VStr "loud"]; force_ipv4 := VBool false |}
    [record "neon/deck_startup.webm" "boot"] [] []
    (Sim.State [] true [] [] 0 [1%Z; 0%Z; 0%Z]) [].

Definition neon : dict := set_record "neon" true "deck_startup.webm" "" "".

(** One local set, enabled, with its video on disk. *)
Definition one_enabled_set : world Sim.state :=
  World default_config
    [ <["id" := VStr "neon/deck_startup.webm"]>
      (<["name" := VStr "neon"]> (<["target" := VStr "boot"]> ∅)) ]
    [neon] []
    (Sim.machine
       [(animations_dir, Sim.Dir ["neon"]);
        (animations_dir +:+ "/neon/deck_startup.webm", webm)])
    [].

(** An answer of which only the status counts. *)
Definition status_only (st : Z) : response :=
  HttpResponse st (inl (ValueError "Expecting value")).

Definition a_post (id type : string) : post :=
  {| post_id := VStr id; post_title := VStr "title";
     post_thumbnail := VStr "thumbnail"; post_video := VStr "video";
     post_steam_name := VStr "author"; post_content := VStr "";
     post_updated_at := VStr "2023-01-01"; post_url := VStr "url";
     post_likes := VInt 3; post_downloads := VInt 7;
     post_type := VStr type |}.

Definition asking (l : list response) : world Sim.state :=
  Sim.start default_config (Sim.answering l).

(** A store in which the identifier already occurs twice. *)
Definition doubled : world Sim.state :=
  Sim.start
    {| boot := VStr ""; suspend := VStr ""; throbber := VStr "";
       randomize := VStr ""; current_set := VStr "";
       downloads := [];
       custom_animations :=
         [custom_record "a" "boot" "/tmp/1.webm";
          custom_record "b" "boot" "/tmp/2.webm";
          custom_record "a" "suspend" "/tmp/3.webm"];
       custom_sets :=
         [set_record "s" true "1" "" ""; set_record "t" true "2" "" "";
          set_record "s" false "3" "" ""];
       shuffle_exclusions := []; force_ipv4 := VBool false |}
    (Sim.machine []).

(** ** Predicates of the further properties *)





(** The last record of the log. *)
Definition last_logged {H} (w : world H) : option log_record :=
  last (logged w).

(** Everything but the machine and the log is the same in both worlds. *)
Definition same_globals {H} (w w' : world H) : Prop :=
  config w' = config w
  /\ local_animations w' = local_animations w
  /\ local_sets w' = local_sets w
  /\ animation_cache w' = animation_cache w.

Section ScanPredicates.
Context {H : Type} `{!Host H} (env : environment).

(** The file name [process_animation] settles on for slot [i] of a
    directory: the one its [config.json] gives, else the default name
    when that file exists, else the empty string. *)
Definition slot_file (directory : string) (anim_config : dict) (h : H)
    (i : nat) : pyval :=
  match anim_config !! nth i VIDEO_TYPES "" with
  | Some v => v
  | None =>
      if path_exists
           (path_join3 (ANIMATIONS_PATH env) directory
              (nth i (VIDEOS_NAMES env) "")) h
      then VStr (nth i (VIDEOS_NAMES env) "") else VStr ""
  end.

(** The test of line 268. *)
Definition emitted (filename : pyval) : bool :=
  negb (py_eq filename (VStr "")) && negb (bool_decide (filename = VNone)).

(** The entry of lines 269-273. *)
Definition slot_entry (directory : string) (i : nat) (filename : pyval)
  : dict :=
  <["id" := VStr (directory +:+ "/" +:+ py_str filename)]>
  (<["name" :=
       VStr (if String.eqb (nth i VIDEO_TYPES "") "boot" then directory
             else directory +:+ " - " +:+ capitalize (nth i VIDEO_TYPES ""))]>
  (<["target" := VStr (nth i VIDEO_TARGETS "")]> ∅)).

Definition slot_entries (directory : string) (anim_config : dict) (h : H)
    (i : nat) : list dict :=
  if emitted (slot_file directory anim_config h i)
  then [slot_entry directory i (slot_file directory anim_config h i)]
  else [].

(** The set and the entries a directory gives once it counts as a set. *)
Definition scanned_set (directory : string) (anim_config : dict) (h : H)
  : dict :=
  <["throbber" := slot_file directory anim_config h 2]>
  (<["suspend" := slot_file directory anim_config h 1]>
  (<["boot" := slot_file directory anim_config h 0]>
  (<["enabled" := default (VBool true) (anim_config !! "enabled")]>
  (<["id" := VStr directory]> ∅)))).

Definition scanned_entries (directory : string) (anim_config : dict) (h : H)
  : list dict :=
  (slot_entries directory anim_config h 0
   ++ slot_entries directory anim_config h 1
   ++ slot_entries directory anim_config h 2)%list.

(** Whether a directory counts as a set, and with which [anim_config]:
    its [config.json] when there is one and it parses, the empty
    dictionary when there is none and one of the default files exists. *)
Definition set_directory (directory : string) (h : H) : option dict :=
  let config_path :=
    path_join3 (ANIMATIONS_PATH env) directory "config.json" in
  if path_exists config_path h then
    match json_load config_path h with
    | inr d => Some d
    | inl _ => None
    end
  else if has_default_video env directory h then Some ∅ else None.

(** The entries and the sets of a list of directories. *)
Fixpoint scanned (directories : list string) (h : H)
  : list dict * list dict :=
  match directories with
  | [] => ([], [])
  | directory :: r =>
      let '(animations, sets) := scanned r h in
      match set_directory directory h with
      | Some anim_config =>
          ((scanned_entries directory anim_config h ++ animations)%list,
           scanned_set directory anim_config h :: sets)
      | None => (animations, sets)
      end
  end.


(** A set has the members the randomizer reads. *)
Definition complete_set (s : dict) : Prop :=
  is_Some (s !! "id") /\ is_Some (s !! "enabled") /\ is_Some (s !! "boot")
  /\ is_Some (s !! "suspend") /\ is_Some (s !! "throbber").
End ScanPredicates.

(** The cache record of a file of the download directory: the record
    whose [id] is the name without its last five characters, for a name
    that ends in [.webm]. *)
Definition cached_file (cache : list dict) (file : string) : option dict :=
  if endswith file ".webm"
  then first_with_id cache (VStr (drop_last 5 file))
  else None.

(** Two configurations agree on everything but the downloads. *)
Definition same_but_downloads (c c' : cfg) : Prop :=
  set_downloads [] c' = set_downloads [] c.



(** Whether a computation of a list gave a list. *)
Definition no_error {A} (r : exn + A) : bool :=
  match r with
  | inr _ => true
  | inl _ => false
  end.

(** A computation that changes nothing but the machine and the log,
    whatever its outcome. *)
Definition keeps_globals {H A} (m : M H A) : Prop :=
  forall w : world H, same_globals w (snd (m w)).

(** ** Worlds of the further properties *)

Definition download_url (id : string) : string :=
  "https://steamdeckrepo.com/post/download/" +:+ id.

(** A record of the cache, with the members the code reads. *)
Definition cached_record (id target : string) : dict :=
  <["download_url" := VStr (download_url id)]> (record id target).

Definition downloads_dir : string := "/home/deck/homebrew/data/downloads".

Definition wave_file : string := downloads_dir +:+ "/wave.webm".

(** The cache knows [wave], and the repository serves its file. *)
Definition wave_served : world Sim.state :=
  World default_config [] [] [cached_record "wave" "boot"]
    (Sim.machine [(download_url "wave", Sim.File (Sim.Raw "bytes"))]) [].

(** The cache knows [wave], and the repository has no file for it. *)
Definition wave_gone : world Sim.state :=
  World default_config [] [] [cached_record "wave" "boot"]
    (Sim.machine []) [].

(** The download directory holds the file of a cached animation, a file
    that is no video and the file of an animation the cache does not
    know. *)
Definition leftover_files : world Sim.state :=
  World default_config [] []
    [cached_record "wave" "boot"; cached_record "loud" "suspend"]
    (Sim.machine
       [(downloads_dir, Sim.Dir []);
        (wave_file, webm);
        (downloads_dir +:+ "/notes.txt", Sim.File (Sim.Raw "notes"));
        (downloads_dir +:+ "/ghost.webm", webm)])
    [].

Definition styled_config : dict := <["boot" := VStr "intro.webm"]> ∅.

(** A directory whose [config.json] names a boot video that is not
    there. *)
Definition styled : world Sim.state :=
  Sim.start default_config
    (Sim.machine
       [(animations_dir, Sim.Dir ["styled"]);
        (animations_dir +:+ "/styled/config.json",
         Sim.File (Sim.Json (DocDict styled_config)))]).

(** The configuration file cannot be written. *)
Definition config_protected : world Sim.state :=
  Sim.start default_config
    (Sim.State [] true [CONFIG_PATH Sim.deck] [] 0 []).

(** A local set that was not built by a scan and has no member
    [enabled]. *)
Definition bare_set : world Sim.state :=
  World default_config [] [record "bare" "boot"] [] (Sim.machine []) [].

(** Windows, with no Steam installation found. *)
Definition stranded : environment :=
  {| system := Windows;
     OVERRIDE_PATH := None;
     STEAMUI_MOVIES_PATH := None;
     CONFIG_PATH := "C:\decky\settings\config.json";
     ANIMATIONS_PATH := "C:\decky\data\animations";
     DOWNLOADS_PATH := "C:\decky\data\downloads" |}.

(** ** Properties *)

Section CatalogRefresh.
Context {H : Type} `{!Host H}.

Lemma request_eq (w : world H) :
  request w
  = (Ok (answer 0 (uses_ipv4 w) (host w)),
     with_host (host_after 1 (uses_ipv4 w) (host w)) w).
Proof.
  unfold request, answer, uses_ipv4, with_host. simpl.
  destruct (http_get_posts _ _) as [r h]. reflexivity.
Qed.

Lemma answer_S (n : nat) (ipv4 : bool) (h : H) :
  answer (S n) ipv4 h = answer n ipv4 (snd (http_get_posts ipv4 h)).
Proof. reflexivity. Qed.

(** Answers that are retried are consumed one by one; the loop then goes
    on with the remaining attempts. *)
Lemma fetch_loop_retried (n : nat) :
  forall (fuel : nat) (status : option Z) (w : world H),
    (forall k, (k < n)%nat ->
               exists st, retried (answer k (uses_ipv4 w) (host w)) st) ->
    exists (w' : world H) (status' : option Z),
      fetch_loop (n + fuel) status w = fetch_loop fuel status' w'
      /\ host w' = host_after n (uses_ipv4 w) (host w)
      /\ config w' = config w
      /\ match n with
         | O => status' = status
         | S m => exists st, retried (answer m (uses_ipv4 w) (host w)) st
                             /\ status' = Some st
         end.
Proof.
  induction n as [|n IH]; intros fuel status w Hre.
  - exists w, status. simpl. auto.
  - destruct (Hre O ltac:(lia)) as (st & body & Ha & H200 & H429).
    cbn [Nat.add fetch_loop]. unfold bind at 1. rewrite request_eq, Ha.
    apply Z.eqb_neq in H200, H429. rewrite H200, H429.
    set (w1 := with_host _ w).
    unfold bind at 1, logger at 1.
    set (w2 := World _ _ _ _ _ _).
    assert (Hc : config w2 = config w) by reflexivity.
    assert (Hu : uses_ipv4 w2 = uses_ipv4 w) by reflexivity.
    assert (Hh : host w2 = snd (http_get_posts (uses_ipv4 w) (host w)))
      by reflexivity.
    destruct (IH fuel (Some st) w2) as (w' & status' & Heq & Hhost & Hcfg & Hst).
    { intros k Hk. rewrite Hu, Hh, <- answer_S. apply Hre. lia. }
    exists w', status'. split; [exact Heq|].
    split; [rewrite Hhost, Hu, Hh; reflexivity|].
    split; [congruence|].
    destruct n as [|m].
    + exists st. split; [|exact Hst].
      exists body. apply Z.eqb_neq in H200, H429. auto.
    + destruct Hst as (st' & Hr & ->). exists st'. split; [|reflexivity].
      rewrite Hu, Hh, <- answer_S in Hr. exact Hr.
Qed.

(** The loop never asks more often than it has attempts. *)
Lemma fetch_loop_bound (fuel : nat) :
  forall (status : option Z) (w : world H),
    exists n, (n <= fuel)%nat
      /\ host (snd (fetch_loop fuel status w))
         = host_after n (uses_ipv4 w) (host w).
Proof.
  induction fuel as [|fuel IH]; intros status w.
  - exists O. split; [lia|]. simpl. destruct status; reflexivity.
  - cbn [fetch_loop]. unfold bind at 1. rewrite request_eq.
    destruct (answer 0 (uses_ipv4 w) (host w)) as [st body|e].
    + destruct (st =? 200)%Z.
      { exists 1%nat. split; [lia|]. destruct body; reflexivity. }
      destruct (st =? 429)%Z.
      { exists 1%nat. split; [lia|]. reflexivity. }
      unfold bind at 1, logger at 1.
      set (w2 := World _ _ _ _ _ _).
      destruct (IH (Some st) w2) as (n & Hn & Hh).
      exists (S n). split; [lia|]. rewrite Hh. reflexivity.
    + exists 1%nat. split; [lia|]. reflexivity.
Qed.
Lemma get_steamdeckrepo_host (w : world H) :
  host (snd (get_steamdeckrepo w))
  = host (snd (fetch_loop REQUEST_RETRIES None w)).
Proof.
  unfold get_steamdeckrepo, try_except, bind.
  destruct (fetch_loop REQUEST_RETRIES None w) as [[data|e] w']; simpl.
  - destruct (translate_posts data); reflexivity.
  - reflexivity.
Qed.

Lemma get_steamdeckrepo_result (w : world H) :
  fst (get_steamdeckrepo w)
  = match fst (fetch_loop REQUEST_RETRIES None w) with
    | Ok data =>
        match translate_posts data with
        | inr l => Ok l
        | inl e => Raise e
        end
    | Raise e => Raise e
    end.
Proof.
  unfold get_steamdeckrepo, try_except, bind.
  destruct (fetch_loop REQUEST_RETRIES None w) as [[data|e] w']; simpl.
  - destruct (translate_posts data); reflexivity.
  - reflexivity.
Qed.

(** C7. A catalog refresh asks the repository at most five times.  After
    any number of retried answers (fewer than five), an answer 200 ends
    the refresh with the translated entries and an answer 429 ends it
    with the rate-limit exception, in both cases without a further
    request; five retried answers in a row end it with the exception
    that carries the status of the last one. *)
Theorem catalog_refresh_attempts (w : world H) :
  let ipv4 := uses_ipv4 w in
  let run := get_steamdeckrepo w in
  (exists n, (n <= 5)%nat /\ host (snd run) = host_after n ipv4 (host w))
  /\ (forall n, (n < 5)%nat ->
        (forall k, (k < n)%nat ->
                   exists st, retried (answer k ipv4 (host w)) st) ->
        (forall data,
            answer n ipv4 (host w) = HttpResponse 200 (inr data) ->
            fst run = match translate_posts data with
                      | inr entries => Ok entries
                      | inl e => Raise e
                      end
            /\ host (snd run) = host_after (S n) ipv4 (host w))
        /\ (forall body,
               answer n ipv4 (host w) = HttpResponse 429 body ->
               fst run
               = Raise (Exception "Rate limit exceeded, try again in a minute")
               /\ host (snd run) = host_after (S n) ipv4 (host w)))
  /\ (forall st,
        (forall k, (k < 4)%nat ->
                   exists st', retried (answer k ipv4 (host w)) st') ->
        retried (answer 4 ipv4 (host w)) st ->
        fst run
        = Raise (Exception ("Retry attempts exceeded, status code: "
                            +:+ str_of_Z st))
        /\ host (snd run) = host_after 5 ipv4 (host w)).
Proof.
  intros ipv4 run. subst run.
  rewrite get_steamdeckrepo_host, get_steamdeckrepo_result.
  split; [apply fetch_loop_bound|]. split.
  - intros n Hn Hre.
    destruct (fetch_loop_retried n (5 - n) None w Hre)
      as (w' & status' & Heq & Hhost & Hcfg & _).
    replace (n + (5 - n))%nat with REQUEST_RETRIES in Heq
      by (unfold REQUEST_RETRIES; lia).
    rewrite Heq.
    destruct (5 - n)%nat as [|fuel] eqn:Hfuel; [lia|].
    assert (Hu : uses_ipv4 w' = ipv4) by (unfold uses_ipv4; rewrite Hcfg; reflexivity).
    assert (Ha : answer 0 (uses_ipv4 w') (host w') = answer n ipv4 (host w)).
    { rewrite Hu, Hhost. unfold answer. reflexivity. }
    assert (Hs : host_after 1 (uses_ipv4 w') (host w')
                 = host_after (S n) ipv4 (host w)).
    { rewrite Hu, Hhost. clear. generalize (host w).
      induction n as [|n IH]; intros h; [reflexivity|]. simpl. apply IH. }
    split.
    + intros data Hans. cbn [fetch_loop]. unfold bind at 1 3.
      rewrite request_eq, Ha, Hans. simpl.
      split; [reflexivity | exact Hs].
    + intros body Hans. cbn [fetch_loop]. unfold bind at 1 3.
      rewrite request_eq, Ha, Hans. simpl.
      split; [reflexivity | exact Hs].
  - intros st Hre (body & Hans & H200 & H429).
    destruct (fetch_loop_retried 5 0 None w) as (w' & status' & Heq & Hhost & _ & Hst).
    { intros k Hk. destruct (decide (k = 4)) as [->|Hne].
      - exists st, body. auto.
      - apply Hre. lia. }
    change (5 + 0)%nat with REQUEST_RETRIES in Heq. rewrite Heq.
    destruct Hst as (st' & (body' & Hans' & _) & ->).
    fold ipv4 in Hans'. rewrite Hans in Hans'. injection Hans' as <- _.
    simpl. auto.
Qed.
End CatalogRefresh.

Section Activation.
Context {H : Type} `{!Host H} (env : environment).

Lemma for_each_app {A} (l1 l2 : list A) (body : A -> M H unit) (w : world H) :
  for_each (l1 ++ l2)%list body w
  = match for_each l1 body w with
    | (Ok _, w') => for_each l2 body w'
    | (Raise e, w') => (Raise e, w')
    end.
Proof.
  revert w. induction l1 as [|x l1 IH]; intros w; simpl.
  - reflexivity.
  - unfold bind. destruct (body x w) as [[[]|e] w1]; [apply IH | reflexivity].
Qed.

(** C1, amended. The three slots are activated in order and the first
    failure ends the activation: when the slots before slot [i] have been
    activated and slot [i] raises, [apply_animations] raises that
    exception in the state slot [i] left, and no later slot is attempted. *)
Theorem apply_animations_stops_at_first_failure
    (i : nat) (w w_i w' : world H) (e : exn) :
  (i < 3)%nat ->
  for_each (seq 0 i) (apply_slot env) w = (Ok tt, w_i) ->
  apply_slot env i w_i = (Raise e, w') ->
  apply_animations env w = (Raise e, w').
Proof.
  intros Hi Hpre Hfail. unfold apply_animations.
  replace (seq 0 3) with (seq 0 i ++ i :: seq (S i) (2 - i))%list.
  - rewrite for_each_app, Hpre. simpl. unfold bind. rewrite Hfail. reflexivity.
  - destruct i as [|[|[|i]]]; try reflexivity; lia.
Qed.

(** When no slot raises, all three have been activated. *)
Lemma apply_animations_all (w w1 w2 w3 : world H) :
  apply_slot env 0 w = (Ok tt, w1) ->
  apply_slot env 1 w1 = (Ok tt, w2) ->
  apply_slot env 2 w2 = (Ok tt, w3) ->
  apply_animations env w = (Ok tt, w3).
Proof.
  intros H0 H1 H2. unfold apply_animations. simpl. unfold bind.
  rewrite H0, H1, H2. reflexivity.
Qed.

(** *** Resolution *)

Lemma contains_elem (l : list dict) (v : pyval) :
  contains l v <->
  exists entry x, entry ∈ l /\ entry !! "id" = Some x /\ py_eq x v = true.
Proof.
  unfold contains, first_with_id. split.
  - intros [entry Hf]. apply find_some in Hf as [Hin Hid].
    unfold has_id in Hid.
    destruct (entry !! "id") as [x|] eqn:E; [|discriminate].
    exists entry, x. rewrite list_elem_of_In. auto.
  - intros (entry & x & Hin & Hid & Heq).
    destruct (List.find _ l) as [r|] eqn:E; [eexists; reflexivity|].
    exfalso. apply list_elem_of_In in Hin.
    pose proof (find_none _ _ E _ Hin) as Hn. unfold has_id in Hn.
    rewrite Hid in Hn. congruence.
Qed.

Lemma find_by_id_first (l : list dict) (v : pyval) :
  all_have "id" l ->
  forall k, exists r, find_by_id l v k = inr r
                      /\ snd <$> r = first_with_id l v.
Proof.
  induction 1 as [|entry l [x Hx] _ IH]; intros k.
  - exists None. split; reflexivity.
  - simpl. unfold getitem, has_id. rewrite Hx.
    destruct (py_eq x v) eqn:E.
    + exists (Some (k, entry)). split; reflexivity.
    + apply IH.
Qed.

Lemma py_eq_str (x : pyval) (s : string) :
  py_eq x (VStr s) = true <-> x = VStr s.
Proof.
  destruct x; simpl; try (split; [discriminate|congruence]).
  rewrite String.eqb_eq. split; congruence.
Qed.

(** C8. An identifier is looked up in the downloaded records, then in the
    custom records, then in the local entries, and the first pool that
    has it gives the path: the download directory joined with
    [<id>.webm], the path stored in the custom record, the animations
    directory joined with the identifier.  The exception for a missing
    animation is raised exactly when no pool has the identifier or the
    path found is not on disk. *)
Theorem resolution_order (w : world H) (s : string) :
  all_have "id" (downloads (config w)) ->
  all_have "id" (custom_animations (config w)) ->
  all_have "path" (custom_animations (config w)) ->
  all_have "id" (local_animations w) ->
  let anim_id := VStr s in
  let in_downloads := contains (downloads (config w)) anim_id in
  let in_custom := contains (custom_animations (config w)) anim_id in
  let in_local := contains (local_animations w) anim_id in
  exists path : pyval,
    find_path env anim_id w = (Ok path, w)
    /\ (in_downloads ->
        path = VStr (path_join (DOWNLOADS_PATH env) (s +:+ ".webm")))
    /\ (~ in_downloads ->
        forall anim,
          first_with_id (custom_animations (config w)) anim_id = Some anim ->
          anim !! "path" = Some path)
    /\ (~ in_downloads -> ~ in_custom -> in_local ->
        path = VStr (path_join (ANIMATIONS_PATH env) s))
    /\ (if path_on_disk path (host w)
        then resolve env anim_id w = (Ok path, w)
        else resolve env anim_id w
             = (Raise (NotFoundError anim_id),
                with_log (LogRecord ERROR
                            ("Failed to find animation for: " +:+ s) None) w))
    /\ (fst (resolve env anim_id w) = Raise (NotFoundError anim_id)
        <-> (~ in_downloads /\ ~ in_custom /\ ~ in_local)
            \/ path_on_disk path (host w) = false).
Proof.
  intros Hd Hc Hp Hl anim_id in_downloads in_custom in_local.
  destruct (find_by_id_first _ anim_id Hd 0) as (rd & Hrd & Hfd).
  destruct (find_by_id_first _ anim_id Hc 0) as (rc & Hrc & Hfc).
  destruct (find_by_id_first _ anim_id Hl 0) as (rl & Hrl & Hfl).
  assert (Hres : forall path,
             find_path env anim_id w = (Ok path, w) ->
             if path_on_disk path (host w)
             then resolve env anim_id w = (Ok path, w)
             else resolve env anim_id w
                  = (Raise (NotFoundError anim_id),
                     with_log (LogRecord ERROR
                                 ("Failed to find animation for: " +:+ s)
                                 None) w)).
  { intros path Hfp. unfold resolve, bind. rewrite Hfp. unfold ask.
    destruct (path_on_disk path (host w)); reflexivity. }
  assert (Hiff : forall path,
             find_path env anim_id w = (Ok path, w) ->
             (~ in_downloads -> ~ in_custom -> ~ in_local -> path = VNone) ->
             fst (resolve env anim_id w) = Raise (NotFoundError anim_id)
             <-> (~ in_downloads /\ ~ in_custom /\ ~ in_local)
                 \/ path_on_disk path (host w) = false).
  { intros path Hfp Hnone. specialize (Hres path Hfp).
    destruct (path_on_disk path (host w)) eqn:E; rewrite Hres; simpl.
    - split; [discriminate|]. intros [(Hnd & Hnc & Hnl)|]; [|discriminate].
      rewrite (Hnone Hnd Hnc Hnl) in E. discriminate.
    - split; auto. }
  unfold find_path, bind, get_config in *. rewrite Hrd in *. simpl in *.
  destruct rd as [[kd ad]|]; simpl in *.
  - (* found among the downloads *)
    assert (Hin : in_downloads)
      by (unfold in_downloads, contains; rewrite <- Hfd; simpl; eauto).
    eexists. split; [reflexivity|].
    split; [reflexivity|]. split; [tauto|]. split; [tauto|].
    split; [apply Hres; reflexivity|].
    apply Hiff; [reflexivity|tauto].
  - assert (Hnd : ~ in_downloads).
    { unfold in_downloads, contains. rewrite <- Hfd. apply is_Some_None. }
    rewrite Hrc in *. simpl in *.
    destruct rc as [[kc ac]|]; simpl in *.
    + (* found among the custom records *)
      assert (Hin : in_custom)
      by (unfold in_custom, contains; rewrite <- Hfc; simpl; eauto).
      assert (Hac : ac ∈ custom_animations (config w)).
      { symmetry in Hfc. apply find_some in Hfc as [Hi _].
        apply list_elem_of_In. exact Hi. }
      destruct (proj1 (Forall_forall _ _) Hp ac Hac) as [p Hpath].
      unfold getitem in *. rewrite Hpath in *. simpl in *.
      exists p. split; [reflexivity|].
      split; [tauto|].
      split; [intros _ anim Ha; rewrite <- Hfc in Ha; congruence|].
      split; [tauto|]. split; [apply Hres; reflexivity|].
      destruct (path_on_disk p (host w)) eqn:E.
      * specialize (Hres p eq_refl). rewrite E in Hres. rewrite Hres. simpl.
        split; [discriminate|]. intros [(_ & Hnc & _)|]; [tauto|discriminate].
      * specialize (Hres p eq_refl). rewrite E in Hres. rewrite Hres. simpl.
        split; auto.
    + assert (Hnc : ~ in_custom).
      { unfold in_custom, contains. rewrite <- Hfc. apply is_Some_None. }
      rewrite Hrl in *. simpl in *.
      destruct rl as [[kl al]|]; simpl in *.
      * (* found among the local entries *)
        assert (Hin : in_local)
      by (unfold in_local, contains; rewrite <- Hfl; simpl; eauto).
        eexists. split; [reflexivity|].
        split; [tauto|].
        split; [intros _ anim Ha; rewrite <- Hfc in Ha; discriminate|].
        split; [reflexivity|]. split; [apply Hres; reflexivity|].
        apply Hiff; [reflexivity|tauto].
      * assert (Hnl : ~ in_local).
        { unfold in_local, contains. rewrite <- Hfl. apply is_Some_None. }
        exists VNone. split; [reflexivity|].
        split; [tauto|].
        split; [intros _ anim Ha; rewrite <- Hfc in Ha; discriminate|].
        split; [tauto|]. split; [apply Hres; reflexivity|].
        apply Hiff; [reflexivity|reflexivity].
Qed.

(** *** Link or copy *)

Lemma apply_animation_reaches_link (video : string) (anim_id : pyval)
    (w w' : world H) (target_path : string) (use_steamui : bool)
    (path : pyval) :
  reaches_link env video anim_id w target_path use_steamui path w' ->
  apply_animation env video anim_id w
  = link_or_copy env path target_path use_steamui w'.
Proof.
  intros (Hskip & Hne & w1 & w2 & Hsel & Hrm & Hres).
  unfold apply_animation. unfold skipped in Hskip. rewrite Hskip.
  unfold bind at 1. rewrite Hsel. unfold bind at 1. rewrite Hrm.
  rewrite Hne. unfold bind at 1. rewrite Hres. reflexivity.
Qed.

(** C6, amended. When the identifier resolves and the symbolic link
    cannot be created ([OSError] or [NotImplementedError]): on Windows,
    or when the target is under [steamui], the source is copied to the
    target, and the activation fails only when the copy does, with the
    exception of the copy; on the other platforms nothing is copied and
    the activation fails with the exception of the link. *)
Theorem symlink_failure_fallback (video : string) (anim_id : pyval)
    (w w' : world H) (target_path : string) (use_steamui : bool)
    (src : string) (e : exn) (h' : H) :
  reaches_link env video anim_id w target_path use_steamui (VStr src) w' ->
  os_symlink src target_path (host w') = (Some e, h') ->
  is_OSError_or_NotImplementedError e = true ->
  let run := apply_animation env video anim_id w in
  if bool_decide (system env = Windows) || use_steamui then
    match shutil_copy2 src target_path h' with
    | (None, h'') => fst run = Ok tt /\ host (snd run) = h''
    | (Some copy_error, h'') =>
        fst run = Raise copy_error /\ host (snd run) = h''
    end
  else fst run = Raise e /\ host (snd run) = h'.
Proof.
  intros Hreach Hlink Hos run. subst run.
  rewrite (apply_animation_reaches_link _ _ _ _ _ _ _ Hreach).
  unfold link_or_copy, try_except, bind, symlink, copy2, call, logger,
    raise_and_log, raise.
  rewrite Hlink. simpl. rewrite Hos.
  destruct (bool_decide (system env = Windows) || use_steamui); simpl.
  - destruct (shutil_copy2 src target_path h') as [[copy_error|] h''];
      simpl; auto.
  - auto.
Qed.
End Activation.

Section LocalScan.
Context {H : Type} `{!Host H} (env : environment).

(** C5, amended. A directory whose [config.json] exists and does not
    parse is skipped: the failure is logged as a warning, the directory
    gives no set and no entry, whatever files it holds, and the scan goes
    on with the remaining directories. *)
Theorem unparsable_config_skips_directory
    (directory : string) (rest : list string)
    (acc : list dict * list dict) (w : world H) (e : exn) :
  let config_path :=
    path_join3 (ANIMATIONS_PATH env) directory "config.json" in
  path_exists config_path (host w) = true ->
  json_load config_path (host w) = inl e ->
  let w' :=
    with_log (LogRecord WARNING
                ("Failed to parse config.json for: " +:+ directory) (Some e))
             w in
  scan_directory env directory acc w = (Ok acc, w')
  /\ scan_directories env (directory :: rest) acc w
     = scan_directories env rest acc w'.
Proof.
  intros config_path Hex Hload w'.
  assert (Hone : scan_directory env directory acc w = (Ok acc, w')).
  { unfold scan_directory. destruct acc as [animations sets].
    fold config_path. unfold bind at 1, ask at 1. rewrite Hex.
    unfold bind at 1, try_except, bind at 1. rewrite Hload. simpl.
    reflexivity. }
  split; [exact Hone|].
  simpl. unfold bind at 1. rewrite Hone. reflexivity.
Qed.
End LocalScan.

Section Randomizer.
Context {H : Type} `{!Host H}.

Lemma filter_e_elem {A} (p : A -> exn + bool) (l r : list A) :
  filter_e p l = inr r -> forall x, x ∈ r -> x ∈ l /\ p x = inr true.
Proof.
  revert r. induction l as [|a l IH]; simpl; intros r Hf x Hx.
  - injection Hf as <-. inversion Hx.
  - destruct (p a) as [e|b] eqn:Ep; [discriminate|].
    destruct (filter_e p l) as [e|r'] eqn:Er; [discriminate|].
    injection Hf as <-.
    assert (Hrec : x ∈ r' -> x ∈ a :: l /\ p x = inr true).
    { intros Hx'. destruct (IH r' eq_refl x Hx') as [Hin Hp].
      split; [apply elem_of_cons; right; exact Hin | exact Hp]. }
    destruct b; [|exact (Hrec Hx)].
    apply elem_of_cons in Hx as [->|Hx]; [|exact (Hrec Hx)].
    split; [apply elem_of_cons; left; reflexivity | exact Ep].
Qed.

Lemma py_index_in_range {A} (l : list A) (k : Z) :
  (0 <= k <= Z.of_nat (length l) - 1)%Z ->
  exists x, py_index l k = inr x /\ x ∈ l.
Proof.
  intros Hk. unfold py_index.
  destruct (k <? 0)%Z eqn:E; [lia|]. rewrite E.
  destruct (lookup_lt_is_Some_2 l (Z.to_nat k) ltac:(lia)) as [x Hx].
  rewrite Hx. exists x. split; [reflexivity|].
  eapply list_elem_of_lookup_2; exact Hx.
Qed.

(** A draw from a list that is not empty gives one of its elements. *)
Lemma draw_from {A} (l : list A) (w : world H) :
  l <> [] ->
  exists x,
    x ∈ l
    /\ bind (randint 0 (Z.of_nat (length l) - 1))
            (fun k => lift (py_index l k)) w
       = (Ok x,
          with_host
            (snd (random_randint 0 (Z.of_nat (length l) - 1) (host w))) w).
Proof.
  intros Hne. unfold bind, randint.
  pose proof (random_randint_range 0 (Z.of_nat (length l) - 1) (host w)) as Hr.
  destruct (random_randint 0 (Z.of_nat (length l) - 1) (host w)) as [k h].
  simpl in Hr.
  destruct (py_index_in_range l k) as (x & Hx & Hin).
  { apply Hr. destruct l; [congruence|simpl; lia]. }
  exists x. split; [exact Hin|]. rewrite Hx. reflexivity.
Qed.

Lemma pool_of_eligible (i : nat) (w : world H) (pool : list dict) :
  pool_of i w = inr pool ->
  forall anim, anim ∈ pool -> exists v, eligible_entry i w anim v.
Proof.
  intros Hpool anim Hin.
  destruct (filter_e_elem _ _ _ Hpool anim Hin) as [Hl He].
  unfold eligible, getitem in He.
  destruct (anim !! "target") as [t|] eqn:Et; [|discriminate].
  destruct (py_eq t _) eqn:Eq; [|discriminate].
  destruct (anim !! "id") as [v|] eqn:Ei; [|discriminate].
  exists v. split; [exact Hl|]. split; [exact Ei|].
  split; [exists t; auto|].
  injection He as He. apply negb_true_iff in He. exact He.
Qed.

(** What one round of the loop of [randomize_all] does. *)
Lemma randomize_slot_cases (i : nat) (w : world H) :
  match pool_of i w with
  | inl e => randomize_slot i w = (Raise e, w)
  | inr [] => randomize_slot i w = (Ok tt, w)
  | inr pool =>
      exists anim v,
        anim ∈ pool /\ eligible_entry i w anim v
        /\ randomize_slot i w
           = (Ok tt,
              with_config (set_slot i v (config w))
                (with_host
                   (snd (random_randint 0 (Z.of_nat (length pool) - 1)
                           (host w))) w))
  end.
Proof.
  assert (Heq : randomize_slot i w
                = match pool_of i w with
                  | inl e => (Raise e, w)
                  | inr pool =>
                      if (0 <? length pool)%nat then
                        bind (bind (randint 0 (Z.of_nat (length pool) - 1))
                                   (fun k => lift (py_index pool k)))
                             (fun anim =>
                                bind (lift (getitem anim "id"))
                                     (assign_slot i)) w
                      else (Ok tt, w)
                  end).
  { unfold randomize_slot, bind. cbv beta.
    destruct (pool_of i w) as [e|pool]; simpl; [reflexivity|].
    destruct (0 <? length pool)%nat; [|reflexivity].
    destruct (randint _ _ w) as [[k|e] w1]; reflexivity. }
  rewrite Heq. clear Heq.
  destruct (pool_of i w) as [e|pool] eqn:Hpool; [reflexivity|].
  destruct pool as [|a pool']; [reflexivity|].
  set (pool := a :: pool') in *.
  change (0 <? length pool)%nat with true. cbv iota.
  destruct (draw_from pool w ltac:(discriminate)) as (anim & Hin & Hdraw).
  destruct (pool_of_eligible i w pool Hpool anim Hin) as (v & Hel).
  exists anim, v. split; [exact Hin|]. split; [exact Hel|].
  unfold bind at 1. rewrite Hdraw.
  destruct Hel as (_ & Hid & _).
  unfold bind, getitem. rewrite Hid. reflexivity.
Qed.

Lemma same_pools_refl (w : world H) : same_pools w w.
Proof. repeat split. Qed.

Lemma same_pools_trans (w1 w2 w3 : world H) :
  same_pools w1 w2 -> same_pools w2 w3 -> same_pools w1 w3.
Proof.
  intros (A1 & A2 & A3 & A4) (B1 & B2 & B3 & B4).
  repeat split; congruence.
Qed.

Lemma same_pools_pool_of (i : nat) (w w' : world H) :
  same_pools w w' -> pool_of i w' = pool_of i w.
Proof.
  intros (A1 & A2 & A3 & A4). unfold pool_of. rewrite A1, A2, A3, A4.
  reflexivity.
Qed.

Lemma same_pools_eligible (i : nat) (w w' : world H) (anim : dict)
    (v : pyval) :
  same_pools w w' -> eligible_entry i w' anim v -> eligible_entry i w anim v.
Proof.
  intros (A1 & A2 & A3 & A4). unfold eligible_entry.
  rewrite A1, A2, A3, A4. auto.
Qed.

Lemma get_set_slot (i : nat) (v : pyval) (c : cfg) :
  get_slot i (set_slot i v c) = v.
Proof. destruct i as [|[|i]]; reflexivity. Qed.

Lemma get_set_slot_other (i j : nat) (v : pyval) (c : cfg) :
  (i < 3)%nat -> (j < 3)%nat -> i <> j ->
  get_slot i (set_slot j v c) = get_slot i c.
Proof.
  intros Hi Hj Hne.
  destruct i as [|[|[|i]]]; destruct j as [|[|[|j]]];
    try reflexivity; try lia; congruence.
Qed.

Lemma randomize_slot_effect (j : nat) (w : world H) :
  let w' := snd (randomize_slot j w) in
  same_pools w w'
  /\ (forall i, (i < 3)%nat -> (j < 3)%nat -> i <> j ->
                get_slot i (config w') = get_slot i (config w))
  /\ slot_from_pool w j w'.
Proof.
  pose proof (randomize_slot_cases j w) as Hc.
  destruct (pool_of j w) as [e|[|a pool]].
  - rewrite Hc. simpl. split; [apply same_pools_refl|].
    split; [reflexivity|left; reflexivity].
  - rewrite Hc. simpl. split; [apply same_pools_refl|].
    split; [reflexivity|left; reflexivity].
  - destruct Hc as (anim & v & _ & Hel & ->). simpl.
    split; [repeat split|].
    split; [intros i Hi Hj Hne; apply get_set_slot_other; assumption|].
    right. exists anim. simpl. rewrite get_set_slot. exact Hel.
Qed.

Lemma randomize_slots_from_pools (l : list nat) :
  Forall (fun j => (j < 3)%nat) l ->
  forall w w1 : world H,
    same_pools w w1 ->
    (forall i, (i < 3)%nat -> slot_from_pool w i w1) ->
    let w2 := snd (for_each l randomize_slot w1) in
    same_pools w w2 /\ (forall i, (i < 3)%nat -> slot_from_pool w i w2).
Proof.
  induction 1 as [|j l Hj _ IH]; intros w w1 Hsame Hinv; simpl.
  - auto.
  - destruct (randomize_slot_effect j w1) as (Hs & Hother & Hj').
    unfold bind. destruct (randomize_slot j w1) as [[[]|e] w2]; simpl in *.
    + apply IH; [eapply same_pools_trans; eassumption|].
      intros i Hi. destruct (decide (i = j)) as [->|Hne].
      * destruct Hj' as [Heq|(anim & Hel)].
        -- destruct (Hinv j Hi) as [Heq'|(anim & Hel)].
           ++ left. congruence.
           ++ right. exists anim. rewrite Heq. exact Hel.
        -- right. exists anim. eapply same_pools_eligible; eassumption.
      * specialize (Hother i Hi Hj Hne).
        destruct (Hinv i Hi) as [Heq'|(anim & Hel)].
        -- left. congruence.
        -- right. exists anim. rewrite Hother. exact Hel.
    + split; [eapply same_pools_trans; eassumption|].
      intros i Hi. destruct (decide (i = j)) as [->|Hne].
      * destruct Hj' as [Heq|(anim & Hel)].
        -- destruct (Hinv j Hi) as [Heq'|(anim & Hel)].
           ++ left. congruence.
           ++ right. exists anim. rewrite Heq. exact Hel.
        -- right. exists anim. eapply same_pools_eligible; eassumption.
      * specialize (Hother i Hi Hj Hne).
        destruct (Hinv i Hi) as [Heq'|(anim & Hel)].
        -- left. congruence.
        -- right. exists anim. rewrite Hother. exact Hel.
Qed.

Lemma seq_0_3_bound : Forall (fun j => (j < 3)%nat) (seq 0 3).
Proof. repeat constructor. Qed.

(** C9. After [randomize_all], whatever its outcome, every slot either
    still holds what it held or holds the identifier of an entry that is
    among the local, downloaded and custom entries, whose target is the
    target of the slot, and which the exclusions do not list. *)
Theorem randomize_all_assigns_from_pool (w : world H) (i : nat) :
  (i < 3)%nat ->
  let w' := snd (randomize_all w) in
  get_slot i (config w') = get_slot i (config w)
  \/ exists anim,
       anim ∈ (local_animations w ++ downloads (config w)
               ++ custom_animations (config w))%list
       /\ anim !! "id" = Some (get_slot i (config w'))
       /\ (exists t, anim !! "target" = Some t
                     /\ py_eq t (VStr (nth i VIDEO_TARGETS "")) = true)
       /\ py_in (get_slot i (config w')) (shuffle_exclusions (config w))
          = false.
Proof.
  intros Hi w'. subst w'.
  destruct (randomize_slots_from_pools (seq 0 3) seq_0_3_bound w w
              (same_pools_refl w) (fun i _ => or_introl eq_refl))
    as (_ & Hinv).
  specialize (Hinv i Hi).
  unfold randomize_all, bind.
  destruct (for_each (seq 0 3) randomize_slot w) as [[[]|e] w2]; simpl in *.
  - replace (get_slot i (set_current_set (VStr "") (config w2)))
      with (get_slot i (config w2))
      by (destruct i as [|[|i]]; reflexivity).
    exact Hinv.
  - exact Hinv.
Qed.

(** One round of the loop, when the comprehension does not raise. *)
Lemma randomize_slot_ok (j : nat) (w : world H) (pool : list dict) :
  pool_of j w = inr pool ->
  exists w',
    randomize_slot j w = (Ok tt, w')
    /\ same_pools w w'
    /\ (forall i, (i < 3)%nat -> (j < 3)%nat -> i <> j ->
                  get_slot i (config w') = get_slot i (config w))
    /\ (pool <> [] ->
        exists anim, anim ∈ pool
                     /\ anim !! "id" = Some (get_slot j (config w'))).
Proof.
  intros Hpool. pose proof (randomize_slot_cases j w) as Hc.
  rewrite Hpool in Hc. destruct pool as [|a pool'].
  - exists w. split; [exact Hc|]. split; [apply same_pools_refl|].
    split; [reflexivity|congruence].
  - destruct Hc as (anim & v & Hin & (_ & Hid & _) & Hrun).
    eexists. split; [exact Hrun|]. split; [repeat split|].
    split; [intros i Hi Hj Hne; apply get_set_slot_other; assumption|].
    intros _. exists anim. split; [exact Hin|].
    simpl. rewrite get_set_slot. exact Hid.
Qed.

(** X24. When no comprehension raises, [randomize_all] completes, clears
    [current_set], and gives every slot whose pool is not empty the
    identifier of an entry of that pool. *)
Lemma randomize_all_completes (w : world H) (p0 p1 p2 : list dict) :
  pool_of 0 w = inr p0 -> pool_of 1 w = inr p1 -> pool_of 2 w = inr p2 ->
  let run := randomize_all w in
  fst run = Ok tt
  /\ current_set (config (snd run)) = VStr ""
  /\ (p0 <> [] -> exists anim, anim ∈ p0
                               /\ anim !! "id" = Some (boot (config (snd run))))
  /\ (p1 <> [] -> exists anim, anim ∈ p1
                               /\ anim !! "id"
                                  = Some (suspend (config (snd run))))
  /\ (p2 <> [] -> exists anim, anim ∈ p2
                               /\ anim !! "id"
                                  = Some (throbber (config (snd run)))).
Proof.
  intros H0 H1 H2.
  destruct (randomize_slot_ok 0 w p0 H0) as (w1 & R0 & S0 & O0 & A0).
  rewrite <- (same_pools_pool_of 1 w w1 S0) in H1.
  destruct (randomize_slot_ok 1 w1 p1 H1) as (w2 & R1 & S1 & O1 & A1).
  rewrite <- (same_pools_pool_of 2 w w1 S0),
          <- (same_pools_pool_of 2 w1 w2 S1) in H2.
  destruct (randomize_slot_ok 2 w2 p2 H2) as (w3 & R2 & S2 & O2 & A2).
  assert (Hrun : randomize_all w
                 = (Ok tt, with_config (set_current_set (VStr "") (config w3))
                             w3)).
  { unfold randomize_all, bind. simpl. unfold bind.
    rewrite R0, R1, R2. reflexivity. }
  cbv zeta. rewrite Hrun. simpl.
  pose proof (O1 0%nat ltac:(lia) ltac:(lia) ltac:(lia)) as E01.
  pose proof (O2 0%nat ltac:(lia) ltac:(lia) ltac:(lia)) as E02.
  pose proof (O2 1%nat ltac:(lia) ltac:(lia) ltac:(lia)) as E12.
  simpl in E01, E02, E12.
  split; [reflexivity|]. split; [reflexivity|].
  split; [|split].
  - intros Hne. destruct (A0 Hne) as (anim & Hin & Hid).
    exists anim. split; [exact Hin|]. simpl in Hid. congruence.
  - intros Hne. destruct (A1 Hne) as (anim & Hin & Hid).
    exists anim. split; [exact Hin|]. simpl in Hid. congruence.
  - intros Hne. destruct (A2 Hne) as (anim & Hin & Hid).
    exists anim. split; [exact Hin|]. exact Hid.
Qed.

(** C3, amended. [randomize_all] leaves a slot whose pool of eligible
    entries is empty as it was. *)
Theorem randomize_all_keeps_slot_with_empty_pool (w : world H) (i : nat) :
  (i < 3)%nat ->
  pool_of i w = inr [] ->
  get_slot i (config (snd (randomize_all w))) = get_slot i (config w).
Proof.
  intros Hi Hpool.
  assert (Hloop : forall l, Forall (fun j => (j < 3)%nat) l ->
            forall w1, same_pools w w1 ->
              get_slot i (config (snd (for_each l randomize_slot w1)))
              = get_slot i (config w1)).
  { induction 1 as [|j l Hj _ IH]; intros w1 Hsame; simpl; [reflexivity|].
    destruct (randomize_slot_effect j w1) as (Hs & Hother & _).
    assert (Hkeep : get_slot i (config (snd (randomize_slot j w1)))
                    = get_slot i (config w1)).
    { destruct (decide (i = j)) as [<-|Hne]; [|apply Hother; assumption].
      pose proof (randomize_slot_cases i w1) as Hc.
      rewrite (same_pools_pool_of i w w1 Hsame), Hpool in Hc.
      rewrite Hc. reflexivity. }
    unfold bind. destruct (randomize_slot j w1) as [[[]|e] w2]; simpl in *.
    - rewrite IH; [exact Hkeep|]. eapply same_pools_trans; eassumption.
    - exact Hkeep. }
  specialize (Hloop (seq 0 3) seq_0_3_bound w (same_pools_refl w)).
  unfold randomize_all, bind.
  destruct (for_each (seq 0 3) randomize_slot w) as [[[]|e] w2]; simpl in *.
  - rewrite <- Hloop. destruct i as [|[|i]]; reflexivity.
  - exact Hloop.
Qed.

(** *** Randomizing by set *)

Lemma assign_set_effect (new_set : dict) (set_id f0 f1 f2 : pyval)
    (w : world H) :
  new_set !! "id" = Some set_id ->
  new_set !! "boot" = Some f0 ->
  new_set !! "suspend" = Some f1 ->
  new_set !! "throbber" = Some f2 ->
  assign_set new_set w
  = (Ok tt,
     with_config
       {| boot := slot_value set_id f0;
          suspend := slot_value set_id f1;
          throbber := slot_value set_id f2;
          randomize := randomize (config w);
          current_set := set_id;
          downloads := downloads (config w);
          custom_animations := custom_animations (config w);
          custom_sets := custom_sets (config w);
          shuffle_exclusions := shuffle_exclusions (config w);
          force_ipv4 := force_ipv4 (config w) |} w).
Proof.
  intros Hid H0 H1 H2.
  unfold assign_set, bind, getitem, for_each, seq, nth, VIDEO_TYPES.
  rewrite Hid, H0, H1, H2. simpl.
  unfold slot_value, with_config.
  destruct (truthy f0), (truthy f1), (truthy f2); reflexivity.
Qed.

(** C2, amended. Without an enabled set, [randomize_current_set] clears
    [current_set] and the three slots.  With at least one, it draws one
    of the enabled sets, local or custom, and gives the slots the files
    of that set: [current_set] becomes its identifier and each slot
    [<id>/<file>], or the empty string where the set has no file. *)
Theorem randomize_current_set_selection (w : world H) :
  (get_active_sets w = (Ok [], w) ->
   let run := randomize_current_set w in
   let c' := config (snd run) in
   fst run = Ok tt
   /\ current_set c' = VStr "" /\ boot c' = VStr ""
   /\ suspend c' = VStr "" /\ throbber c' = VStr "")
  /\ (forall active,
        get_active_sets w = (Ok active, w) -> active <> [] ->
        exists new_set enabled,
          new_set ∈ (local_sets w ++ custom_sets (config w))%list
          /\ new_set !! "enabled" = Some enabled
          /\ truthy enabled = true
          /\ (let w1 :=
                with_host
                  (snd (random_randint 0 (Z.of_nat (length active) - 1)
                          (host w))) w in
              randomize_current_set w = assign_set new_set w1
              /\ forall set_id f0 f1 f2,
                  new_set !! "id" = Some set_id ->
                  new_set !! "boot" = Some f0 ->
                  new_set !! "suspend" = Some f1 ->
                  new_set !! "throbber" = Some f2 ->
                  let c' := config (snd (randomize_current_set w)) in
                  fst (randomize_current_set w) = Ok tt
                  /\ current_set c' = set_id
                  /\ boot c' = slot_value set_id f0
                  /\ suspend c' = slot_value set_id f1
                  /\ throbber c' = slot_value set_id f2)).
Proof.
  split.
  - intros Hact. unfold randomize_current_set, bind.
    rewrite Hact. simpl. auto.
  - intros active Hact Hne.
    assert (Hrun : randomize_current_set w
                   = bind (bind (randint 0 (Z.of_nat (length active) - 1))
                                (fun k => lift (py_index active k)))
                          assign_set w).
    { unfold randomize_current_set. unfold bind at 1. rewrite Hact.
      destruct active as [|a l]; [congruence|].
      change (0 <? length (a :: l))%nat with true. cbv iota.
      unfold bind. destruct (randint _ _ w) as [[k|e] w1]; reflexivity. }
    destruct (draw_from active w Hne) as (new_set & Hin & Hdraw).
    unfold bind at 1 in Hrun. rewrite Hdraw in Hrun.
    assert (Hfilter : filter_e is_enabled
                        (local_sets w ++ custom_sets (config w))%list
                      = inr active).
    { unfold get_active_sets in Hact.
      destruct (filter_e is_enabled _) as [e|r];
        unfold lift, ret, raise in Hact; [discriminate|congruence]. }
    destruct (filter_e_elem _ _ _ Hfilter new_set Hin) as [Hmem Hen].
    unfold is_enabled, getitem in Hen.
    destruct (new_set !! "enabled") as [enabled|] eqn:Ee; [|discriminate].
    exists new_set, enabled. split; [exact Hmem|]. split; [exact Ee|].
    split; [congruence|]. split; [exact Hrun|].
    intros set_id f0 f1 f2 Hid H0 H1 H2. rewrite Hrun.
    rewrite (assign_set_effect new_set set_id f0 f1 f2 _ Hid H0 H1 H2).
    simpl. auto.
Qed.
End Randomizer.

Section Store.
Context {H : Type} `{!Host H} (env : environment).

Lemma py_eq_refl (v : pyval) : py_eq v v = true.
Proof.
  destruct v as [|b|z|s]; simpl.
  - reflexivity.
  - destruct b; reflexivity.
  - apply Z.eqb_refl.
  - apply String.eqb_refl.
Qed.

(** On records that all have an [id], the comprehension of the two
    removals is a plain filter. *)
Lemma filter_e_id_differs (v : pyval) (l : list dict) :
  all_have "id" l ->
  filter_e (id_differs v) l
  = inr (List.filter (fun entry => negb (has_id v entry)) l).
Proof.
  induction 1 as [|entry l [x Hx] _ IH]; simpl; [reflexivity|].
  unfold id_differs at 1, has_id at 1, getitem. rewrite Hx, IH.
  destruct (py_eq x v); reflexivity.
Qed.

Lemma count_id_removed (v : pyval) (l : list dict) :
  count_id v (List.filter (fun entry => negb (has_id v entry)) l) = O.
Proof.
  unfold count_id. induction l as [|entry l IH]; simpl; [reflexivity|].
  destruct (has_id v entry) eqn:E; simpl; [exact IH|].
  rewrite E. exact IH.
Qed.

Lemma count_id_app (v : pyval) (l1 l2 : list dict) :
  count_id v (l1 ++ l2)%list = (count_id v l1 + count_id v l2)%nat.
Proof. unfold count_id. rewrite List.filter_app, length_app. reflexivity. Qed.

Lemma all_have_filter (key : string) (p : dict -> bool) (l : list dict) :
  all_have key l -> all_have key (List.filter p l).
Proof.
  unfold all_have. rewrite !Forall_forall. intros Hall x Hx.
  apply list_elem_of_In, List.filter_In in Hx as [Hx _].
  apply Hall, list_elem_of_In, Hx.
Qed.

(** The configuration is not touched by [save_config], whether the
    document can be written or not. *)
Lemma save_config_config (w : world H) :
  config (snd (save_config env w)) = config w.
Proof.
  unfold save_config, bind, get_config, try_except, call, raise_and_log,
    bind, logger, raise.
  destruct (json_dump _ _ (host w)) as [[e|] h]; reflexivity.
Qed.

Lemma saveCustomSet_store (set_entry : dict) (v : pyval) (w : world H) :
  set_entry !! "id" = Some v ->
  all_have "id" (custom_sets (config w)) ->
  custom_sets (config (snd (saveCustomSet env set_entry w)))
  = (List.filter (fun entry => negb (has_id v entry)) (custom_sets (config w))
     ++ [set_entry])%list.
Proof.
  intros Hid Hall.
  unfold saveCustomSet, logging_errors, try_except, bind, getitem,
    remove_custom_set, bind, get_config, put_config.
  rewrite Hid. simpl. rewrite (filter_e_id_differs v _ Hall). simpl.
  match goal with
  | |- context [save_config env ?w0] =>
      pose proof (save_config_config w0) as Hc;
      destruct (save_config env w0) as [[[]|e] w1]
  end; simpl in *; rewrite Hc; reflexivity.
Qed.

Lemma saveCustomAnimation_store (anim_entry : dict) (v : pyval)
    (w : world H) :
  anim_entry !! "id" = Some v ->
  all_have "id" (custom_animations (config w)) ->
  custom_animations (config (snd (saveCustomAnimation env anim_entry w)))
  = (List.filter (fun entry => negb (has_id v entry))
       (custom_animations (config w))
     ++ [anim_entry])%list.
Proof.
  intros Hid Hall.
  unfold saveCustomAnimation, logging_errors, try_except, bind, getitem,
    remove_custom_animation, bind, get_config, put_config.
  rewrite Hid. simpl. rewrite (filter_e_id_differs v _ Hall). simpl.
  match goal with
  | |- context [save_config env ?w0] =>
      pose proof (save_config_config w0) as Hc;
      destruct (save_config env w0) as [[[]|e] w1]
  end; simpl in *; rewrite Hc; reflexivity.
Qed.

(** What an upsert leaves in a pool: the records with another
    identifier, in their order, then the new record; the identifier
    occurs once, and every record still has an [id]. *)
Lemma upsert_pool (entry : dict) (v : pyval) (l : list dict) :
  entry !! "id" = Some v ->
  all_have "id" l ->
  let l' := (List.filter (fun x => negb (has_id v x)) l ++ [entry])%list in
  count_id v l' = 1%nat /\ all_have "id" l'.
Proof.
  intros Hid Hall l'. subst l'. split.
  - rewrite count_id_app, count_id_removed. unfold count_id. simpl.
    unfold has_id. rewrite Hid, py_eq_refl. reflexivity.
  - apply Forall_app. split; [apply all_have_filter; exact Hall|].
    constructor; [rewrite Hid; eauto|constructor].
Qed.

(** C10. [saveCustomSet] and [saveCustomAnimation] replace: the records
    that carry the identifier of the new record are removed before it is
    appended, so that afterwards the store has exactly one record with
    that identifier, and saving a second record with the same identifier
    leaves one record again, the second. *)
Theorem save_custom_upserts (entry entry2 : dict) (v : pyval) (w : world H) :
  entry !! "id" = Some v ->
  entry2 !! "id" = Some v ->
  (all_have "id" (custom_sets (config w)) ->
   let once := custom_sets (config (snd (saveCustomSet env entry w))) in
   let twice :=
     custom_sets
       (config (snd (saveCustomSet env entry2
                       (snd (saveCustomSet env entry w))))) in
   once = (List.filter (fun x => negb (has_id v x)) (custom_sets (config w))
           ++ [entry])%list
   /\ count_id v once = 1%nat
   /\ twice = (List.filter (fun x => negb (has_id v x))
                 (custom_sets (config w)) ++ [entry2])%list
   /\ count_id v twice = 1%nat)
  /\ (all_have "id" (custom_animations (config w)) ->
      let once :=
        custom_animations (config (snd (saveCustomAnimation env entry w))) in
      let twice :=
        custom_animations
          (config (snd (saveCustomAnimation env entry2
                          (snd (saveCustomAnimation env entry w))))) in
      once = (List.filter (fun x => negb (has_id v x))
                (custom_animations (config w)) ++ [entry])%list
      /\ count_id v once = 1%nat
      /\ twice = (List.filter (fun x => negb (has_id v x))
                    (custom_animations (config w)) ++ [entry2])%list
      /\ count_id v twice = 1%nat).
Proof.
  intros Hid Hid2.
  assert (Hagain : forall l : list dict,
             List.filter (fun x => negb (has_id v x))
               (List.filter (fun x => negb (has_id v x)) l ++ [entry])%list
             = List.filter (fun x => negb (has_id v x)) l).
  { intros l. rewrite List.filter_app. simpl.
    unfold has_id at 3. rewrite Hid, py_eq_refl. simpl.
    rewrite app_nil_r. induction l as [|x l IH]; simpl; [reflexivity|].
    destruct (has_id v x) eqn:E; simpl; [exact IH|]. rewrite E. simpl.
    f_equal. exact IH. }
  split; intros Hall once twice; subst once twice.
  - pose proof (saveCustomSet_store entry v w Hid Hall) as H1.
    destruct (upsert_pool entry v _ Hid Hall) as [Hc1 Hall1].
    rewrite <- H1 in Hc1, Hall1.
    pose proof (saveCustomSet_store entry2 v _ Hid2 Hall1) as H2.
    rewrite H1 in H2 at 1. rewrite Hagain in H2.
    destruct (upsert_pool entry2 v _ Hid2 Hall) as [Hc2 _].
    rewrite <- H2 in Hc2. auto.
  - pose proof (saveCustomAnimation_store entry v w Hid Hall) as H1.
    destruct (upsert_pool entry v _ Hid Hall) as [Hc1 Hall1].
    rewrite <- H1 in Hc1, Hall1.
    pose proof (saveCustomAnimation_store entry2 v _ Hid2 Hall1) as H2.
    rewrite H1 in H2 at 1. rewrite Hagain in H2.
    destruct (upsert_pool entry2 v _ Hid2 Hall) as [Hc2 _].
    rewrite <- H2 in Hc2. auto.
Qed.

(** *** Enabling and disabling a set *)

Lemma same_flags_refl (l : list dict) : Forall2 same_flags l l.
Proof. induction l; constructor; [split; reflexivity|assumption]. Qed.

Lemma insert_enable_same_flags (entry : dict) (v : pyval) :
  same_flags entry (<["enable" := v]> entry).
Proof.
  split; symmetry; apply lookup_insert_ne; discriminate.
Qed.

Lemma find_by_id_lookup (l : list dict) (v : pyval) :
  forall k0 k entry,
    find_by_id l v k0 = inr (Some (k, entry)) ->
    exists j, k = (k0 + j)%nat /\ l !! j = Some entry.
Proof.
  induction l as [|x l IH]; intros k0 k entry Hf; simpl in Hf.
  - discriminate.
  - destruct (getitem x "id") as [e|y]; [discriminate|].
    destruct (py_eq y v).
    + injection Hf as <- <-. exists O. split; [lia|reflexivity].
    + destruct (IH _ _ _ Hf) as (j & -> & Hj).
      exists (S j). split; [lia|exact Hj].
Qed.

Lemma insert_enable_list (l : list dict) (k : nat) (entry : dict)
    (v : pyval) :
  l !! k = Some entry ->
  Forall2 same_flags l (<[k := <["enable" := v]> entry]> l).
Proof.
  revert k. induction l as [|x l IH]; intros k Hk; [discriminate|].
  destruct k as [|k]; simpl in *.
  - injection Hk as ->. constructor;
      [apply insert_enable_same_flags|apply same_flags_refl].
  - constructor; [split; reflexivity|apply IH; exact Hk].
Qed.

(** [enableSet] changes the [enabled] member of no set, local or custom,
    whatever its arguments and its outcome. *)
Lemma enableSet_keeps_enabled (set_id enable : pyval) (w : world H) :
  let w' := snd (enableSet env set_id enable w) in
  Forall2 same_flags (local_sets w) (local_sets w')
  /\ Forall2 same_flags (custom_sets (config w)) (custom_sets (config w')).
Proof.
  intros w'. subst w'.
  remember (enableSet env set_id enable w) as run eqn:Hrun.
  unfold enableSet, logging_errors, try_except in Hrun.
  unfold bind at 1 in Hrun. cbv beta in Hrun. unfold bind at 1 in Hrun.
  destruct (find_by_id (local_sets w) set_id 0) as [e|[[k entry]|]] eqn:Hl;
    simpl in Hrun.
  - subst run. split; apply same_flags_refl.
  - destruct (find_by_id_lookup _ _ _ _ _ Hl) as (j & -> & Hj).
    pose proof (insert_enable_list _ _ _ enable Hj) as Hins.
    unfold bind, put_local_sets, getitem, call, logger, raise in Hrun.
    simpl in Hrun.
    destruct (<["enable":=enable]> entry !! "id") as [[| | |s]|];
      simpl in Hrun;
      try (subst run; split; [exact Hins|apply same_flags_refl]).
    destruct (json_dump _ _ (host w)) as [[e|] h]; simpl in Hrun;
      subst run; (split; [exact Hins|apply same_flags_refl]).
  - unfold bind at 1, get_config at 1 in Hrun. unfold bind at 1 in Hrun.
    destruct (find_by_id (custom_sets (config w)) set_id 0)
      as [e|[[k entry]|]] eqn:Hc; simpl in Hrun.
    + subst run. split; apply same_flags_refl.
    + destruct (find_by_id_lookup _ _ _ _ _ Hc) as (j & -> & Hj).
      pose proof (insert_enable_list _ _ _ enable Hj) as Hins.
      unfold bind at 1, put_config at 1 in Hrun.
      match type of Hrun with
      | context [save_config env ?w0] =>
          pose proof (save_config_config w0) as Hcfg;
          assert (Hls : local_sets (snd (save_config env w0)) = local_sets w);
          [ unfold save_config, bind, get_config, try_except, call,
              raise_and_log, bind, logger, raise; simpl;
            destruct (json_dump _ _ (host w)) as [[e|] h]; reflexivity
          | destruct (save_config env w0) as [[[]|e] w1] ]
      end; simpl in *; subst run; simpl; rewrite Hcfg, Hls; simpl;
        (split; [apply same_flags_refl|exact Hins]).
    + subst run. split; apply same_flags_refl.
Qed.

Lemma filter_e_same_flags (l l' : list dict) :
  Forall2 same_flags l l' ->
  match filter_e is_enabled l, filter_e is_enabled l' with
  | inl e, inl e' => e = e'
  | inr r, inr r' => Forall2 same_flags r r'
  | _, _ => False
  end.
Proof.
  induction 1 as [|a b l l' [Hen Hid] _ IH]; simpl; [constructor|].
  destruct (filter_e is_enabled l) as [e|r],
           (filter_e is_enabled l') as [e'|r']; try contradiction;
    unfold is_enabled, getitem; rewrite Hen;
    destruct (b !! "enabled") as [v|] eqn:Eb; try reflexivity.
  - exact IH.
  - destruct (truthy v); simpl;
      [constructor; [split; congruence|]|]; exact IH.
Qed.

(** Hence the sets [randomize_current_set] chooses from are the same
    sets after [enableSet] as before. *)
Lemma enableSet_keeps_active_sets (set_id enable : pyval) (w : world H) :
  match fst (get_active_sets w),
        fst (get_active_sets (snd (enableSet env set_id enable w))) with
  | Ok active, Ok active' => Forall2 same_flags active active'
  | Raise e, Raise e' => e = e'
  | _, _ => False
  end.
Proof.
  destruct (enableSet_keeps_enabled set_id enable w) as [Hl Hc].
  pose proof (filter_e_same_flags _ _ (Forall2_app Hl Hc)) as Hf.
  unfold get_active_sets.
  destruct (filter_e is_enabled (local_sets w ++ custom_sets (config w)))
    as [e|r],
    (filter_e is_enabled
       (local_sets (snd (enableSet env set_id enable w)) ++
        custom_sets (config (snd (enableSet env set_id enable w)))))
    as [e'|r']; simpl; exact Hf.
Qed.
End Store.

(** ** Further properties *)

Section CatalogMore.
Context {H : Type} `{!Host H}.

Lemma same_globals_refl (w : world H) : same_globals w w.
Proof. repeat split. Qed.

Lemma same_globals_trans (w1 w2 w3 : world H) :
  same_globals w1 w2 -> same_globals w2 w3 -> same_globals w1 w3.
Proof.
  intros (A1 & A2 & A3 & A4) (B1 & B2 & B3 & B4).
  repeat split; congruence.
Qed.



Lemma fetch_loop_globals (fuel : nat) :
  forall (status : option Z) (w : world H),
    same_globals w (snd (fetch_loop fuel status w)).
Proof.
  induction fuel as [|fuel IH]; intros status w.
  - simpl. destruct status; apply same_globals_refl.
  - cbn [fetch_loop]. unfold bind at 1. rewrite request_eq.
    destruct (answer 0 (uses_ipv4 w) (host w)) as [st body|e].
    + destruct (st =? 200)%Z; [destruct body; repeat split|].
      destruct (st =? 429)%Z; [repeat split|].
      unfold bind at 1, logger at 1.
      match goal with
      | |- context [fetch_loop fuel ?s ?w2] =>
          eapply same_globals_trans; [|apply (IH s w2)]
      end.
      repeat split.
    + repeat split.
Qed.

Lemma get_steamdeckrepo_globals (w : world H) :
  same_globals w (snd (get_steamdeckrepo w)).
Proof.
  pose proof (fetch_loop_globals REQUEST_RETRIES None w) as Hg.
  unfold get_steamdeckrepo, try_except, bind.
  destruct (fetch_loop REQUEST_RETRIES None w) as [[data|e] w1]; simpl in *.
  - destruct (translate_posts data) as [e|l]; exact Hg.
  - exact Hg.
Qed.

(** X2. A refresh touches nothing but the machine and the log: the
    configuration, the local lists and the cache are as before, whatever
    the outcome; and whenever it raises, the exception is the last thing
    it logged, as an error. *)
Theorem get_steamdeckrepo_only_logs (w : world H) :
  let run := get_steamdeckrepo w in
  same_globals w (snd run)
  /\ forall e, fst run = Raise e ->
               last_logged (snd run)
               = Some (LogRecord ERROR "Failed to fetch steamdeckrepo"
                         (Some e)).
Proof.
  intros run. subst run.
  pose proof (fetch_loop_globals REQUEST_RETRIES None w) as Hg.
  unfold get_steamdeckrepo, try_except, bind, last_logged.
  destruct (fetch_loop REQUEST_RETRIES None w) as [[data|e] w1]; simpl in *.
  - destruct (translate_posts data) as [e|l]; simpl.
    + split; [exact Hg|]. intros e' [= <-]. apply last_snoc.
    + split; [exact Hg|]. discriminate.
  - split; [exact Hg|]. intros e' [= <-]. apply last_snoc.
Qed.

(** X3. A request that gets no answer is not repeated: after any number
    of retried answers (fewer than five), a failure of the connection
    ends the refresh with the exception of the connection, without a
    further request. *)
Theorem connection_failure_not_retried (w : world H) (n : nat) (e : exn) :
  (n < 5)%nat ->
  (forall k, (k < n)%nat ->
             exists st, retried (answer k (uses_ipv4 w) (host w)) st) ->
  answer n (uses_ipv4 w) (host w) = HttpFailure e ->
  let run := get_steamdeckrepo w in
  fst run = Raise e
  /\ host (snd run) = host_after (S n) (uses_ipv4 w) (host w).
Proof.
  intros Hn Hre Hans run. subst run.
  rewrite get_steamdeckrepo_host, get_steamdeckrepo_result.
  destruct (fetch_loop_retried n (5 - n) None w Hre)
    as (w' & status' & Heq & Hhost & Hcfg & _).
  replace (n + (5 - n))%nat with REQUEST_RETRIES in Heq
    by (unfold REQUEST_RETRIES; lia).
  rewrite Heq.
  destruct (5 - n)%nat as [|fuel] eqn:Hfuel; [lia|].
  assert (Hu : uses_ipv4 w' = uses_ipv4 w)
    by (unfold uses_ipv4; rewrite Hcfg; reflexivity).
  assert (Ha : answer 0 (uses_ipv4 w') (host w')
               = answer n (uses_ipv4 w) (host w)).
  { rewrite Hu, Hhost. unfold answer. reflexivity. }
  assert (Hs : host_after 1 (uses_ipv4 w') (host w')
               = host_after (S n) (uses_ipv4 w) (host w)).
  { rewrite Hu, Hhost. clear. generalize (host w).
    induction n as [|n IH]; intros h; [reflexivity|]. simpl. apply IH. }
  cbn [fetch_loop]. unfold bind at 1 3.
  rewrite request_eq, Ha, Hans. simpl.
  split; [reflexivity | exact Hs].
Qed.

(** X4. [update_cache] replaces the cache by the entries of a refresh
    that succeeds and keeps the previous cache when the refresh fails. *)
Theorem update_cache_keeps_cache_on_failure (w : world H) :
  match fst (get_steamdeckrepo w) with
  | Ok entries =>
      fst (update_cache w) = Ok tt
      /\ animation_cache (snd (update_cache w)) = entries
  | Raise e =>
      fst (update_cache w) = Raise e
      /\ animation_cache (snd (update_cache w)) = animation_cache w
  end
  /\ config (snd (update_cache w)) = config w.
Proof.
  destruct (get_steamdeckrepo_globals w) as (Hc & _ & _ & Hcache).
  unfold update_cache, bind.
  destruct (get_steamdeckrepo w) as [[entries|e] w1]; simpl in *; auto.
Qed.
End CatalogMore.

Section ScanMore.
Context {H : Type} `{!Host H} (env : environment).

Lemma process_animation_eq (directory : string) (anim_config : dict) (h : H)
    (i : nat) (local_set : dict) (animations : list dict) :
  process_animation env directory anim_config h
    (nth i (VIDEOS_NAMES env) "") (nth i VIDEO_TYPES "")
    (nth i VIDEO_TARGETS "") (local_set, animations)
  = (<[nth i VIDEO_TYPES "" := slot_file env directory anim_config h i]>
       local_set,
     (animations ++ slot_entries env directory anim_config h i)%list).
Proof.
  unfold process_animation, slot_entries, slot_file, emitted, slot_entry.
  destruct (anim_config !! nth i VIDEO_TYPES "") as [v|] eqn:E.
  - rewrite bool_decide_eq_false_2 by discriminate. cbn [andb].
    destruct (negb (py_eq v (VStr "")) && negb (bool_decide (v = VNone)));
      [reflexivity|]. rewrite app_nil_r. reflexivity.
  - rewrite bool_decide_eq_true_2 by reflexivity. cbn [andb].
    destruct (path_exists _ h); cbn [negb].
    + destruct (negb (py_eq (VStr (nth i (VIDEOS_NAMES env) "")) (VStr ""))
                && negb (bool_decide
                           (VStr (nth i (VIDEOS_NAMES env) "") = VNone)));
        [reflexivity|]. rewrite app_nil_r. reflexivity.
    + simpl. rewrite app_nil_r. reflexivity.
Qed.

(** One directory: the scan adds what [scanned] says and, at most, a
    warning to the log. *)
Lemma scan_directory_eq (directory : string) (animations sets : list dict)
    (w : world H) :
  exists w',
    scan_directory env directory (animations, sets) w
    = (Ok (match set_directory env directory (host w) with
           | Some anim_config =>
               ((animations
                 ++ scanned_entries env directory anim_config (host w))%list,
                (sets ++ [scanned_set env directory anim_config (host w)])%list)
           | None => (animations, sets)
           end), w')
    /\ host w' = host w /\ same_globals w w'.
Proof.
  unfold scan_directory, set_directory.
  unfold bind at 1, ask at 1.
  destruct (path_exists _ (host w)) eqn:Hex.
  - unfold bind at 1, try_except, bind at 1.
    destruct (json_load _ (host w)) as [e|anim_config] eqn:Hload.
    + simpl. eexists. split; [reflexivity|]. split; repeat split.
    + cbn [seq foldl]. unfold lift, ret, bind, id, ask. cbn beta iota.
      cbn [negb]. cbn beta iota.
      rewrite !(process_animation_eq directory anim_config (host w)).
      exists w. split; [|split; [reflexivity|apply same_globals_refl]].
      unfold scanned_entries, scanned_set, ret.
      rewrite <- !app_assoc.
      destruct (anim_config !! "enabled"); reflexivity.
  - unfold bind at 1, bind at 1, ask at 1.
    destruct (has_default_video env directory (host w)) eqn:Hdef.
    + cbn [seq foldl]. unfold lift, ret, bind, id, ask. cbn beta iota.
      cbn [negb]. cbn beta iota.
      rewrite !(process_animation_eq directory ∅ (host w)).
      exists w. split; [|split; [reflexivity|apply same_globals_refl]].
      unfold scanned_entries, scanned_set, ret. rewrite <- !app_assoc.
      reflexivity.
    + simpl. exists w. split; [reflexivity|].
      split; [reflexivity|apply same_globals_refl].
Qed.

Lemma scan_directories_eq (directories : list string) :
  forall (animations sets : list dict) (w : world H),
    exists w',
      scan_directories env directories (animations, sets) w
      = (Ok ((animations ++ fst (scanned env directories (host w)))%list,
             (sets ++ snd (scanned env directories (host w)))%list), w')
      /\ host w' = host w /\ same_globals w w'.
Proof.
  induction directories as [|directory r IH]; intros animations sets w.
  - exists w. simpl. rewrite !app_nil_r.
    split; [reflexivity|]. split; [reflexivity|apply same_globals_refl].
  - destruct (scan_directory_eq directory animations sets w)
      as (w1 & Hone & Hh1 & Hg1).
    cbn [scan_directories]. unfold bind at 1. rewrite Hone.
    cbn [scanned]. destruct (scanned env r (host w)) as [an' sets'] eqn:Hr.
    destruct (set_directory env directory (host w)) as [anim_config|].
    + destruct (IH (animations
                    ++ scanned_entries env directory anim_config (host w))%list
                   (sets ++ [scanned_set env directory anim_config (host w)])%list
                   w1) as (w2 & Hrest & Hh2 & Hg2).
      exists w2. rewrite Hrest, Hh1, Hr. simpl.
      rewrite <- !app_assoc. simpl.
      split; [reflexivity|]. split; [congruence|].
      eapply same_globals_trans; eassumption.
    + destruct (IH animations sets w1) as (w2 & Hrest & Hh2 & Hg2).
      exists w2. rewrite Hrest, Hh1, Hr. simpl.
      split; [reflexivity|]. split; [congruence|].
      eapply same_globals_trans; eassumption.
Qed.
Lemma load_local_animations_eq (w : world H) (directories : list string) :
  walk_dirs (ANIMATIONS_PATH env) (host w) = Some directories ->
  exists w',
    load_local_animations env w = (Ok tt, w')
    /\ host w' = host w
    /\ config w' = config w
    /\ animation_cache w' = animation_cache w
    /\ local_animations w' = fst (scanned env directories (host w))
    /\ local_sets w' = snd (scanned env directories (host w)).
Proof.
  intros Hwalk. unfold load_local_animations. unfold bind at 1.
  rewrite Hwalk.
  destruct (scan_directories_eq directories [] [] w)
    as (w1 & Hscan & Hh & (Hc & _ & _ & Hcache)).
  unfold bind at 1. rewrite Hscan. simpl.
  eexists. split; [reflexivity|]. simpl. auto.
Qed.

Lemma scanned_sets_elem (directories : list string) (h : H) (s : dict) :
  s ∈ snd (scanned env directories h) <->
  exists directory anim_config,
    directory ∈ directories
    /\ set_directory env directory h = Some anim_config
    /\ s = scanned_set env directory anim_config h.
Proof.
  induction directories as [|d r IH]; simpl.
  - split; [intros Hin; inversion Hin|].
    intros (directory & _ & Hin & _). inversion Hin.
  - destruct (scanned env r h) as [an sets]. simpl in IH.
    destruct (set_directory env d h) as [anim_config|] eqn:Hd; simpl.
    + rewrite elem_of_cons, IH. split.
      * intros [->|(directory & cfg' & Hin & Hs & ->)].
        -- exists d, anim_config. rewrite elem_of_cons. auto.
        -- exists directory, cfg'. rewrite elem_of_cons. auto.
      * intros (directory & cfg' & Hin & Hs & ->).
        apply elem_of_cons in Hin as [->|Hin].
        -- left. congruence.
        -- right. eauto.
    + rewrite IH. split.
      * intros (directory & cfg' & Hin & Hs & ->).
        exists directory, cfg'. rewrite elem_of_cons. auto.
      * intros (directory & cfg' & Hin & Hs & ->).
        apply elem_of_cons in Hin as [->|Hin]; [congruence|eauto].
Qed.

Lemma scanned_entries_elem (directories : list string) (h : H) (a : dict) :
  a ∈ fst (scanned env directories h) <->
  exists directory anim_config,
    directory ∈ directories
    /\ set_directory env directory h = Some anim_config
    /\ a ∈ scanned_entries env directory anim_config h.
Proof.
  induction directories as [|d r IH]; simpl.
  - split; [intros Hin; inversion Hin|].
    intros (directory & _ & Hin & _). inversion Hin.
  - destruct (scanned env r h) as [an sets]. simpl in IH.
    destruct (set_directory env d h) as [anim_config|] eqn:Hd; simpl.
    + rewrite elem_of_app, IH. split.
      * intros [Hin|(directory & cfg' & Hin & Hs & Ha)].
        -- exists d, anim_config. rewrite elem_of_cons. auto.
        -- exists directory, cfg'. rewrite elem_of_cons. auto.
      * intros (directory & cfg' & Hin & Hs & Ha).
        apply elem_of_cons in Hin as [->|Hin].
        -- left. congruence.
        -- right. eauto.
    + rewrite IH. split.
      * intros (directory & cfg' & Hin & Hs & Ha).
        exists directory, cfg'. rewrite elem_of_cons. auto.
      * intros (directory & cfg' & Hin & Hs & Ha).
        apply elem_of_cons in Hin as [->|Hin]; [congruence|eauto].
Qed.

Lemma scanned_set_members (directory : string) (anim_config : dict) (h : H) :
  let s := scanned_set env directory anim_config h in
  s !! "id" = Some (VStr directory)
  /\ s !! "enabled" = Some (default (VBool true) (anim_config !! "enabled"))
  /\ forall i, (i < 3)%nat ->
               s !! nth i VIDEO_TYPES ""
               = Some (slot_file env directory anim_config h i).
Proof.
  split; [reflexivity|]. split; [reflexivity|].
  intros i Hi. destruct i as [|[|[|i]]]; [reflexivity..|lia].
Qed.

Lemma slot_entries_elem (directory : string) (anim_config : dict) (h : H)
    (i : nat) (a : dict) :
  a ∈ slot_entries env directory anim_config h i <->
  emitted (slot_file env directory anim_config h i) = true
  /\ a = slot_entry directory i (slot_file env directory anim_config h i).
Proof.
  unfold slot_entries.
  destruct (emitted (slot_file env directory anim_config h i)).
  - rewrite elem_of_cons. split; [intros [->|Hin]; [auto|inversion Hin]|].
    intros [_ ->]. left. reflexivity.
  - split; [intros Hin; inversion Hin|]. intros [? _]. discriminate.
Qed.

Lemma scanned_entries_slots (directory : string) (anim_config : dict)
    (h : H) (a : dict) :
  a ∈ scanned_entries env directory anim_config h <->
  exists i, (i < 3)%nat /\ a ∈ slot_entries env directory anim_config h i.
Proof.
  unfold scanned_entries. rewrite !elem_of_app. split.
  - intros [Ha|[Ha|Ha]]; [exists 0%nat|exists 1%nat|exists 2%nat];
      (split; [lia|exact Ha]).
  - intros (i & Hi & Ha). destruct i as [|[|[|i]]]; [auto..|lia].
Qed.

Lemma truthy_emitted (f : pyval) : truthy f = true -> emitted f = true.
Proof.
  unfold emitted. destruct f as [|b|z|s]; simpl; try discriminate;
    intros Ht; rewrite ?Ht; reflexivity.
Qed.



(** X7. Every set of a scan has the members [id], [enabled], [boot],
    [suspend] and [throbber], so that the randomizer can take it without
    a [KeyError]; and every entry of a scan has an [id] and the target
    [boot] or [suspend]. *)
Theorem scanned_sets_complete (w : world H) (directories : list string) :
  walk_dirs (ANIMATIONS_PATH env) (host w) = Some directories ->
  let w' := snd (load_local_animations env w) in
  (forall s, s ∈ local_sets w' ->
             complete_set s /\ forall w2 : world H, fst (assign_set s w2) = Ok tt)
  /\ (forall a, a ∈ local_animations w' ->
                is_Some (a !! "id")
                /\ (a !! "target" = Some (VStr "boot")
                    \/ a !! "target" = Some (VStr "suspend"))).
Proof.
  intros Hwalk.
  destruct (load_local_animations_eq w directories Hwalk)
    as (w1 & Hrun & _ & _ & _ & Ha & Hs).
  cbv zeta. rewrite Hrun. simpl. rewrite Ha, Hs. split.
  - intros s Hin. apply scanned_sets_elem in Hin
      as (directory & anim_config & _ & _ & ->).
    destruct (scanned_set_members directory anim_config (host w))
      as (Hid & Hen & Hslots).
    pose proof (Hslots 0%nat ltac:(lia)) as H0.
    pose proof (Hslots 1%nat ltac:(lia)) as H1.
    pose proof (Hslots 2%nat ltac:(lia)) as H2.
    cbv zeta in *. simpl in H0, H1, H2.
    split; [repeat split; eauto|].
    intros w2. erewrite assign_set_effect by eassumption. reflexivity.
  - intros a Hin. apply scanned_entries_elem in Hin
      as (directory & anim_config & _ & _ & Hin).
    apply scanned_entries_slots in Hin as (i & Hi & Hin).
    apply slot_entries_elem in Hin as [_ ->].
    split; [eexists; reflexivity|].
    destruct i as [|[|[|i]]]; [left|right|right|lia]; reflexivity.
Qed.

(** X8. What the randomizer makes of a scanned set can be resolved: for
    every set of a scan and every slot for which the set has a file, the
    identifier [<id>/<file>] that [randomize_current_set] would store is
    the [id] of an entry of the same scan, and that entry has the target
    of the slot. *)
Theorem scanned_sets_have_entries (w : world H) (directories : list string)
    (s : dict) (i : nat) (set_id filename : pyval) :
  walk_dirs (ANIMATIONS_PATH env) (host w) = Some directories ->
  let w' := snd (load_local_animations env w) in
  s ∈ local_sets w' ->
  (i < 3)%nat ->
  s !! "id" = Some set_id ->
  s !! nth i VIDEO_TYPES "" = Some filename ->
  truthy filename = true ->
  exists a,
    a ∈ local_animations w'
    /\ a !! "id" = Some (slot_value set_id filename)
    /\ a !! "target" = Some (VStr (nth i VIDEO_TARGETS "")).
Proof.
  intros Hwalk w'. subst w'.
  destruct (load_local_animations_eq w directories Hwalk)
    as (w1 & Hrun & _ & _ & _ & Ha & Hs).
  rewrite Hrun. cbn [snd]. rewrite Ha, Hs.
  intros Hin Hi Hid Hfile Htruthy.
  apply scanned_sets_elem in Hin as (directory & anim_config & Hd & Hset & ->).
  destruct (scanned_set_members directory anim_config (host w))
    as (Hid' & _ & Hslots).
  cbv zeta in *. rewrite Hid' in Hid. injection Hid as <-.
  rewrite (Hslots i Hi) in Hfile. injection Hfile as Hfile.
  exists (slot_entry directory i filename).
  split; [|split].
  - apply scanned_entries_elem. exists directory, anim_config.
    split; [exact Hd|]. split; [exact Hset|].
    apply scanned_entries_slots. exists i. split; [exact Hi|].
    apply slot_entries_elem. rewrite Hfile.
    split; [apply truthy_emitted; exact Htruthy|reflexivity].
  - unfold slot_value. rewrite Htruthy. reflexivity.
  - reflexivity.
Qed.

(** X9. A file name that the [config.json] of a directory gives for a
    slot is taken as it is, whether or not such a file exists: the set
    has it as the file of the slot and, unless it is empty or null, the
    scan has the entry [<directory>/<file>] for it. *)
Theorem configured_file_not_checked (w : world H)
    (directories : list string) (directory : string) (anim_config : dict)
    (i : nat) (filename : pyval) :
  walk_dirs (ANIMATIONS_PATH env) (host w) = Some directories ->
  directory ∈ directories ->
  path_exists (path_join3 (ANIMATIONS_PATH env) directory "config.json")
    (host w) = true ->
  json_load (path_join3 (ANIMATIONS_PATH env) directory "config.json")
    (host w) = inr anim_config ->
  (i < 3)%nat ->
  anim_config !! nth i VIDEO_TYPES "" = Some filename ->
  let w' := snd (load_local_animations env w) in
  (exists s, s ∈ local_sets w'
             /\ s !! "id" = Some (VStr directory)
             /\ s !! nth i VIDEO_TYPES "" = Some filename)
  /\ (emitted filename = true ->
      exists a, a ∈ local_animations w'
                /\ a !! "id"
                   = Some (VStr (directory +:+ "/" +:+ py_str filename))
                /\ a !! "target" = Some (VStr (nth i VIDEO_TARGETS ""))).
Proof.
  intros Hwalk Hd Hex Hload Hi Hfile w'. subst w'.
  destruct (load_local_animations_eq w directories Hwalk)
    as (w1 & Hrun & _ & _ & _ & Ha & Hs).
  rewrite Hrun. cbn [snd]. rewrite Ha, Hs.
  assert (Hset : set_directory env directory (host w) = Some anim_config).
  { unfold set_directory. rewrite Hex, Hload. reflexivity. }
  assert (Hslot : slot_file env directory anim_config (host w) i = filename).
  { unfold slot_file. rewrite Hfile. reflexivity. }
  destruct (scanned_set_members directory anim_config (host w))
    as (Hid & _ & Hslots).
  split.
  - exists (scanned_set env directory anim_config (host w)).
    split; [apply scanned_sets_elem; eauto|].
    split; [exact Hid|]. cbv zeta in Hslots. rewrite (Hslots i Hi), Hslot.
    reflexivity.
  - intros Hem. exists (slot_entry directory i filename).
    split; [|split; reflexivity].
    apply scanned_entries_elem. exists directory, anim_config.
    split; [exact Hd|]. split; [exact Hset|].
    apply scanned_entries_slots. exists i. split; [exact Hi|].
    apply slot_entries_elem. rewrite Hslot. auto.
Qed.
End ScanMore.

Section ActivationMore.
Context {H : Type} `{!Host H} (env : environment).

Lemma select_target_ok (video : string) (w : world H) :
  (system env = Windows /\ truthy_path (STEAMUI_MOVIES_PATH env) = true)
  \/ is_Some (OVERRIDE_PATH env) ->
  exists target_path use_steamui w',
    select_target env video w = (Ok (target_path, use_steamui), w')
    /\ same_globals w w'.
Proof.
  intros Hdirs. unfold select_target.
  destruct (bool_decide (system env = Windows)
            && truthy_path (STEAMUI_MOVIES_PATH env)) eqn:Hwin.
  - unfold bind at 1, ask at 1. unfold bind at 1, ask at 1.
    destruct (negb (path_exists _ (host w)) && path_exists _ (host w)).
    + unfold bind at 1, try_except, bind at 1, call.
      destruct (shutil_copy2 _ _ (host w)) as [[e|] h];
        do 3 eexists; (split; [reflexivity|repeat split]).
    + do 3 eexists. split; [reflexivity|repeat split].
  - destruct Hdirs as [[Hsys Hui]|[o Ho]].
    + rewrite bool_decide_eq_true_2, Hui in Hwin by exact Hsys.
      discriminate.
    + rewrite Ho. do 3 eexists. split; [reflexivity|repeat split].
Qed.

Lemma remove_existing_ok (target_path : string) (w : world H) :
  exists w', remove_existing target_path w = (Ok tt, w')
             /\ same_globals w w'.
Proof.
  unfold remove_existing, bind, ask, try_except, call, logger.
  destruct (path_islink target_path (host w) || path_exists target_path (host w)).
  - destruct (os_remove target_path (host w)) as [[e|] h];
      eexists; (split; [reflexivity|repeat split]).
  - eexists. split; [reflexivity|repeat split].
Qed.

Lemma restore_default_ok (target_path : string) (use_steamui : bool)
    (w : world H) :
  exists w', restore_default target_path use_steamui w = (Ok tt, w')
             /\ same_globals w w'.
Proof.
  unfold restore_default, bind, ask, try_except, call, logger.
  destruct use_steamui; [|eexists; split; [reflexivity|repeat split]].
  destruct (path_exists _ (host w));
    [|eexists; split; [reflexivity|repeat split]].
  destruct (shutil_copy2 _ _ (host w)) as [[e|] h];
    eexists; (split; [reflexivity|repeat split]).
Qed.

(** X10. Reverting a slot to the default never fails: when the target
    directory is known (the [steamui] directory under Windows, or the
    override directory), [apply_animation] with the empty identifier
    completes whatever the file operations do (their failures are only
    logged), and changes nothing but the machine and the log. *)
Theorem revert_to_default_never_fails (video : string) (w : world H) :
  (system env = Windows /\ truthy_path (STEAMUI_MOVIES_PATH env) = true)
  \/ is_Some (OVERRIDE_PATH env) ->
  let run := apply_animation env video (VStr "") w in
  fst run = Ok tt /\ same_globals w (snd run).
Proof.
  intros Hdirs run. subst run. unfold apply_animation.
  match goal with
  | |- context [if ?c then _ else _] => destruct c
  end; [split; [reflexivity|repeat split]|].
  destruct (select_target_ok video w Hdirs)
    as (target_path & use_steamui & w1 & Hsel & Hg1).
  destruct (remove_existing_ok target_path w1) as (w2 & Hrm & Hg2).
  destruct (restore_default_ok target_path use_steamui w2)
    as (w3 & Hrs & Hg3).
  unfold bind. rewrite Hsel, Hrm. simpl. rewrite Hrs. simpl.
  split; [reflexivity|].
  eapply same_globals_trans; [|exact Hg3].
  eapply same_globals_trans; eassumption.
Qed.

(** X11. Under Windows only the boot slot is activated: the suspend and
    the throbber slot are skipped with an information in the log, so
    that [apply_animations] ends as the activation of the boot slot
    does. *)
Theorem windows_activates_boot_only (w : world H) :
  system env = Windows ->
  match apply_slot env 0 w with
  | (Ok _, w1) =>
      apply_animations env w
      = (Ok tt,
         with_log
           (LogRecord INFO
              "Skipping throbber animation on Windows (not supported)" None)
           (with_log
              (LogRecord INFO
                 "Skipping suspend animation on Windows (not supported)" None)
              w1))
  | (Raise e, w1) => apply_animations env w = (Raise e, w1)
  end.
Proof.
  intros Hsys.
  assert (Hskip : forall (i : nat) (name : string) (w0 : world H),
             (i = 1%nat /\ name = "suspend")
             \/ (i = 2%nat /\ name = "throbber") ->
             apply_slot env i w0
             = (Ok tt,
                with_log
                  (LogRecord INFO
                     ("Skipping " +:+ name
                      +:+ " animation on Windows (not supported)") None)
                  w0)).
  { intros i name w0 Hi. unfold apply_slot, bind, get_config, apply_animation,
      VIDEOS_NAMES. rewrite Hsys.
    destruct Hi as [[-> ->]|[-> ->]]; reflexivity. }
  destruct (apply_slot env 0 w) as [[[]|e] w1] eqn:Hboot;
    unfold apply_animations; cbn [seq for_each]; unfold bind at 1;
    rewrite Hboot; [|reflexivity].
  unfold bind at 1. rewrite (Hskip 1%nat "suspend") by auto.
  unfold bind at 1. rewrite (Hskip 2%nat "throbber") by auto.
  reflexivity.
Qed.
End ActivationMore.

Section StoreMore.
Context {H : Type} `{!Host H} (env : environment).

Lemma removeCustomSet_store (v : pyval) (w : world H) :
  all_have "id" (custom_sets (config w)) ->
  custom_sets (config (snd (removeCustomSet env v w)))
  = List.filter (fun entry => negb (has_id v entry)) (custom_sets (config w)).
Proof.
  intros Hall.
  unfold removeCustomSet, logging_errors, try_except, bind,
    remove_custom_set, bind, get_config, put_config.
  rewrite (filter_e_id_differs v _ Hall). simpl.
  match goal with
  | |- context [save_config env ?w0] =>
      pose proof (save_config_config env w0) as Hc;
      destruct (save_config env w0) as [[[]|e] w1]
  end; simpl in *; rewrite Hc; reflexivity.
Qed.

Lemma removeCustomAnimation_store (v : pyval) (w : world H) :
  all_have "id" (custom_animations (config w)) ->
  custom_animations (config (snd (removeCustomAnimation env v w)))
  = List.filter (fun entry => negb (has_id v entry))
      (custom_animations (config w)).
Proof.
  intros Hall.
  unfold removeCustomAnimation, logging_errors, try_except, bind,
    remove_custom_animation, bind, get_config, put_config.
  rewrite (filter_e_id_differs v _ Hall). simpl.
  match goal with
  | |- context [save_config env ?w0] =>
      pose proof (save_config_config env w0) as Hc;
      destruct (save_config env w0) as [[[]|e] w1]
  end; simpl in *; rewrite Hc; reflexivity.
Qed.

Lemma filter_differs_twice (v : pyval) (l : list dict) :
  List.filter (fun x => negb (has_id v x))
    (List.filter (fun x => negb (has_id v x)) l)
  = List.filter (fun x => negb (has_id v x)) l.
Proof.
  induction l as [|x l IH]; simpl; [reflexivity|].
  destruct (has_id v x) eqn:E; simpl; [exact IH|]. rewrite E. simpl.
  f_equal. exact IH.
Qed.

Lemma filter_differs_saved (entry : dict) (v : pyval) (l : list dict) :
  entry !! "id" = Some v ->
  List.filter (fun x => negb (has_id v x))
    (List.filter (fun x => negb (has_id v x)) l ++ [entry])%list
  = List.filter (fun x => negb (has_id v x)) l.
Proof.
  intros Hid. rewrite List.filter_app, filter_differs_twice. simpl.
  unfold has_id at 2. rewrite Hid, py_eq_refl. simpl. apply app_nil_r.
Qed.

(** X12. Removing a custom set or a custom animation takes away every
    record with that identifier and keeps the others in their order,
    whether or not the configuration can then be written; removing twice
    is removing once, and removing after saving a record with that
    identifier gives what removing alone gives. *)
Theorem remove_custom_removes_all (entry : dict) (v : pyval) (w : world H) :
  entry !! "id" = Some v ->
  (all_have "id" (custom_sets (config w)) ->
   let removed := custom_sets (config (snd (removeCustomSet env v w))) in
   removed = List.filter (fun x => negb (has_id v x)) (custom_sets (config w))
   /\ count_id v removed = 0%nat
   /\ custom_sets
        (config (snd (removeCustomSet env v (snd (removeCustomSet env v w)))))
      = removed
   /\ custom_sets
        (config (snd (removeCustomSet env v (snd (saveCustomSet env entry w)))))
      = removed)
  /\ (all_have "id" (custom_animations (config w)) ->
      let removed :=
        custom_animations (config (snd (removeCustomAnimation env v w))) in
      removed = List.filter (fun x => negb (has_id v x))
                  (custom_animations (config w))
      /\ count_id v removed = 0%nat
      /\ custom_animations
           (config (snd (removeCustomAnimation env v
                           (snd (removeCustomAnimation env v w)))))
         = removed
      /\ custom_animations
           (config (snd (removeCustomAnimation env v
                           (snd (saveCustomAnimation env entry w)))))
         = removed).
Proof.
  intros Hid. split; intros Hall removed; subst removed.
  - pose proof (removeCustomSet_store v w Hall) as Hrm.
    pose proof (saveCustomSet_store env entry v w Hid Hall) as Hsave.
    destruct (upsert_pool entry v _ Hid Hall) as [_ Hall2].
    rewrite <- Hsave in Hall2.
    pose proof (all_have_filter "id" (fun x => negb (has_id v x)) _ Hall)
      as Hall1.
    rewrite <- Hrm in Hall1.
    rewrite (removeCustomSet_store v _ Hall1),
            (removeCustomSet_store v _ Hall2), Hsave, Hrm.
    rewrite filter_differs_twice, (filter_differs_saved entry v _ Hid).
    split; [reflexivity|]. split; [apply count_id_removed|auto].
  - pose proof (removeCustomAnimation_store v w Hall) as Hrm.
    pose proof (saveCustomAnimation_store env entry v w Hid Hall) as Hsave.
    destruct (upsert_pool entry v _ Hid Hall) as [_ Hall2].
    rewrite <- Hsave in Hall2.
    pose proof (all_have_filter "id" (fun x => negb (has_id v x)) _ Hall)
      as Hall1.
    rewrite <- Hrm in Hall1.
    rewrite (removeCustomAnimation_store v _ Hall1),
            (removeCustomAnimation_store v _ Hall2), Hsave, Hrm.
    rewrite filter_differs_twice, (filter_differs_saved entry v _ Hid).
    split; [reflexivity|]. split; [apply count_id_removed|auto].
Qed.

(** X13. A custom set is not taken back when it cannot be persisted:
    when writing the configuration raises, [saveCustomSet] raises that
    exception, after it was logged by [save_config] and by
    [saveCustomSet], and the store in memory has the new record all the
    same. *)
Theorem save_failure_keeps_entry (entry : dict) (v : pyval) (w : world H)
    (e : exn) (h' : H) :
  entry !! "id" = Some v ->
  all_have "id" (custom_sets (config w)) ->
  let c' :=
    set_custom_sets
      (List.filter (fun x => negb (has_id v x)) (custom_sets (config w))
       ++ [entry])%list (config w) in
  json_dump (CONFIG_PATH env) (DocConfig c') (host w) = (Some e, h') ->
  saveCustomSet env entry w
  = (Raise e,
     World c' (local_animations w) (local_sets w) (animation_cache w) h'
       (logged w
        ++ [LogRecord ERROR "Failed to save config" (Some e);
            LogRecord ERROR "Failed to save custom set" (Some e)])%list).
Proof.
  intros Hid Hall c' Hdump.
  unfold saveCustomSet, logging_errors, try_except, bind, getitem,
    remove_custom_set, bind, get_config, put_config, save_config, bind,
    get_config, try_except, call, raise_and_log, bind, logger, raise.
  rewrite Hid. simpl. rewrite (filter_e_id_differs v _ Hall). simpl.
  subst c'. unfold set_custom_sets in *. simpl in Hdump |- *. rewrite Hdump.
  simpl. rewrite <- app_assoc. reflexivity.
Qed.
End StoreMore.

Section DownloadsMore.
Context {H : Type} `{!Host H} `{!HostFiles H} (env : environment).

Lemma not_contains_filtered (v : pyval) (l : list dict) :
  ~ contains (List.filter (fun x => negb (has_id v x)) l) v.
Proof.
  unfold contains, first_with_id. intros [entry Hf].
  apply find_some in Hf as [Hin Hid].
  apply List.filter_In in Hin as [_ Hne]. rewrite Hid in Hne. discriminate.
Qed.

Lemma find_by_id_absent (l : list dict) (v : pyval) (k : nat) :
  all_have "id" l -> ~ contains l v -> find_by_id l v k = inr None.
Proof.
  intros Hall Hno.
  destruct (find_by_id_first l v Hall k) as (r & Hr & Hf).
  rewrite Hr. destruct r as [[j entry]|]; [|reflexivity].
  exfalso. apply Hno. unfold contains. rewrite <- Hf. simpl. eauto.
Qed.

Lemma find_by_id_present (l : list dict) (v : pyval) (k : nat) :
  all_have "id" l -> contains l v ->
  exists j entry, find_by_id l v k = inr (Some (j, entry))
                  /\ first_with_id l v = Some entry.
Proof.
  intros Hall [entry Hc].
  destruct (find_by_id_first l v Hall k) as (r & Hr & Hf).
  rewrite Hr. rewrite Hc in Hf. destruct r as [[j entry']|]; [|discriminate].
  injection Hf as ->. eauto.
Qed.

(** An identifier that no pool has resolves to nothing. *)
Lemma resolve_absent (s : string) (w : world H) :
  all_have "id" (downloads (config w)) ->
  all_have "id" (custom_animations (config w)) ->
  all_have "id" (local_animations w) ->
  ~ contains (downloads (config w)) (VStr s) ->
  ~ contains (custom_animations (config w)) (VStr s) ->
  ~ contains (local_animations w) (VStr s) ->
  fst (resolve env (VStr s) w) = Raise (NotFoundError (VStr s)).
Proof.
  intros Hd Hc Hl Nd Nc Nl.
  unfold resolve, bind at 1, find_path, bind, get_config.
  rewrite (find_by_id_absent _ _ 0 Hd Nd). simpl.
  rewrite (find_by_id_absent _ _ 0 Hc Nc). simpl.
  rewrite (find_by_id_absent _ _ 0 Hl Nl). simpl.
  reflexivity.
Qed.

(** A downloaded identifier resolves to its file in the download
    directory. *)
Lemma find_path_downloaded (s : string) (w : world H) :
  all_have "id" (downloads (config w)) ->
  contains (downloads (config w)) (VStr s) ->
  find_path env (VStr s) w
  = (Ok (VStr (path_join (DOWNLOADS_PATH env) (s +:+ ".webm"))), w).
Proof.
  intros Hd Hc.
  destruct (find_by_id_present _ _ 0 Hd Hc) as (j & entry & Hf & _).
  unfold find_path, bind, get_config. rewrite Hf. reflexivity.
Qed.

Lemma deleteAnimation_config (v : pyval) (w : world H) :
  all_have "id" (downloads (config w)) ->
  let w' := snd (deleteAnimation env v w) in
  config w'
  = set_downloads
      (List.filter (fun x => negb (has_id v x)) (downloads (config w)))
      (config w)
  /\ local_animations w' = local_animations w.
Proof.
  intros Hall w'. subst w'.
  remember (deleteAnimation env v w) as run eqn:Hrun.
  unfold deleteAnimation, logging_errors, try_except in Hrun.
  unfold bind at 1, get_config at 1 in Hrun.
  unfold bind at 1 in Hrun.
  rewrite (filter_e_id_differs v _ Hall) in Hrun.
  unfold lift, ret at 1 in Hrun. cbv beta iota in Hrun.
  unfold bind at 1, put_config at 1 in Hrun.
  unfold bind at 1 in Hrun.
  match type of Hrun with
  | context [save_config env ?w0] =>
      pose proof (save_config_config env w0) as Hcfg;
      assert (Hla : local_animations (snd (save_config env w0))
                    = local_animations w);
      [ unfold save_config, bind, get_config, try_except, call,
          raise_and_log, bind, logger, raise; simpl;
        match goal with
        | |- context [json_dump ?p ?d ?h] =>
            destruct (json_dump p d h) as [[e|] h1]; reflexivity
        end
      | destruct (save_config env w0) as [[[]|e] w1] ]
  end; simpl in Hcfg, Hla.
  - unfold bind, ask, call, logger, raise, ret in Hrun.
    destruct (path_exists _ (host w1)).
    + destruct (os_remove _ (host w1)) as [[e|] h2];
        subst run; simpl; rewrite Hcfg, Hla; auto.
    + subst run; simpl; rewrite Hcfg, Hla; auto.
  - unfold bind, logger, raise in Hrun. subst run. simpl.
    rewrite Hcfg, Hla. auto.
Qed.

(** X14. After [deleteAnimation], whatever its outcome, the downloads
    have no record of the identifier and the other records are as they
    were; and when neither the custom animations nor the local entries
    have the identifier, resolving it raises the exception for a missing
    animation. *)
Theorem deleted_animation_cannot_be_resolved (s : string) (w : world H) :
  all_have "id" (downloads (config w)) ->
  all_have "id" (custom_animations (config w)) ->
  all_have "id" (local_animations w) ->
  let w' := snd (deleteAnimation env (VStr s) w) in
  downloads (config w')
  = List.filter (fun x => negb (has_id (VStr s) x)) (downloads (config w))
  /\ count_id (VStr s) (downloads (config w')) = 0%nat
  /\ (~ contains (custom_animations (config w)) (VStr s) ->
      ~ contains (local_animations w) (VStr s) ->
      fst (resolve env (VStr s) w') = Raise (NotFoundError (VStr s))).
Proof.
  intros Hd Hc Hl w'. subst w'.
  destruct (deleteAnimation_config (VStr s) w Hd) as [Hcfg Hla].
  cbv zeta in Hcfg, Hla. rewrite Hcfg. simpl.
  split; [reflexivity|]. split; [apply count_id_removed|].
  intros Nc Nl. apply resolve_absent; rewrite ?Hcfg, ?Hla; simpl; auto.
  - apply all_have_filter. exact Hd.
  - apply not_contains_filtered.
Qed.
Lemma find_cached_animation_eq (v : pyval) (w : world H) :
  all_have "id" (animation_cache w) ->
  find_cached_animation v w = (Ok (first_with_id (animation_cache w) v), w).
Proof.
  intros Hall. unfold find_cached_animation.
  destruct (find_by_id_first _ v Hall 0) as (r & Hr & Hf).
  rewrite Hr, Hf. reflexivity.
Qed.

(** X15. Downloading an animation that is among the downloads does
    nothing at all: no request, no file, no change of the configuration,
    no line in the log. *)
Theorem download_again_is_noop (v : pyval) (w : world H) :
  all_have "id" (downloads (config w)) ->
  contains (downloads (config w)) v ->
  downloadAnimation env v w = (Ok tt, w).
Proof.
  intros Hall Hc.
  destruct (find_by_id_present _ _ 0 Hall Hc) as (j & entry & Hf & _).
  unfold downloadAnimation, logging_errors, try_except, bind, get_config.
  rewrite Hf. reflexivity.
Qed.

(** X16. An animation that the cache does not have cannot be
    downloaded: [downloadAnimation] raises before any request is made,
    the machine and the configuration are untouched, and the failure is
    logged twice. *)
Theorem download_unknown_makes_no_request (v : pyval) (w : world H) :
  all_have "id" (downloads (config w)) ->
  all_have "id" (animation_cache w) ->
  ~ contains (downloads (config w)) v ->
  ~ contains (animation_cache w) v ->
  let e := Exception ("Failed to find cached animation with id: "
                      +:+ py_str v) in
  downloadAnimation env v w
  = (Raise e,
     with_log (LogRecord ERROR "Failed to download animation" (Some e))
       (with_log
          (LogRecord ERROR
             ("Failed to find cached animation with id: " +:+ py_str v) None)
          w)).
Proof.
  intros Hd Hcache Nd Nc e. subst e.
  unfold downloadAnimation, logging_errors, try_except.
  unfold bind at 1, get_config at 1. unfold bind at 1.
  rewrite (find_by_id_absent _ _ 0 Hd Nd). unfold lift at 1, ret at 1.
  cbv beta iota. unfold bind at 1.
  rewrite (find_cached_animation_eq v w Hcache).
  destruct (first_with_id (animation_cache w) v) as [anim|] eqn:Hf.
  - exfalso. apply Nc. unfold contains. rewrite Hf. eauto.
  - reflexivity.
Qed.

(** X17. A download that is not answered with status 200 leaves no
    trace but the request and the log: [downloadAnimation] raises with
    the status in the message, nothing is written and the downloads are
    as before. *)
Theorem download_refused_writes_nothing (v url : pyval) (anim : dict)
    (w : world H) (status : Z) (data : exn + string) (h1 : H) :
  all_have "id" (downloads (config w)) ->
  all_have "id" (animation_cache w) ->
  ~ contains (downloads (config w)) v ->
  first_with_id (animation_cache w) v = Some anim ->
  anim !! "download_url" = Some url ->
  http_get_file url (truthy (force_ipv4 (config w))) (host w)
  = (FileResponse status data, h1) ->
  status <> 200%Z ->
  let e := Exception ("Invalid download request status: "
                      +:+ str_of_Z status) in
  downloadAnimation env v w
  = (Raise e,
     with_log (LogRecord ERROR "Failed to download animation" (Some e))
       (with_log
          (LogRecord ERROR
             ("Invalid download request status: " +:+ str_of_Z status) None)
          (with_host h1 w))).
Proof.
  intros Hd Hcache Nd Hf Hurl Hget Hst e. subst e.
  unfold downloadAnimation, logging_errors, try_except.
  unfold bind at 1, get_config at 1. unfold bind at 1.
  rewrite (find_by_id_absent _ _ 0 Hd Nd). unfold lift at 1, ret at 1.
  cbv beta iota. unfold bind at 1.
  rewrite (find_cached_animation_eq v w Hcache), Hf.
  unfold bind at 1, ret at 1. unfold bind at 1, getitem. rewrite Hurl.
  unfold lift at 1, ret at 1. cbv beta iota.
  unfold bind at 1, request_file at 1. rewrite Hget.
  apply Z.eqb_neq in Hst. unfold bind at 1. rewrite Hst.
  reflexivity.
Qed.

(** X18. A download that succeeds can be resolved: once the file is
    written, the cached record is the last of the downloads, whether or
    not the configuration can then be saved, and the identifier resolves
    to the very path the file was written to. *)
Theorem downloaded_animation_resolves (s : string) (url : pyval)
    (anim : dict) (w : world H) (data : string) (h1 h2 : H) :
  all_have "id" (downloads (config w)) ->
  all_have "id" (animation_cache w) ->
  ~ contains (downloads (config w)) (VStr s) ->
  first_with_id (animation_cache w) (VStr s) = Some anim ->
  anim !! "download_url" = Some url ->
  http_get_file url (truthy (force_ipv4 (config w))) (host w)
  = (FileResponse 200 (inr data), h1) ->
  let download_file := path_join (DOWNLOADS_PATH env) (s +:+ ".webm") in
  write_bytes download_file data h1 = (None, h2) ->
  let w' := snd (downloadAnimation env (VStr s) w) in
  downloads (config w') = (downloads (config w) ++ [anim])%list
  /\ find_path env (VStr s) w' = (Ok (VStr download_file), w')
  /\ (fst (save_config env
             (with_config
                (set_downloads (downloads (config w) ++ [anim])%list
                   (config w)) (with_host h2 w))) = Ok tt ->
      fst (downloadAnimation env (VStr s) w) = Ok tt).
Proof.
  intros Hd Hcache Nd Hf Hurl Hget download_file Hwrite w'. subst w'.
  assert (Hrun : downloadAnimation env (VStr s) w
                 = logging_errors "Failed to download animation"
                     (save_config env)
                     (with_config
                        (set_downloads (downloads (config w) ++ [anim])%list
                           (config w)) (with_host h2 w))).
  { unfold downloadAnimation, logging_errors, try_except.
    unfold bind at 1, get_config at 1. unfold bind at 1.
    rewrite (find_by_id_absent _ _ 0 Hd Nd). unfold lift at 1, ret at 1.
    cbv beta iota. unfold bind at 1.
    rewrite (find_cached_animation_eq (VStr s) w Hcache), Hf.
    unfold bind at 1, ret at 1. unfold bind at 1, getitem. rewrite Hurl.
    unfold lift at 1, ret at 1. cbv beta iota.
    unfold bind at 1, request_file at 1. rewrite Hget.
    unfold bind at 1. change (200 =? 200)%Z with true. cbn [negb].
    unfold lift at 1, ret at 1. cbv beta iota.
    unfold bind at 1, call at 1. cbn [host py_str].
    fold download_file. rewrite Hwrite.
    unfold bind at 1. unfold bind at 1, get_config at 1, put_config at 1.
    reflexivity. }
  rewrite Hrun.
  set (w2 := with_config _ (with_host h2 w)).
  assert (Hcfg : config (snd (logging_errors "Failed to download animation"
                                (save_config env) w2)) = config w2).
  { pose proof (save_config_config env w2) as Hc.
    unfold logging_errors, try_except, bind, logger, raise.
    destruct (save_config env w2) as [[[]|e] w3]; exact Hc. }
  split; [rewrite Hcfg; reflexivity|]. split.
  - apply find_path_downloaded; rewrite Hcfg; simpl.
    + apply Forall_app. split; [exact Hd|].
      constructor; [|constructor].
      apply find_some in Hf as [_ Hid]. unfold has_id in Hid.
      destruct (anim !! "id"); [eauto|discriminate].
    + apply contains_elem. apply find_some in Hf as [_ Hid].
      unfold has_id in Hid.
      destruct (anim !! "id") as [x|] eqn:Ex; [|discriminate].
      exists anim, x. rewrite elem_of_app, elem_of_cons. auto.
  - intros Hok. unfold logging_errors, try_except.
    destruct (save_config env w2) as [[[]|e] w3]; [reflexivity|discriminate].
Qed.
End DownloadsMore.

Section RegenerateMore.
Context {H : Type} `{!Host H} `{!HostFiles H} (env : environment).

Lemma string_length_append (a b : string) :
  String.length (a +:+ b) = (String.length a + String.length b)%nat.
Proof. induction a as [|c a IH]; simpl; [reflexivity|]. rewrite IH. lia. Qed.

Lemma substring_prefix (a b : string) :
  String.substring 0 (String.length a) (a +:+ b) = a.
Proof.
  induction a as [|c a IH]; simpl.
  - destruct b; reflexivity.
  - rewrite IH. reflexivity.
Qed.

Lemma drop_last_append (a b : string) :
  drop_last (String.length b) (a +:+ b) = a.
Proof.
  unfold drop_last. rewrite string_length_append.
  replace (String.length a + String.length b - String.length b)%nat
    with (String.length a) by lia.
  apply substring_prefix.
Qed.

Lemma drop_last_webm (a : string) : drop_last 5 (a +:+ ".webm") = a.
Proof. exact (drop_last_append a ".webm"). Qed.

Lemma endswith_append (a b : string) : endswith (a +:+ b) b = true.
Proof.
  induction a as [|c a IH].
  - change ("" +:+ b) with b.
    destruct b as [|d b]; cbn [endswith]; rewrite String.eqb_refl;
      reflexivity.
  - change (String c a +:+ b) with (String c (a +:+ b)). cbn [endswith].
    destruct (String.eqb (String c (a +:+ b)) b); [reflexivity|exact IH].
Qed.

Lemma endswith_split (s suffix : string) :
  endswith s suffix = true -> exists a, s = a +:+ suffix.
Proof.
  induction s as [|c s IH]; cbn [endswith].
  - destruct suffix; [exists ""; reflexivity|discriminate].
  - destruct (String.eqb (String c s) suffix) eqn:E.
    + apply String.eqb_eq in E. exists "". rewrite E. reflexivity.
    + intros Hs. destruct (IH Hs) as [a ->]. exists (String c a). reflexivity.
Qed.

(** The name of the file of a download leads back to its
    identifier: [<id>.webm] ends in [.webm] and, without its last five
    characters, is [<id>] again; and a name that ends in [.webm] is the
    name of the file of the identifier that [regenerate_downloads] reads
    from it. *)
Lemma download_file_name_round_trip (s file : string) :
  (endswith (s +:+ ".webm") ".webm" = true
   /\ drop_last 5 (s +:+ ".webm") = s)
  /\ (endswith file ".webm" = true ->
      file = drop_last 5 file +:+ ".webm").
Proof.
  split; [split|].
  - apply endswith_append.
  - apply drop_last_webm.
  - intros Hs. destruct (endswith_split _ _ Hs) as [a ->].
    rewrite drop_last_webm. reflexivity.
Qed.

Lemma regenerate_file_eq (file : string) (acc : list dict) (w : world H) :
  all_have "id" (animation_cache w) ->
  exists w',
    regenerate_file file acc w
    = (Ok (acc ++ from_option (fun a => [a]) []
                    (cached_file (animation_cache w) file))%list, w')
    /\ host w' = host w /\ same_globals w w'.
Proof.
  intros Hall. unfold regenerate_file, cached_file.
  destruct (endswith file ".webm"); cbn [negb].
  - unfold bind at 1. rewrite (find_cached_animation_eq _ w Hall).
    destruct (first_with_id (animation_cache w) (VStr (drop_last 5 file))).
    + exists w. split; [reflexivity|].
      split; [reflexivity|apply same_globals_refl].
    + eexists. unfold bind, logger, ret. simpl. rewrite app_nil_r.
      split; [reflexivity|]. split; [reflexivity|repeat split].
  - exists w. unfold ret. simpl. rewrite app_nil_r.
    split; [reflexivity|]. split; [reflexivity|apply same_globals_refl].
Qed.

Lemma regenerate_files_eq (files : list string) :
  forall (acc : list dict) (w : world H),
    all_have "id" (animation_cache w) ->
    exists w',
      regenerate_files files acc w
      = (Ok (acc ++ omap (cached_file (animation_cache w)) files)%list, w')
      /\ host w' = host w /\ same_globals w w'.
Proof.
  induction files as [|file r IH]; intros acc w Hall.
  - exists w. simpl. rewrite app_nil_r. unfold ret.
    split; [reflexivity|]. split; [reflexivity|apply same_globals_refl].
  - destruct (regenerate_file_eq file acc w Hall) as (w1 & Hone & Hh1 & Hg1).
    cbn [regenerate_files]. unfold bind at 1. rewrite Hone.
    assert (Hc1 : animation_cache w1 = animation_cache w) by apply Hg1.
    destruct (IH (acc ++ from_option (fun a => [a]) []
                          (cached_file (animation_cache w) file))%list w1)
      as (w2 & Hrest & Hh2 & Hg2); [rewrite Hc1; exact Hall|].
    exists w2. rewrite Hrest, Hc1.
    split; [|split; [congruence|eapply same_globals_trans; eassumption]].
    f_equal. f_equal. rewrite <- app_assoc. f_equal.
    simpl. destruct (cached_file (animation_cache w) file); reflexivity.
Qed.

(** X19. With a cache that is not empty, [regenerate_downloads] makes
    no request and rebuilds the downloads from the files of the download
    directory and the cache: every record it puts among the downloads is
    a record of the cache whose [<id>.webm] is in the directory, and
    every [<id>.webm] of the directory that the cache knows gets its
    record; the rest of the configuration and the machine are as
    before. *)
Theorem regenerated_downloads_from_cache (w : world H)
    (files : list string) :
  animation_cache w <> [] ->
  all_have "id" (animation_cache w) ->
  os_listdir (DOWNLOADS_PATH env) (host w) = inr files ->
  let run := regenerate_downloads env w in
  fst run = Ok tt
  /\ host (snd run) = host w
  /\ same_but_downloads (config w) (config (snd run))
  /\ (forall a, a ∈ downloads (config (snd run)) ->
                a ∈ animation_cache w
                /\ exists s, a !! "id" = Some (VStr s)
                             /\ (s +:+ ".webm") ∈ files)
  /\ (forall s, (s +:+ ".webm") ∈ files ->
                contains (animation_cache w) (VStr s) ->
                contains (downloads (config (snd run))) (VStr s)).
Proof.
  intros Hne Hall Hls run. subst run.
  destruct (regenerate_files_eq files [] w Hall)
    as (w1 & Hfiles & Hh1 & (Hc1 & _)).
  assert (Hrun : regenerate_downloads env w
                 = (Ok tt,
                    with_config
                      (set_downloads
                         (omap (cached_file (animation_cache w)) files)
                         (config w1)) w1)).
  { unfold regenerate_downloads. unfold bind at 1. cbv beta iota.
    destruct (animation_cache w) as [|a cache] eqn:Hcache; [congruence|].
    cbn [length Nat.eqb]. unfold bind at 1, ret at 1.
    unfold bind at 1. rewrite Hls. unfold lift at 1, ret at 1.
    cbv beta iota. unfold bind at 1. rewrite Hfiles. reflexivity. }
  rewrite Hrun. cbn [fst snd]. simpl.
  split; [reflexivity|]. split; [exact Hh1|].
  split; [unfold same_but_downloads; rewrite Hc1; reflexivity|].
  split.
  - intros a Ha. apply list_elem_of_omap in Ha as (file & Hfile & Hc).
    unfold cached_file in Hc.
    destruct (endswith file ".webm") eqn:Hend; [|discriminate].
    unfold first_with_id in Hc. apply find_some in Hc as [Hin Hid].
    split; [apply list_elem_of_In; exact Hin|].
    unfold has_id in Hid. destruct (a !! "id") as [x|]; [|discriminate].
    apply py_eq_str in Hid. subst x.
    exists (drop_last 5 file). split; [reflexivity|].
    destruct (endswith_split _ _ Hend) as [pre ->].
    rewrite drop_last_webm. exact Hfile.
  - intros s Hfile [a Ha].
    assert (Hcf : cached_file (animation_cache w) (s +:+ ".webm") = Some a).
    { unfold cached_file. rewrite endswith_append.
      rewrite drop_last_webm. exact Ha. }
    apply contains_elem. unfold first_with_id in Ha.
    apply find_some in Ha as [_ Hid]. unfold has_id in Hid.
    destruct (a !! "id") as [x|] eqn:Ex; [|discriminate].
    exists a, x. split; [|auto].
    apply list_elem_of_omap. eauto.
Qed.
End RegenerateMore.

Section ConfigMore.
Context {H : Type} `{!Host H} `{!HostFiles H} (env : environment).






End ConfigMore.

Section EdgesMore.
Context {H : Type} `{!Host H} (env : environment).

(** X21. [get_steam_paths] gives three paths or none: the override and
    the [steamui] directory are built on the root it names, and the
    root is never the empty string under Windows.  It gives none only
    under Windows, when the registry names the empty path, or when the
    registry cannot be read and neither usual directory exists. *)
Theorem get_steam_paths_all_or_none (join : string -> string -> string)
    (system : platform) (expanduser : string -> string)
    (registry : exn + string) (exists_ : string -> bool) :
  match get_steam_paths join system expanduser registry exists_ with
  | (Some override, Some steamui, Some root) =>
      override = join (join (join root "config") "uioverrides") "movies"
      /\ steamui = join (join root "steamui") "movies"
      /\ (system = Windows -> root <> "")
  | (None, None, None) =>
      system = Windows
      /\ match registry with
         | inr steam_path => steam_path = ""
         | inl _ =>
             exists_ "C:\Program Files (x86)\Steam" = false
             /\ exists_ "C:\Program Files\Steam" = false
         end
  | _ => False
  end.
Proof.
  unfold get_steam_paths, steam_dirs.
  destruct system; [repeat split; discriminate| |repeat split; discriminate].
  destruct registry as [e|steam_path].
  - simpl. destruct (exists_ "C:\Program Files (x86)\Steam") eqn:E1; simpl.
    + repeat split. discriminate.
    + destruct (exists_ "C:\Program Files\Steam") eqn:E2; simpl.
      * repeat split. discriminate.
      * auto.
  - destruct steam_path as [|c r]; simpl; [auto|].
    repeat split. discriminate.
Qed.

(** X22. Without a Steam root under Windows nothing can be activated:
    when both directories are unknown, the activation of the boot slot
    raises [TypeError] before anything is touched, whatever the slot
    holds, and so does [apply_animations]. *)
Theorem no_steam_root_no_activation (w : world H) :
  system env = Windows ->
  STEAMUI_MOVIES_PATH env = None ->
  OVERRIDE_PATH env = None ->
  exists msg, apply_animations env w = (Raise (TypeError msg), w).
Proof.
  intros Hsys Hui Hov. eexists.
  unfold apply_animations. cbn [seq for_each]. unfold bind at 1.
  unfold apply_slot, bind at 1, get_config at 1, apply_animation,
    VIDEOS_NAMES, select_target.
  rewrite Hsys, Hui, Hov. reflexivity.
Qed.

Lemma filter_e_missing_enabled (l : list dict) :
  (exists entry, entry ∈ l /\ entry !! "enabled" = None) ->
  filter_e is_enabled l = inl (KeyError "enabled").
Proof.
  induction l as [|x l IH]; intros (entry & Hin & Hno).
  - inversion Hin.
  - simpl. unfold is_enabled at 1, getitem.
    destruct (x !! "enabled") as [v|] eqn:Ex; [|reflexivity].
    rewrite IH; [reflexivity|].
    apply elem_of_cons in Hin as [->|Hin]; [congruence|eauto].
Qed.

(** X23. A set without the member [enabled], local or custom, blocks
    the randomization by set: [randomize_current_set] raises
    [KeyError] and leaves everything as it was, whatever other sets
    there are. *)
Theorem set_without_enabled_blocks_randomize (w : world H) (entry : dict) :
  entry ∈ (local_sets w ++ custom_sets (config w))%list ->
  entry !! "enabled" = None ->
  randomize_current_set w = (Raise (KeyError "enabled"), w).
Proof.
  intros Hin Hno.
  unfold randomize_current_set, bind, get_active_sets.
  rewrite filter_e_missing_enabled by eauto. reflexivity.
Qed.
End EdgesMore.

Section Frames.
Context {H : Type} `{!Host H}.

Lemma keeps_ret {A} (a : A) : keeps_globals (ret a : M H A).
Proof. intros w. apply same_globals_refl. Qed.

Lemma keeps_raise {A} (e : exn) : keeps_globals (raise e : M H A).
Proof. intros w. apply same_globals_refl. Qed.

Lemma keeps_bind {A B} (m : M H A) (f : A -> M H B) :
  keeps_globals m -> (forall a, keeps_globals (f a)) ->
  keeps_globals (bind m f).
Proof.
  intros Hm Hf w. unfold bind. specialize (Hm w).
  destruct (m w) as [[a|e] w1]; simpl in *; [|exact Hm].
  eapply same_globals_trans; [exact Hm|apply Hf].
Qed.

Lemma keeps_try_except {A} (m : M H A) (handler : exn -> M H A) :
  keeps_globals m -> (forall e, keeps_globals (handler e)) ->
  keeps_globals (try_except m handler).
Proof.
  intros Hm Hh w. unfold try_except. specialize (Hm w).
  destruct (m w) as [[a|e] w1]; simpl in *; [exact Hm|].
  eapply same_globals_trans; [exact Hm|apply Hh].
Qed.

Lemma keeps_logger (l : level) (msg : string) (ex : option exn) :
  keeps_globals (logger l msg ex : M H unit).
Proof. intros w. repeat split. Qed.

Lemma keeps_ask {A} (q : H -> A) : keeps_globals (ask q).
Proof. intros w. repeat split. Qed.

Lemma keeps_call (op : H -> option exn * H) : keeps_globals (call op).
Proof.
  intros w. unfold call. destruct (op (host w)) as [[e|] h]; repeat split.
Qed.

Lemma keeps_lift {A} (r : exn + A) : keeps_globals (lift r : M H A).
Proof. intros w. destruct r; apply same_globals_refl. Qed.

Lemma keeps_get_config : keeps_globals (get_config : M H cfg).
Proof. intros w. apply same_globals_refl. Qed.

Lemma keeps_raise_and_log {A} (msg : string) (ex : option exn) :
  keeps_globals (raise_and_log msg ex : M H A).
Proof.
  unfold raise_and_log. apply keeps_bind; [apply keeps_logger|].
  intros _. destruct ex; apply keeps_raise.
Qed.

Lemma keeps_for_each {A} (l : list A) (body : A -> M H unit) :
  (forall a, keeps_globals (body a)) -> keeps_globals (for_each l body).
Proof.
  intros Hbody. induction l as [|x r IH]; [apply keeps_ret|].
  cbn [for_each]. apply keeps_bind; [apply Hbody|intros _; exact IH].
Qed.

Lemma keeps_logging_errors {A} (msg : string) (m : M H A) :
  keeps_globals m -> keeps_globals (logging_errors msg m).
Proof.
  intros Hm. unfold logging_errors. apply keeps_try_except; [exact Hm|].
  intros e. apply keeps_bind; [apply keeps_logger|intros _; apply keeps_raise].
Qed.
End Frames.

Create HintDb frame.

#[local] Hint Resolve keeps_ret keeps_raise keeps_logger keeps_ask keeps_call
  keeps_lift keeps_get_config keeps_raise_and_log : frame.

Section OperationsMore.
Context {H : Type} `{!Host H} `{!HostFiles H} (env : environment).

Lemma keeps_save_config : keeps_globals (save_config env : M H unit).
Proof.
  unfold save_config. apply keeps_bind; [auto with frame|]. intros c.
  apply keeps_try_except; auto with frame.
Qed.

Lemma keeps_select_target (video : string) :
  keeps_globals (select_target env video : M H (string * bool)).
Proof.
  unfold select_target.
  destruct (bool_decide (system env = Windows)
            && truthy_path (STEAMUI_MOVIES_PATH env)).
  - apply keeps_bind; [auto with frame|]. intros has_backup.
    apply keeps_bind; [auto with frame|]. intros has_target.
    apply keeps_bind; [|auto with frame].
    destruct (negb has_backup && has_target); [|auto with frame].
    apply keeps_try_except; [|auto with frame].
    apply keeps_bind; auto with frame.
  - destruct (OVERRIDE_PATH env); auto with frame.
Qed.

Lemma keeps_remove_existing (target_path : string) :
  keeps_globals (remove_existing target_path : M H unit).
Proof.
  unfold remove_existing.
  apply keeps_bind; [auto with frame|]. intros is_link.
  apply keeps_bind; [auto with frame|]. intros present.
  destruct (is_link || present); [|auto with frame].
  apply keeps_try_except; auto with frame.
Qed.

Lemma keeps_restore_default (target_path : string) (use_steamui : bool) :
  keeps_globals (restore_default target_path use_steamui : M H unit).
Proof.
  unfold restore_default. destruct use_steamui; [|auto with frame].
  apply keeps_bind; [auto with frame|]. intros [|]; [|auto with frame].
  apply keeps_try_except; [|auto with frame].
  apply keeps_bind; auto with frame.
Qed.

Lemma keeps_find_path (anim_id : pyval) :
  keeps_globals (find_path env anim_id : M H pyval).
Proof.
  unfold find_path. apply keeps_bind; [auto with frame|]. intros c.
  apply keeps_bind; [auto with frame|]. intros [found|]; [auto with frame|].
  apply keeps_bind; [auto with frame|].
  intros [[k anim]|]; [auto with frame|].
  apply keeps_bind; [intros w; apply same_globals_refl|]. intros locals.
  apply keeps_bind; [auto with frame|]. intros [found|]; [|auto with frame].
  destruct anim_id; auto with frame.
Qed.

Lemma keeps_resolve (anim_id : pyval) :
  keeps_globals (resolve env anim_id : M H pyval).
Proof.
  unfold resolve. apply keeps_bind; [apply keeps_find_path|]. intros path.
  apply keeps_bind; [auto with frame|]. intros on_disk.
  destruct (negb on_disk); auto with frame.
Qed.

Lemma keeps_link_or_copy (path : pyval) (target_path : string)
    (use_steamui : bool) :
  keeps_globals (link_or_copy env path target_path use_steamui : M H unit).
Proof.
  assert (Hsym : keeps_globals (symlink path target_path : M H unit))
    by (unfold symlink; destruct path; auto with frame).
  assert (Hcopy : keeps_globals (copy2 path target_path : M H unit))
    by (unfold copy2; destruct path; auto with frame).
  unfold link_or_copy. apply keeps_try_except.
  - apply keeps_bind; [exact Hsym|auto with frame].
  - intros e. destruct (is_OSError_or_NotImplementedError e);
      [|auto with frame].
    destruct (bool_decide (system env = Windows) || use_steamui);
      [|auto with frame].
    apply keeps_try_except; [|auto with frame].
    apply keeps_bind; [auto with frame|intros _; exact Hcopy].
Qed.

Lemma keeps_apply_animation (video : string) (anim_id : pyval) :
  keeps_globals (apply_animation env video anim_id : M H unit).
Proof.
  unfold apply_animation.
  match goal with
  | |- keeps_globals (if ?b then _ else _) => destruct b
  end; [auto with frame|].
  apply keeps_bind; [apply keeps_select_target|].
  intros [target_path use_steamui].
  apply keeps_bind; [apply keeps_remove_existing|]. intros _.
  destruct (py_eq anim_id (VStr "")); [apply keeps_restore_default|].
  apply keeps_bind; [apply keeps_resolve|]. intros path.
  apply keeps_link_or_copy.
Qed.

Lemma keeps_apply_animations :
  keeps_globals (apply_animations env : M H unit).
Proof.
  unfold apply_animations. apply keeps_for_each. intros i.
  unfold apply_slot. apply keeps_bind; [auto with frame|]. intros c.
  apply keeps_apply_animation.
Qed.

(** X25. Activation changes nothing but files and the log: whether it
    succeeds or fails, and at whichever slot, the configuration, the
    local entries and sets and the cache are what they were, for one
    slot and for all three. *)
Theorem activation_keeps_globals (w : world H) :
  same_globals w (snd (apply_animations env w))
  /\ forall (video : string) (anim_id : pyval),
       same_globals w (snd (apply_animation env video anim_id w)).
Proof.
  split; [apply keeps_apply_animations|].
  intros video anim_id. apply keeps_apply_animation.
Qed.

(** What [try: m except: log; raise] makes of a run of [m]. *)
Lemma logging_errors_run {A} (msg : string) (m : M H A) (w : world H) :
  logging_errors msg m w
  = match m w with
    | (Ok a, w') => (Ok a, w')
    | (Raise e, w') => (Raise e, with_log (LogRecord ERROR msg (Some e)) w')
    end.
Proof.
  unfold logging_errors, try_except.
  destruct (m w) as [[a|e] w']; reflexivity.
Qed.

(** [save_config] when the file cannot be written. *)
Lemma save_config_fails (w : world H) (e : exn) (h' : H) :
  json_dump (CONFIG_PATH env) (DocConfig (config w)) (host w) = (Some e, h') ->
  save_config env w
  = (Raise e,
     with_log (LogRecord ERROR "Failed to save config" (Some e))
       (with_host h' w)).
Proof.
  intros Hdump.
  unfold save_config, bind, get_config, try_except, call, raise_and_log,
    bind, logger, raise.
  rewrite Hdump. reflexivity.
Qed.

(** The three steps of [randomize] and of [saveSettings]: a change of
    the configuration, [save_config], [apply_animations]. *)
Lemma change_save_apply (msg : string) (change : M H unit) (w : world H) :
  let changed := change w in
  let run :=
    logging_errors msg
      (bind change (fun _ => bind (save_config env)
                                (fun _ => apply_animations env))) w in
  config (snd run) = config (snd changed)
  /\ local_animations (snd run) = local_animations (snd changed)
  /\ local_sets (snd run) = local_sets (snd changed)
  /\ (forall e, fst changed = Raise e ->
                fst run = Raise e /\ host (snd run) = host (snd changed))
  /\ (forall e h',
        fst changed = Ok tt ->
        json_dump (CONFIG_PATH env) (DocConfig (config (snd changed)))
          (host (snd changed)) = (Some e, h') ->
        fst run = Raise e /\ host (snd run) = h').
Proof.
  cbv zeta.
  remember (logging_errors msg
              (bind change (fun _ => bind (save_config env)
                                        (fun _ => apply_animations env))) w)
    as run eqn:Hrun.
  rewrite logging_errors_run in Hrun. unfold bind at 1 in Hrun.
  destruct (change w) as [[[]|e] w1] eqn:Hchange; cbn [fst snd].
  - unfold bind at 1 in Hrun.
    pose proof (keeps_save_config w1) as (Sc & Sa & Ss & _).
    destruct (save_config env w1) as [[[]|e] w2] eqn:Hsave;
      cbn [fst snd] in Sc, Sa, Ss.
    + pose proof (keeps_apply_animations w2) as (Ac & Aa & As & _).
      assert (Hnot : forall e' h',
                 json_dump (CONFIG_PATH env) (DocConfig (config w1)) (host w1)
                 = (Some e', h') -> False).
      { intros e' h' Hdump.
        rewrite (save_config_fails w1 e' h' Hdump) in Hsave.
        discriminate Hsave. }
      destruct (apply_animations env w2) as [[[]|e] w3];
        cbn [fst snd] in Ac, Aa, As; subst run;
        unfold with_log; cbn [fst snd config local_animations local_sets host];
        (split; [congruence|]); (split; [congruence|]);
        (split; [congruence|]);
        (split; [intros e' He'; discriminate He'|]);
        intros e' h' _ Hdump; destruct (Hnot e' h' Hdump).
    + subst run. unfold with_log.
      cbn [fst snd config local_animations local_sets host].
      split; [exact Sc|]. split; [exact Sa|]. split; [exact Ss|].
      split; [intros e' He'; discriminate He'|].
      intros e' h' _ Hdump.
      rewrite (save_config_fails w1 e' h' Hdump) in Hsave.
      injection Hsave as <- <-. split; reflexivity.
  - subst run. unfold with_log.
    cbn [fst snd config local_animations local_sets host].
    split; [reflexivity|]. split; [reflexivity|]. split; [reflexivity|].
    split; [|intros e' h' He'; discriminate He'].
    intros e' He'. injection He' as <-. split; reflexivity.
Qed.

(** X26. The selection that [randomize] draws is kept in memory
    whatever happens next: the configuration after [randomize(shuffle)]
    is the one the randomizer left, also when saving or activating
    fails.  When the randomizer raises, the machine is as the randomizer
    left it; when the configuration cannot be written, [randomize]
    raises the exception of the write and nothing is activated. *)
Theorem randomize_keeps_selection (shuffle : bool) (w : world H) :
  let chosen :=
    (if shuffle then randomize_all else randomize_current_set) w in
  let run := randomize_op env shuffle w in
  config (snd run) = config (snd chosen)
  /\ (forall e, fst chosen = Raise e ->
                fst run = Raise e /\ host (snd run) = host (snd chosen))
  /\ (forall e h',
        fst chosen = Ok tt ->
        json_dump (CONFIG_PATH env) (DocConfig (config (snd chosen)))
          (host (snd chosen)) = (Some e, h') ->
        fst run = Raise e /\ host (snd run) = h').
Proof.
  pose proof (change_save_apply "Failed to randomize animations"
                (if shuffle then randomize_all else randomize_current_set) w)
    as Hrun.
  cbv zeta in *. unfold randomize_op.
  destruct Hrun as (Hc & _ & _ & Hraise & Hdump). auto.
Qed.

(** X27. Settings take effect in memory even when they cannot be saved
    or applied: after [saveSettings] the configuration is the old one
    overridden by the keys given, whatever the outcome, and the local
    entries and sets are untouched.  When the configuration cannot be
    written, [saveSettings] raises the exception of the write and
    nothing is activated. *)
Theorem saveSettings_in_memory (doc : settings) (w : world H) :
  let run := saveSettings env doc w in
  config (snd run) = config_update doc (config w)
  /\ local_animations (snd run) = local_animations w
  /\ local_sets (snd run) = local_sets w
  /\ (forall e h',
        json_dump (CONFIG_PATH env)
          (DocConfig (config_update doc (config w))) (host w) = (Some e, h') ->
        fst run = Raise e /\ host (snd run) = h').
Proof.
  pose proof (change_save_apply "Failed to save settings"
                (bind get_config (fun c => put_config (config_update doc c)))
                w)
    as Hrun.
  cbv zeta in *. unfold saveSettings.
  destruct Hrun as (Hc & Ha & Hs & _ & Hdump).
  split; [exact Hc|]. split; [exact Ha|]. split; [exact Hs|].
  intros e h' Hd. apply (Hdump e h' eq_refl Hd).
Qed.

End OperationsMore.
(** ** The plugin at work on the concrete host *)

Lemma run_eq {A B} (p : A * B) (a : A) : fst p = a -> p = (a, snd p).
Proof. intros <-. apply surjective_pairing. Qed.

(** *** Activation *)

Example stale_boot_slot_fails :
  let run := apply_slot Sim.deck 0 stale_boot in
  fst run = Raise (NotFoundError (VStr "missing"))
  /\ logged (snd run)
     = [LogRecord ERROR "Failed to find animation for: missing" None].
Proof. split; vm_compute; reflexivity. Qed.

Example stale_boot_suspend_alone :
  let run := apply_slot Sim.deck 1 stale_boot in
  fst run = Ok tt
  /\ Sim.at_path suspend_target (host (snd run)) = Some (Sim.Link good_file).
Proof. split; vm_compute; reflexivity. Qed.

Example stale_boot_run :
  let run := apply_animations Sim.deck stale_boot in
  fst run = Raise (NotFoundError (VStr "missing"))
  /\ Sim.at_path suspend_target (host (snd run)) = None
  /\ logged (snd run)
     = [LogRecord ERROR "Failed to find animation for: missing" None].
Proof. repeat apply conj; vm_compute; reflexivity. Qed.

(** C1, counterexample: the boot slot fails to resolve and the suspend
    slot, which would have been activated, is never attempted. *)
Lemma apply_animations_not_fault_isolated :
  ~ slots_fault_isolated Sim.deck stale_boot.
Proof.
  intros Hc.
  specialize (Hc 0%nat stale_boot (snd (apply_slot Sim.deck 0 stale_boot))
                 (NotFoundError (VStr "missing")) ltac:(lia) eq_refl).
  apply (f_equal (Sim.at_path suspend_target)) in Hc.
  - vm_compute in Hc. discriminate.
  - apply run_eq. vm_compute. reflexivity.
Qed.

Lemma apply_animations_stops_at_first_failure_witness :
  apply_animations Sim.deck stale_boot
  = (Raise (NotFoundError (VStr "missing")),
     snd (apply_slot Sim.deck 0 stale_boot)).
Proof.
  apply (apply_animations_stops_at_first_failure Sim.deck 0 stale_boot
           stale_boot).
  - lia.
  - reflexivity.
  - apply run_eq. vm_compute. reflexivity.
Defined.

Example no_link_privilege_reaches_link :
  reaches_link Sim.deck "deck_startup.webm" (VStr "good") no_link_privilege
    boot_target false (VStr good_file) no_link_privilege.
Proof.
  split; [reflexivity|]. split; [reflexivity|].
  exists no_link_privilege, no_link_privilege.
  repeat apply conj; reflexivity.
Qed.

Example no_link_privilege_run :
  let run :=
    apply_animation Sim.deck "deck_startup.webm" (VStr "good")
      no_link_privilege in
  fst run = Raise (OSError "Operation not permitted")
  /\ Sim.at_path boot_target (host (snd run)) = None
  /\ fst (Sim.copy2 good_file boot_target (host no_link_privilege)) = None.
Proof. repeat apply conj; vm_compute; reflexivity. Qed.

(** C6, counterexample: on SteamOS a link that cannot be created is not
    replaced by a copy, although the copy would succeed. *)
Lemma link_denied_no_copy_on_linux :
  ~ copies_when_link_denied Sim.deck "deck_startup.webm" (VStr "good")
      no_link_privilege.
Proof.
  intros Hc.
  specialize (Hc boot_target false good_file no_link_privilege
                 (OSError "Operation not permitted")
                 (host no_link_privilege)
                 no_link_privilege_reaches_link eq_refl eq_refl).
  cbv zeta in Hc.
  destruct (shutil_copy2 good_file boot_target (host no_link_privilege))
    as [[copy_error|] h''] eqn:Hcopy.
  - apply (f_equal fst) in Hcopy. vm_compute in Hcopy. discriminate.
  - destruct Hc as [Hc _]. vm_compute in Hc. discriminate.
Qed.

(** By then the vendor's video has been saved and removed. *)
Example pc_before_link_files :
  Sim.nodes (host pc_before_link)
  = [(pc_boot_target +:+ ".backup", Sim.File (Sim.Raw "vendor"));
     (pc_good_file, webm)]
  /\ logged pc_before_link
     = [LogRecord INFO ("Created backup: " +:+ pc_boot_target +:+ ".backup")
          None].
Proof. split; vm_compute; reflexivity. Qed.

Example pc_reaches_link :
  @reaches_link _ Sim.nt_host Sim.pc "bigpicture_startup.webm" (VStr "good")
    pc_no_link_privilege pc_boot_target true (VStr pc_good_file)
    pc_before_link.
Proof.
  split; [reflexivity|]. split; [reflexivity|].
  exists pc_target_selected, pc_target_removed.
  repeat apply conj; apply run_eq; vm_compute; reflexivity.
Qed.

Lemma symlink_failure_fallback_witness :
  let run :=
    @apply_animation _ Sim.nt_host Sim.pc "bigpicture_startup.webm"
      (VStr "good") pc_no_link_privilege in
  fst run = Ok tt
  /\ Sim.at_path pc_boot_target (host (snd run)) = Some webm.
Proof.
  pose proof (@symlink_failure_fallback _ Sim.nt_host Sim.pc
                "bigpicture_startup.webm" (VStr "good")
                pc_no_link_privilege pc_before_link pc_boot_target true
                pc_good_file
                (OSError "Operation not permitted")
                (host pc_before_link)
                pc_reaches_link eq_refl eq_refl) as Hw.
  cbv zeta in Hw |- *.
  change (bool_decide (system Sim.pc = Windows) || true) with true in Hw.
  cbv iota in Hw.
  destruct (@shutil_copy2 _ Sim.nt_host pc_good_file pc_boot_target
              (host pc_before_link)) as [[e|] h''] eqn:Hcopy.
  - apply (f_equal fst) in Hcopy. vm_compute in Hcopy. discriminate.
  - destruct Hw as [Hres Hhost]. split; [exact Hres|].
    rewrite Hhost. apply (f_equal snd) in Hcopy. simpl in Hcopy.
    rewrite <- Hcopy. vm_compute. reflexivity.
Defined.

(** *** Resolution *)

Lemma resolution_order_witness :
  resolve Sim.deck (VStr "good") in_two_pools
  = (Ok (VStr (path_join (DOWNLOADS_PATH Sim.deck) "good.webm")),
     in_two_pools).
Proof.
  destruct (resolution_order Sim.deck in_two_pools "good")
    as (path & _ & Hd & _ & _ & Hres & _).
  - repeat (constructor; [eexists; vm_compute; reflexivity|]). constructor.
  - repeat (constructor; [eexists; vm_compute; reflexivity|]). constructor.
  - repeat (constructor; [eexists; vm_compute; reflexivity|]). constructor.
  - constructor.
  - rewrite Hd in Hres by (eexists; vm_compute; reflexivity).
    change (path_on_disk (VStr (path_join (DOWNLOADS_PATH Sim.deck)
                                  ("good" +:+ ".webm")))
              (host in_two_pools)) with true in Hres.
    exact Hres.
Defined.

(** The record of a download whose file is gone, and a custom record
    that is reached because the downloads do not have the identifier. *)
Example stale_download :
  fst (resolve Sim.deck (VStr "good")
         (Sim.start (with_downloads [record "good" "boot"] default_config)
                    (Sim.machine [])))
  = Raise (NotFoundError (VStr "good")).
Proof. vm_compute. reflexivity. Qed.

Example custom_after_downloads :
  fst (resolve Sim.deck (VStr "good")
         (Sim.start
            {| boot := VStr ""; suspend := VStr ""; throbber := VStr "";
               randomize := VStr ""; current_set := VStr "";
               downloads := [record "other" "boot"];
               custom_animations :=
                 [custom_record "good" "boot" "/home/deck/Videos/mine.webm"];
               custom_sets := []; shuffle_exclusions := [];
               force_ipv4 := VBool false |}
            (Sim.machine [("/home/deck/Videos/mine.webm", webm)])))
  = Ok (VStr "/home/deck/Videos/mine.webm").
Proof. vm_compute. reflexivity. Qed.

(** *** The local scan *)

Example broken_config_scan :
  let run := load_local_animations Sim.deck broken_config in
  fst run = Ok tt
  /\ flags (local_sets (snd run))
     = [(Some (VStr "plain"), Some (VBool true), None)]
  /\ files_of (local_sets (snd run))
     = [(Some (VStr "plain"), Some (VStr "deck_startup.webm"),
         Some (VStr ""), Some (VStr ""))]
  /\ ids (local_animations (snd run)) = [Some (VStr "plain/deck_startup.webm")]
  /\ logged (snd run)
     = [LogRecord WARNING "Failed to parse config.json for: broken"
          (Some (ValueError "Expecting value"))].
Proof. repeat apply conj; vm_compute; reflexivity. Qed.

(** C5, counterexample: the directory with the unparsable [config.json]
    gives no set, although its default boot video is there. *)
Lemma unparsable_config_no_fallback :
  ~ falls_back_to_defaults Sim.deck broken_config.
Proof.
  intros Hc.
  destruct (Hc ["broken"; "plain"] "broken" (ValueError "Expecting value"))
    as (local_set & Hin & Hid); try (vm_compute; reflexivity).
  - apply elem_of_cons. left. reflexivity.
  - assert (Hids : Some (VStr "broken")
                   ∈ ids (local_sets
                            (snd (load_local_animations Sim.deck
                                    broken_config)))).
    { rewrite <- Hid. unfold ids.
      apply (list_elem_of_fmap_2 (fun d : dict => d !! "id")). exact Hin. }
    vm_compute in Hids. apply elem_of_cons in Hids as [Hids|Hids].
    + discriminate.
    + inversion Hids.
Qed.

Lemma unparsable_config_skips_directory_witness :
  scan_directories Sim.deck ["broken"; "plain"] ([], []) broken_config
  = scan_directories Sim.deck ["plain"] ([], [])
      (with_log
         (LogRecord WARNING "Failed to parse config.json for: broken"
            (Some (ValueError "Expecting value")))
         broken_config).
Proof.
  apply (unparsable_config_skips_directory Sim.deck "broken" ["plain"]
           ([], []) broken_config (ValueError "Expecting value"));
    vm_compute; reflexivity.
Defined.

(** *** The randomizer *)

Example nothing_enabled_run :
  let run := randomize_current_set nothing_enabled in
  fst run = Ok tt
  /\ boot (config (snd run)) = VStr ""
  /\ suspend (config (snd run)) = VStr ""
  /\ current_set (config (snd run)) = VStr "".
Proof. repeat apply conj; vm_compute; reflexivity. Qed.

Lemma nothing_enabled_active :
  get_active_sets nothing_enabled = (Ok [], nothing_enabled).
Proof. apply run_eq. vm_compute. reflexivity. Qed.

(** C2, counterexample: without an enabled set the selection is
    cleared, not kept. *)
Lemma randomize_current_set_clears :
  ~ keeps_selection_without_enabled_set nothing_enabled.
Proof.
  intros Hc. destruct (Hc nothing_enabled_active) as [Hboot _].
  vm_compute in Hboot. discriminate.
Qed.

Example three_sets_run :
  let run := randomize_current_set three_sets in
  fst run = Ok tt
  /\ current_set (config (snd run)) = VStr "mine"
  /\ boot (config (snd run)) = VStr "mine/a.webm"
  /\ suspend (config (snd run)) = VStr "mine/b.webm"
  /\ throbber (config (snd run)) = VStr "".
Proof. repeat apply conj; vm_compute; reflexivity. Qed.

Lemma randomize_current_set_selection_witness :
  (let run := randomize_current_set nothing_enabled in
   let c' := config (snd run) in
   fst run = Ok tt
   /\ current_set c' = VStr "" /\ boot c' = VStr ""
   /\ suspend c' = VStr "" /\ throbber c' = VStr "")
  /\ exists new_set enabled,
       new_set ∈ (local_sets three_sets
                  ++ custom_sets (config three_sets))%list
       /\ new_set !! "enabled" = Some enabled
       /\ truthy enabled = true
       /\ randomize_current_set three_sets
          = assign_set new_set
              (with_host (snd (random_randint 0 1 (host three_sets)))
                 three_sets).
Proof.
  split.
  - apply (proj1 (randomize_current_set_selection nothing_enabled)).
    exact nothing_enabled_active.
  - destruct (proj2 (randomize_current_set_selection three_sets)
                [set_record "neon" true "deck_startup.webm" "" "";
                 set_record "mine" true "a.webm" "b.webm" ""])
      as (new_set & enabled & Hin & Hen & Htr & Hrun & _).
    + reflexivity.
    + discriminate.
    + exists new_set, enabled. auto.
Defined.

Example no_boot_entries_run :
  let run := randomize_all no_boot_entries in
  fst run = Ok tt
  /\ pool_of 0 no_boot_entries = inr []
  /\ boot (config (snd run)) = VStr "kept"
  /\ suspend (config (snd run)) = VStr "wave"
  /\ throbber (config (snd run)) = VStr "wave".
Proof. repeat apply conj; vm_compute; reflexivity. Qed.

(** C3, counterexample: the boot slot has no eligible entry and keeps
    its selection. *)
Lemma randomize_all_does_not_clear :
  ~ clears_slot_with_empty_pool no_boot_entries.
Proof.
  intros Hc. specialize (Hc 0%nat ltac:(lia) eq_refl).
  vm_compute in Hc. discriminate.
Qed.

Lemma randomize_all_keeps_slot_with_empty_pool_witness :
  get_slot 0 (config (snd (randomize_all no_boot_entries))) = VStr "kept".
Proof.
  apply (randomize_all_keeps_slot_with_empty_pool no_boot_entries 0).
  - lia.
  - reflexivity.
Defined.

Example mixed_pools_run :
  let run := randomize_all mixed_pools in
  fst run = Ok tt
  /\ boot (config (snd run)) = VStr "mine"
  /\ suspend (config (snd run)) = VStr "wave"
  /\ throbber (config (snd run)) = VStr "wave"
  /\ current_set (config (snd run)) = VStr "".
Proof. repeat apply conj; vm_compute; reflexivity. Qed.

Lemma randomize_all_assigns_from_pool_witness :
  let w' := snd (randomize_all mixed_pools) in
  get_slot 0 (config w') = get_slot 0 (config mixed_pools)
  \/ exists anim,
       anim ∈ (local_animations mixed_pools ++ downloads (config mixed_pools)
               ++ custom_animations (config mixed_pools))%list
       /\ anim !! "id" = Some (get_slot 0 (config w'))
       /\ (exists t, anim !! "target" = Some t
                     /\ py_eq t (VStr (nth 0 VIDEO_TARGETS "")) = true)
       /\ py_in (get_slot 0 (config w'))
                (shuffle_exclusions (config mixed_pools)) = false.
Proof.
  apply (randomize_all_assigns_from_pool mixed_pools 0). lia.
Defined.

(** *** Enabling and disabling a set *)

(** C4, the code at the failing input: disabling the only set succeeds,
    but the flag goes into a member [enable]; [enabled] stays true in
    memory and in the file written, so that the set is still among the
    active sets, and is enabled again after the next scan. *)
Theorem enableSet_leaves_set_enabled :
  let run := enableSet Sim.deck (VStr "neon") (VBool false) one_enabled_set in
  let config_json := animations_dir +:+ "/neon/config.json" in
  fst run = Ok tt
  /\ flags (local_sets (snd run))
     = [(Some (VStr "neon"), Some (VBool true), Some (VBool false))]
  /\ match fst (get_active_sets (snd run)) with
     | Ok active => ids active = [Some (VStr "neon")]
     | Raise _ => False
     end
  /\ Sim.member config_json "enabled" (host (snd run)) = Some (VBool true)
  /\ Sim.member config_json "enable" (host (snd run)) = Some (VBool false)
  /\ flags (local_sets (snd (load_local_animations Sim.deck (snd run))))
     = [(Some (VStr "neon"), Some (VBool true), None)].
Proof. repeat apply conj; vm_compute; reflexivity. Qed.

(** The same for a custom set. *)
Example enableSet_custom_set :
  let w :=
    Sim.start (set_custom_sets [set_record "mine" true "a.webm" "" ""]
                 default_config) (Sim.machine []) in
  let run := enableSet Sim.deck (VStr "mine") (VBool false) w in
  fst run = Ok tt
  /\ flags (custom_sets (config (snd run)))
     = [(Some (VStr "mine"), Some (VBool true), Some (VBool false))]
  /\ match fst (get_active_sets (snd run)) with
     | Ok active => ids active = [Some (VStr "mine")]
     | Raise _ => False
     end.
Proof. repeat apply conj; vm_compute; reflexivity. Qed.

(** *** The catalog *)

Example refresh_503_503_429 :
  let run :=
    get_steamdeckrepo
      (asking [status_only 503; status_only 503; status_only 429;
               HttpResponse 200 (inr [])]) in
  fst run = Raise (Exception "Rate limit exceeded, try again in a minute")
  /\ Sim.requests (host (snd run)) = 3%nat.
Proof. split; vm_compute; reflexivity. Qed.

Example refresh_five_503 :
  let run :=
    get_steamdeckrepo
      (asking [status_only 503; status_only 503; status_only 503;
               status_only 503; status_only 503; HttpResponse 200 (inr [])]) in
  fst run = Raise (Exception "Retry attempts exceeded, status code: 503")
  /\ Sim.requests (host (snd run)) = 5%nat.
Proof. split; vm_compute; reflexivity. Qed.

Example refresh_200 :
  let run :=
    get_steamdeckrepo
      (asking [HttpResponse 200
                 (inr [a_post "p1" "boot_video"; a_post "p2" "wallpaper";
                       a_post "p3" "suspend_video"])]) in
  match fst run with
  | Ok l =>
      (fun d : dict => (d !! "id", d !! "target", d !! "download_url")) <$> l
      = [(Some (VStr "p1"), Some (VStr "boot"),
          Some (VStr "https://steamdeckrepo.com/post/download/p1"));
         (Some (VStr "p3"), Some (VStr "suspend"),
          Some (VStr "https://steamdeckrepo.com/post/download/p3"))]
  | Raise _ => False
  end
  /\ Sim.requests (host (snd run)) = 1%nat.
Proof. split; vm_compute; reflexivity. Qed.

Lemma catalog_refresh_attempts_witness :
  let run :=
    get_steamdeckrepo
      (asking [status_only 503; status_only 503; status_only 429]) in
  fst run = Raise (Exception "Rate limit exceeded, try again in a minute")
  /\ Sim.requests (host (snd run)) = 3%nat.
Proof.
  set (w := asking [status_only 503; status_only 503; status_only 429]).
  destruct (catalog_refresh_attempts w) as (_ & Hretry & _).
  destruct (Hretry 2%nat ltac:(lia)) as [_ H429].
  - intros k Hk. exists 503%Z, (inl (ValueError "Expecting value")).
    destruct k as [|[|k]]; [| |lia];
      (split; [vm_compute; reflexivity | split; discriminate]).
  - destruct (H429 (inl (ValueError "Expecting value"))) as [Hres Hhost];
      [vm_compute; reflexivity|].
    cbv zeta. split; [exact Hres|]. rewrite Hhost. vm_compute. reflexivity.
Defined.

(** *** The custom store *)

Example doubled_save :
  let run := saveCustomSet Sim.deck (set_record "s" true "4" "" "") doubled in
  fst run = Ok tt
  /\ files_of (custom_sets (config (snd run)))
     = [(Some (VStr "t"), Some (VStr "2"), Some (VStr ""), Some (VStr ""));
        (Some (VStr "s"), Some (VStr "4"), Some (VStr ""), Some (VStr ""))].
Proof. split; vm_compute; reflexivity. Qed.

Lemma save_custom_upserts_witness :
  count_id (VStr "s")
    (custom_sets
       (config
          (snd (saveCustomSet Sim.deck (set_record "s" true "5" "" "")
                  (snd (saveCustomSet Sim.deck
                          (set_record "s" true "4" "" "") doubled))))))
  = 1%nat
  /\ count_id (VStr "a")
       (custom_animations
          (config
             (snd (saveCustomAnimation Sim.deck
                     (custom_record "a" "boot" "/tmp/4.webm") doubled))))
     = 1%nat.
Proof.
  destruct (save_custom_upserts Sim.deck
              (set_record "s" true "4" "" "") (set_record "s" true "5" "" "")
              (VStr "s") doubled eq_refl eq_refl) as [Hsets _].
  destruct (save_custom_upserts Sim.deck
              (custom_record "a" "boot" "/tmp/4.webm")
              (custom_record "a" "boot" "/tmp/4.webm")
              (VStr "a") doubled eq_refl eq_refl) as [_ Hanims].
  split.
  - destruct Hsets as (_ & _ & _ & Hcount).
    + repeat (constructor; [eexists; vm_compute; reflexivity|]). constructor.
    + exact Hcount.
  - destruct Hanims as (_ & Hcount & _).
    + repeat (constructor; [eexists; vm_compute; reflexivity|]). constructor.
    + exact Hcount.
Defined.

(** ** The further properties on the concrete host *)

Lemma nth_member {A} (l : list A) (i : nat) (d : A) :
  (i < length l)%nat -> nth i l d ∈ l.
Proof. intros Hi. apply list_elem_of_In, List.nth_In, Hi. Qed.

Ltac all_have_id :=
  repeat (constructor; [eexists; vm_compute; reflexivity|]); constructor.

(** *** The catalogue *)

Lemma connection_failure_not_retried_witness :
  fst (get_steamdeckrepo (asking [status_only 503]))
  = Raise (OSError "Cannot connect to host")
  /\ Sim.requests (host (snd (get_steamdeckrepo (asking [status_only 503]))))
     = 2%nat.
Proof.
  destruct (connection_failure_not_retried (asking [status_only 503]) 1
              (OSError "Cannot connect to host")) as [Hres Hhost].
  - lia.
  - intros k Hk. exists 503%Z, (inl (ValueError "Expecting value")).
    destruct k as [|k]; [|lia].
    split; [vm_compute; reflexivity | split; discriminate].
  - vm_compute. reflexivity.
  - split; [exact Hres|]. rewrite Hhost. vm_compute. reflexivity.
Defined.

(** *** The scan *)


Lemma scanned_sets_complete_witness :
  complete_set
    (nth 0 (local_sets (snd (load_local_animations Sim.deck broken_config)))
       ∅).
Proof.
  destruct (scanned_sets_complete Sim.deck broken_config ["broken"; "plain"])
    as [Hsets _]; [vm_compute; reflexivity|].
  apply Hsets, nth_member. vm_compute. lia.
Defined.

Lemma scanned_sets_have_entries_witness :
  exists a,
    a ∈ local_animations (snd (load_local_animations Sim.deck broken_config))
    /\ a !! "id" = Some (VStr "plain/deck_startup.webm")
    /\ a !! "target" = Some (VStr "boot").
Proof.
  apply (scanned_sets_have_entries Sim.deck broken_config ["broken"; "plain"]
           (nth 0 (local_sets
                     (snd (load_local_animations Sim.deck broken_config))) ∅)
           0 (VStr "plain") (VStr "deck_startup.webm")).
  - vm_compute. reflexivity.
  - apply nth_member. vm_compute. lia.
  - lia.
  - vm_compute. reflexivity.
  - vm_compute. reflexivity.
  - reflexivity.
Defined.

Lemma configured_file_not_checked_witness :
  path_exists (animations_dir +:+ "/styled/intro.webm") (host styled) = false
  /\ exists a,
       a ∈ local_animations (snd (load_local_animations Sim.deck styled))
       /\ a !! "id" = Some (VStr "styled/intro.webm")
       /\ a !! "target" = Some (VStr "boot").
Proof.
  split; [vm_compute; reflexivity|].
  destruct (configured_file_not_checked Sim.deck styled ["styled"] "styled"
              styled_config 0 (VStr "intro.webm")) as [_ Hentry].
  - vm_compute. reflexivity.
  - constructor.
  - vm_compute. reflexivity.
  - reflexivity.
  - lia.
  - reflexivity.
  - apply Hentry. reflexivity.
Defined.

(** *** Activation *)

Lemma revert_to_default_never_fails_witness :
  fst (apply_animation Sim.deck "deck_startup.webm" (VStr "") stale_boot)
  = Ok tt.
Proof.
  apply (revert_to_default_never_fails Sim.deck "deck_startup.webm"
           stale_boot).
  right. eexists. reflexivity.
Defined.

Lemma windows_activates_boot_only_witness :
  fst (@apply_animations _ Sim.nt_host Sim.pc pc_no_link_privilege) = Ok tt.
Proof.
  pose proof (@windows_activates_boot_only _ Sim.nt_host Sim.pc
                pc_no_link_privilege eq_refl) as Hw.
  assert (Hboot : fst (@apply_slot _ Sim.nt_host Sim.pc 0
                         pc_no_link_privilege) = Ok tt)
    by (vm_compute; reflexivity).
  destruct (@apply_slot _ Sim.nt_host Sim.pc 0 pc_no_link_privilege)
    as [[[]|e] w1]; [|discriminate Hboot].
  rewrite Hw. reflexivity.
Defined.

Lemma no_steam_root_no_activation_witness :
  exists msg,
    @apply_animations _ Sim.nt_host stranded pc_no_link_privilege
    = (Raise (TypeError msg), pc_no_link_privilege).
Proof.
  apply (@no_steam_root_no_activation _ Sim.nt_host stranded
           pc_no_link_privilege); reflexivity.
Defined.

(** *** The custom store *)

Lemma remove_custom_removes_all_witness :
  count_id (VStr "s")
    (custom_sets (config (snd (removeCustomSet Sim.deck (VStr "s") doubled))))
  = 0%nat.
Proof.
  destruct (remove_custom_removes_all Sim.deck
              (set_record "s" true "4" "" "") (VStr "s") doubled eq_refl)
    as [Hsets _].
  destruct Hsets as (_ & Hcount & _); [all_have_id|exact Hcount].
Defined.

Lemma save_failure_keeps_entry_witness :
  fst (saveCustomSet Sim.deck (set_record "n" true "1" "" "")
         config_protected)
  = Raise (OSError "Permission denied")
  /\ count_id (VStr "n")
       (custom_sets
          (config (snd (saveCustomSet Sim.deck
                          (set_record "n" true "1" "" "") config_protected))))
     = 1%nat.
Proof.
  rewrite (save_failure_keeps_entry Sim.deck (set_record "n" true "1" "" "")
             (VStr "n") config_protected (OSError "Permission denied")
             (host config_protected)).
  - split; [reflexivity | vm_compute; reflexivity].
  - reflexivity.
  - constructor.
  - reflexivity.
Defined.

Lemma set_without_enabled_blocks_randomize_witness :
  randomize_current_set bare_set = (Raise (KeyError "enabled"), bare_set).
Proof.
  apply (set_without_enabled_blocks_randomize bare_set
           (record "bare" "boot")).
  - apply elem_of_app. left. constructor.
  - reflexivity.
Defined.

Lemma randomize_all_completes_witness :
  fst (randomize_all mixed_pools) = Ok tt
  /\ current_set (config (snd (randomize_all mixed_pools))) = VStr "".
Proof.
  assert (H0 : no_error (pool_of 0 mixed_pools) = true)
    by (vm_compute; reflexivity).
  assert (H1 : no_error (pool_of 1 mixed_pools) = true)
    by (vm_compute; reflexivity).
  assert (H2 : no_error (pool_of 2 mixed_pools) = true)
    by (vm_compute; reflexivity).
  destruct (pool_of 0 mixed_pools) as [e|p0] eqn:E0; [discriminate H0|].
  destruct (pool_of 1 mixed_pools) as [e|p1] eqn:E1; [discriminate H1|].
  destruct (pool_of 2 mixed_pools) as [e|p2] eqn:E2; [discriminate H2|].
  destruct (randomize_all_completes mixed_pools p0 p1 p2 E0 E1 E2)
    as (Hok & Hset & _).
  split; assumption.
Defined.

(** *** Downloads *)

Lemma deleted_animation_cannot_be_resolved_witness :
  fst (resolve Sim.deck (VStr "good")
         (snd (deleteAnimation Sim.deck (VStr "good") stale_boot)))
  = Raise (NotFoundError (VStr "good")).
Proof.
  destruct (deleted_animation_cannot_be_resolved Sim.deck "good" stale_boot)
    as (_ & _ & Hres).
  - all_have_id.
  - constructor.
  - constructor.
  - apply Hres; intros [x Hx]; discriminate Hx.
Defined.

Lemma download_again_is_noop_witness :
  downloadAnimation Sim.deck (VStr "good") stale_boot = (Ok tt, stale_boot).
Proof.
  apply (download_again_is_noop Sim.deck (VStr "good") stale_boot).
  - all_have_id.
  - eexists. reflexivity.
Defined.

Lemma download_unknown_makes_no_request_witness :
  fst (downloadAnimation Sim.deck (VStr "nope") (asking []))
  = Raise (Exception "Failed to find cached animation with id: nope")
  /\ Sim.requests
       (host (snd (downloadAnimation Sim.deck (VStr "nope") (asking []))))
     = 0%nat.
Proof.
  rewrite (download_unknown_makes_no_request Sim.deck (VStr "nope")
             (asking [])).
  - split; reflexivity.
  - constructor.
  - constructor.
  - intros [x Hx]. discriminate Hx.
  - intros [x Hx]. discriminate Hx.
Defined.

Lemma download_refused_writes_nothing_witness :
  fst (downloadAnimation Sim.deck (VStr "wave") wave_gone)
  = Raise (Exception "Invalid download request status: 404")
  /\ Sim.at_path wave_file
       (host (snd (downloadAnimation Sim.deck (VStr "wave") wave_gone)))
     = None.
Proof.
  rewrite (download_refused_writes_nothing Sim.deck (VStr "wave")
             (VStr (download_url "wave")) (cached_record "wave" "boot")
             wave_gone 404 (inr "Not Found")
             (Sim.State [] true [] [] 1 [])).
  - split; reflexivity.
  - constructor.
  - all_have_id.
  - intros [x Hx]. discriminate Hx.
  - reflexivity.
  - reflexivity.
  - reflexivity.
  - discriminate.
Defined.

Lemma downloaded_animation_resolves_witness :
  fst (find_path Sim.deck (VStr "wave")
         (snd (downloadAnimation Sim.deck (VStr "wave") wave_served)))
  = Ok (VStr wave_file)
  /\ fst (downloadAnimation Sim.deck (VStr "wave") wave_served) = Ok tt.
Proof.
  destruct (downloaded_animation_resolves Sim.deck "wave"
              (VStr (download_url "wave")) (cached_record "wave" "boot")
              wave_served "bytes"
              (Sim.State [(download_url "wave", Sim.File (Sim.Raw "bytes"))]
                 true [] [] 1 [])
              (Sim.State
                 [(wave_file, Sim.File (Sim.Raw "bytes"));
                  (download_url "wave", Sim.File (Sim.Raw "bytes"))]
                 true [] [] 1 []))
    as (_ & Hpath & Hok).
  - constructor.
  - all_have_id.
  - intros [x Hx]. discriminate Hx.
  - reflexivity.
  - reflexivity.
  - vm_compute. reflexivity.
  - vm_compute. reflexivity.
  - split.
    + rewrite Hpath. reflexivity.
    + apply Hok. vm_compute. reflexivity.
Defined.

Lemma regenerated_downloads_from_cache_witness :
  fst (regenerate_downloads Sim.deck leftover_files) = Ok tt
  /\ contains
       (downloads
          (config (snd (regenerate_downloads Sim.deck leftover_files))))
       (VStr "wave")
  /\ Sim.requests (host (snd (regenerate_downloads Sim.deck leftover_files)))
     = 0%nat.
Proof.
  destruct (regenerated_downloads_from_cache Sim.deck leftover_files
              ["wave.webm"; "notes.txt"; "ghost.webm"])
    as (Hok & Hhost & _ & _ & Hall).
  - discriminate.
  - all_have_id.
  - vm_compute. reflexivity.
  - split; [exact Hok|]. split.
    + apply Hall; [constructor | eexists; reflexivity].
    + rewrite Hhost. reflexivity.
Defined.
